(** * Asset-Manager: the SharePoint data-access layer

    A shallow embedding of the class [SharePointService] (the service
    module imported as services/sharepointService, kept in
    src/screens/HomeScreen.tsx after the screens) and the properties its
    specification states about it.

    Modelling conventions.
    - A JavaScript string is a [string]: one [ascii] per UTF-16 code unit,
      for the code units 0..255.  Character classes ([\s], [\d]), [trim]
      and [toLowerCase] are the ECMAScript ones restricted to that range.
    - A JavaScript number is an integer [Z] or [JNaN]; fractional values and
      the rounding of doubles are outside the model.
    - An object is the list of its entries in enumeration order; assigning a
      key that is not an array index replaces the value in place or appends.
    - [async] methods are functions in a state-and-exception monad over the
      service fields and the log of the requests sent so far.  The remote
      side and the platform built-ins are the fields of a [Platform]. *)

From Stdlib Require Import ZArith String Ascii List Bool Lia DecimalString.
From stdpp Require Import base gmap strings list.

Open Scope string_scope.
Open Scope list_scope.
Open Scope nat_scope.

(** ** Strings *)

Module Str.

Definition code (c : ascii) : N := N_of_ascii c.

Definition between (lo hi : N) (c : ascii) : bool :=
  ((lo <=? code c) && (code c <=? hi))%N.

(** [\d] *)
Definition isDigit (c : ascii) : bool := between 48 57 c.

Definition isUpper (c : ascii) : bool := between 65 90 c.
Definition isLower (c : ascii) : bool := between 97 122 c.

(** [[A-Za-z]] *)
Definition isAlpha (c : ascii) : bool := isUpper c || isLower c.

(** [\s], also the characters removed by [trim] and skipped by [parseInt]:
    TAB, LF, VT, FF, CR, SP, NBSP. *)
Definition isSpace (c : ascii) : bool :=
  between 9 13 c || (code c =? 32)%N || (code c =? 160)%N.

(** [[0-9a-f]] under the [i] flag *)
Definition isHex (c : ascii) : bool :=
  isDigit c || between 97 102 c || between 65 70 c.

Definition lowerChar (c : ascii) : ascii :=
  if isUpper c || between 192 214 c || between 216 222 c
  then ascii_of_N (code c + 32) else c.

Fixpoint toLowerCase (s : string) : string :=
  match s with
  | EmptyString => EmptyString
  | String c r => String (lowerChar c) (toLowerCase r)
  end.

Fixpoint all (p : ascii -> bool) (s : string) : bool :=
  match s with
  | EmptyString => true
  | String c r => p c && all p r
  end.

Definition isEmpty (s : string) : bool :=
  match s with EmptyString => true | _ => false end.

Fixpoint startsWith (s p : string) : bool :=
  match p with
  | EmptyString => true
  | String a p' =>
      match s with
      | EmptyString => false
      | String b s' => Ascii.eqb a b && startsWith s' p'
      end
  end.

Fixpoint includes (s sub : string) : bool :=
  startsWith s sub ||
  match s with
  | EmptyString => false
  | String _ r => includes r sub
  end.

Fixpoint drop (n : nat) (s : string) : string :=
  match n, s with
  | S n', String _ r => drop n' r
  | _, _ => s
  end.

(** [s.replace(pat, rep)] for a string pattern: the first occurrence only. *)
Fixpoint replace (s pat rep : string) : string :=
  if startsWith s pat then rep +:+ drop (String.length pat) s
  else match s with
       | EmptyString => EmptyString
       | String c r => String c (replace r pat rep)
       end.

(** [s.split(sep)[0]] for a non-empty separator. *)
Fixpoint splitHead (s sep : string) : string :=
  if startsWith s sep then EmptyString
  else match s with
       | EmptyString => EmptyString
       | String c r => String c (splitHead r sep)
       end.

Fixpoint trimStart (s : string) : string :=
  match s with
  | EmptyString => EmptyString
  | String c r => if isSpace c then trimStart r else s
  end.

Fixpoint trimEnd (s : string) : string :=
  match s with
  | EmptyString => EmptyString
  | String c r =>
      let r' := trimEnd r in
      if isSpace c && isEmpty r' then EmptyString else String c r'
  end.

Definition trim (s : string) : string := trimEnd (trimStart s).

(** The longest prefix of [s] whose characters satisfy [p], and the rest. *)
Fixpoint span (p : ascii -> bool) (s : string) : string * string :=
  match s with
  | EmptyString => (EmptyString, EmptyString)
  | String c r =>
      if p c then let '(a, b) := span p r in (String c a, b)
      else (EmptyString, s)
  end.

(** [n] characters satisfying [p], then the rest. *)
Fixpoint take (p : ascii -> bool) (n : nat) (s : string) : option string :=
  match n with
  | O => Some s
  | S n' =>
      match s with
      | String c r => if p c then take p n' r else None
      | EmptyString => None
      end
  end.

Definition lit (c : ascii) (s : string) : option string :=
  match s with
  | String d r => if Ascii.eqb c d then Some r else None
  | EmptyString => None
  end.

Fixpoint join (sep : string) (l : list string) : string :=
  match l with
  | [] => EmptyString
  | [x] => x
  | x :: r => x +:+ sep +:+ join sep r
  end.

(** [s.split(c)] for a one-character separator. *)
Fixpoint split (sep : ascii) (s : string) : list string :=
  match s with
  | EmptyString => [EmptyString]
  | String c r =>
      if Ascii.eqb c sep then EmptyString :: split sep r
      else match split sep r with
           | x :: xs => String c x :: xs
           | [] => [String c EmptyString]
           end
  end.

Definition nl : string := String (ascii_of_N 10) EmptyString.

Definition digitVal (c : ascii) : Z := Z.of_N (code c) - 48.

Fixpoint digitsValue (acc : Z) (s : string) : Z :=
  match s with
  | String c r => if isDigit c then digitsValue (10 * acc + digitVal c) r else acc
  | EmptyString => acc
  end.

(** Number::toString for a safe integer: its decimal digits.  Beyond
    2^53 the code prints the digits of the double, which these are not. *)
Definition ofZ (z : Z) : string := NilZero.string_of_int (Z.to_int z).

Definition ofNat (n : nat) : string := ofZ (Z.of_nat n).

(** *** The regular expressions of the service *)

(** [/^HPH\s?\d+/] *)
Definition matchHPH (s : string) : bool :=
  match s with
  | String "H" (String "P" (String "H" r)) =>
      match r with
      | String c r' =>
          isDigit c ||
          (isSpace c && match r' with String d _ => isDigit d | _ => false end)
      | EmptyString => false
      end
  | _ => false
  end.

(** [/^\d+$/] *)
Definition matchAllDigits (s : string) : bool := negb (isEmpty s) && all isDigit s.

(** [/^\d{4}-\d{2}-\d{2}/] *)
Definition matchDatePrefix (s : string) : bool :=
  match take isDigit 4 s with
  | Some s1 =>
      match lit "-" s1 with
      | Some s2 =>
          match take isDigit 2 s2 with
          | Some s3 =>
              match lit "-" s3 with
              | Some s4 => match take isDigit 2 s4 with Some _ => true | None => false end
              | None => false
              end
          | None => false
          end
      | None => false
      end
  | None => false
  end.

(** [/^[A-Za-z\s]+$/] *)
Definition matchLetters (s : string) : bool :=
  negb (isEmpty s) && all (fun c => isAlpha c || isSpace c) s.

(** [/^[A-Za-z\s.]+$/] *)
Definition matchLettersDots (s : string) : bool :=
  negb (isEmpty s) && all (fun c => isAlpha c || isSpace c || Ascii.eqb c ".") s.

(** [/^[0-9a-f]{8}-[0-9a-f]{4}-[0-9a-f]{4}-[0-9a-f]{4}-[0-9a-f]{12}$/i] *)
Definition matchGuid (s : string) : bool :=
  match take isHex 8 s with
  | Some s1 =>
  match lit "-" s1 with
  | Some s2 =>
  match take isHex 4 s2 with
  | Some s3 =>
  match lit "-" s3 with
  | Some s4 =>
  match take isHex 4 s4 with
  | Some s5 =>
  match lit "-" s5 with
  | Some s6 =>
  match take isHex 4 s6 with
  | Some s7 =>
  match lit "-" s7 with
  | Some s8 =>
  match take isHex 12 s8 with
  | Some rest => isEmpty rest
  | None => false end
  | None => false end
  | None => false end
  | None => false end
  | None => false end
  | None => false end
  | None => false end
  | None => false end
  | None => false
  end.

(** [s.match(/^(exp:\/\/[^\/]+)/)]: the captured group. *)
Definition matchExpBase (s : string) : option string :=
  if startsWith s "exp://" then
    let '(host, _) := span (fun c => negb (Ascii.eqb c "/")) (drop 6 s) in
    if isEmpty host then None else Some ("exp://" +:+ host)
  else None.

End Str.

(** ** Values *)

#[local] Unset Elimination Schemes.
Inductive JsVal : Type :=
| JUndefined
| JNull
| JBool (b : bool)
| JNum (n : Z)
| JNaN
| JStr (s : string)
| JArr (elems : list JsVal)
| JObj (entries : list (string * JsVal)).
#[local] Set Elimination Schemes.

(** An object: its entries in enumeration order. *)
Abbreviation Obj := (list (string * JsVal)).

Inductive Exn : Type :=
| Error (message : string)
| TypeError.

Inductive Outcome (A : Type) : Type :=
| Ok (a : A)
| Throw (e : Exn).
Arguments Ok {A} a.
Arguments Throw {A} e.

Module Js.

(** ToBoolean *)
Definition truthy (v : JsVal) : bool :=
  match v with
  | JUndefined | JNull | JNaN => false
  | JBool b => b
  | JNum n => negb (n =? 0)%Z
  | JStr s => negb (Str.isEmpty s)
  | JArr _ | JObj _ => true
  end.

(** [a || b] *)
Definition or (a b : JsVal) : JsVal := if truthy a then a else b.

(** [typeof v === 'object'] *)
Definition isObjectType (v : JsVal) : bool :=
  match v with
  | JNull | JArr _ | JObj _ => true
  | _ => false
  end.

(** [v != null] *)
Definition notNullish (v : JsVal) : bool :=
  match v with
  | JUndefined | JNull => false
  | _ => true
  end.

(** [v && typeof v === 'object'] *)
Definition isInline (v : JsVal) : bool := truthy v && isObjectType v.

(** [String(v)], also the conversion of [${v}] in a template literal. *)
Fixpoint toString (v : JsVal) : string :=
  match v with
  | JUndefined => "undefined"
  | JNull => "null"
  | JBool b => if b then "true" else "false"
  | JNum n => Str.ofZ n
  | JNaN => "NaN"
  | JStr s => s
  | JArr l =>
      Str.join ","
        (map (fun x => match x with
                       | JUndefined | JNull => EmptyString
                       | _ => toString x
                       end) l)
  | JObj _ => "[object Object]"
  end.

(** [a === b].  Two arrays or two objects are equal when they are the same
    reference; the values compared by the service come from different
    responses, so they never are. *)
Definition strictEq (a b : JsVal) : bool :=
  match a, b with
  | JUndefined, JUndefined => true
  | JNull, JNull => true
  | JBool x, JBool y => Bool.eqb x y
  | JNum x, JNum y => (x =? y)%Z
  | JStr x, JStr y => String.eqb x y
  | _, _ => false
  end.

(** [o[k]] on an object; [undefined] when the key is absent. *)
Fixpoint field (o : Obj) (k : string) : JsVal :=
  match o with
  | [] => JUndefined
  | (k', v) :: r => if String.eqb k' k then v else field r k
  end.

(** The keys an object enumerates first, in ascending order: the array
    indices, canonical decimal numerals up to 2^32 - 2. *)
Definition arrayIndex (k : string) : option Z :=
  if Str.matchAllDigits k && (String.eqb k "0" || negb (Str.startsWith k "0"))
  then let n := Str.digitsValue 0 k in
       if (n <=? 4294967294)%Z then Some n else None
  else None.

(** A new key [k] is enumerated before the key [k']. *)
Definition precedes (k k' : string) : bool :=
  match arrayIndex k, arrayIndex k' with
  | Some i, Some j => (i <? j)%Z
  | Some _, None => true
  | None, _ => false
  end.

Definition hasField (o : Obj) (k : string) : bool :=
  existsb (fun kv => String.eqb (fst kv) k) o.

(** [o[k] = v]: in place when the key exists; otherwise a new key is put
    where the object enumerates it, an array index among the indices and
    any other key at the end. *)
Fixpoint setField (o : Obj) (k : string) (v : JsVal) : Obj :=
  match o with
  | [] => [(k, v)]
  | (k', v') :: r =>
      if String.eqb k' k then (k', v) :: r
      else if precedes k k' && negb (hasField r k) then (k, v) :: o
      else (k', v') :: setField r k v
  end.

(** [v.k] for the property names the service reads (none of them is an
    array index or a prototype method): a TypeError on [null] and
    [undefined], [length] on arrays and strings, the entry on objects. *)
Definition get (v : JsVal) (k : string) : Outcome JsVal :=
  match v with
  | JUndefined | JNull => Throw TypeError
  | JObj o => Ok (field o k)
  | JArr l => Ok (if String.eqb k "length" then JNum (Z.of_nat (length l)) else JUndefined)
  | JStr s => Ok (if String.eqb k "length" then JNum (Z.of_nat (String.length s)) else JUndefined)
  | _ => Ok JUndefined
  end.

(** [v.k] where [v] is known not to be [null] or [undefined]. *)
Definition prop (v : JsVal) (k : string) : JsVal :=
  match get v k with Ok x => x | Throw _ => JUndefined end.

(** [v?.k] *)
Definition optProp (v : JsVal) (k : string) : JsVal := prop v k.

Fixpoint indexed {A} (i : nat) (l : list A) : list (string * A) :=
  match l with
  | [] => []
  | x :: r => (Str.ofNat i, x) :: indexed (S i) r
  end.

Fixpoint chars (s : string) : list JsVal :=
  match s with
  | EmptyString => []
  | String c r => JStr (String c EmptyString) :: chars r
  end.

(** [Object.entries(v)] *)
Definition entries (v : JsVal) : Obj :=
  match v with
  | JObj o => o
  | JArr l => indexed 0 l
  | JStr s => indexed 0 (chars s)
  | _ => []
  end.

(** [parseInt(s, 10)], read exactly: the number of the code up to 2^53,
    which beyond it is the nearest double. *)
Definition parseInt (s : string) : JsVal :=
  let s1 := Str.trimStart s in
  let '(neg, s2) :=
    match s1 with
    | String "-" r => (true, r)
    | String "+" r => (false, r)
    | _ => (false, s1)
    end in
  match s2 with
  | String c _ =>
      if Str.isDigit c
      then JNum (if neg then - Str.digitsValue 0 s2 else Str.digitsValue 0 s2)
      else JNaN
  | EmptyString => JNaN
  end.

(** [typeof v === 'string' ? parseInt(v, 10) : v] *)
Definition parseIfString (v : JsVal) : JsVal :=
  match v with
  | JStr s => parseInt s
  | _ => v
  end.

(** [v > 0] for a string: the decimal integer literals (other numeric
    literal forms are outside the model and compare as NaN). *)
Definition positiveLiteral (s : string) : bool :=
  let t := Str.trim s in
  let u := match t with String "+" r => r | _ => t end in
  Str.matchAllDigits u && (0 <? Str.digitsValue 0 u)%Z.

(** [v > 0] *)
Definition positive (v : JsVal) : bool :=
  match v with
  | JNum n => (0 <? n)%Z
  | JBool b => b
  | JStr s => positiveLiteral s
  | JArr _ => positiveLiteral (toString v)
  | _ => false
  end.

Definition hexDigit (n : N) : ascii :=
  ascii_of_N (if (n <? 10)%N then 48 + n else 87 + n).

Definition dquote : ascii := ascii_of_N 34.

(** A backslash and one character. *)
Definition esc (c : ascii) : string := String "\" (String c EmptyString).

(** QuoteJSONString *)
Fixpoint quoteBody (s : string) : string :=
  match s with
  | EmptyString => EmptyString
  | String c r =>
      let n := Str.code c in
      (if (n =? 34)%N then esc dquote
       else if (n =? 92)%N then esc "\"
       else if (n =? 8)%N then esc "b"
       else if (n =? 9)%N then esc "t"
       else if (n =? 10)%N then esc "n"
       else if (n =? 12)%N then esc "f"
       else if (n =? 13)%N then esc "r"
       else if (n <? 32)%N
            then esc "u" +:+ "00" +:+
                 String (hexDigit (n / 16)) (String (hexDigit (n mod 16)) EmptyString)
       else String c EmptyString) +:+ quoteBody r
  end.

Definition quote (s : string) : string :=
  String dquote (quoteBody s) +:+ String dquote EmptyString.

(** [JSON.stringify(v)]; [None] is [undefined]. *)
Fixpoint stringify (v : JsVal) : option string :=
  match v with
  | JUndefined => None
  | JNull | JNaN => Some "null"
  | JBool b => Some (if b then "true" else "false")
  | JNum n => Some (Str.ofZ n)
  | JStr s => Some (quote s)
  | JArr l =>
      Some ("[" +:+
            Str.join "," (map (fun x => match stringify x with
                                        | Some t => t
                                        | None => "null"
                                        end) l) +:+ "]")
  | JObj o =>
      Some ("{" +:+
            Str.join ","
              ((fix members (o : Obj) : list string :=
                  match o with
                  | [] => []
                  | (k, x) :: r =>
                      match stringify x with
                      | Some t => (quote k +:+ ":" +:+ t) :: members r
                      | None => members r
                      end
                  end) o) +:+ "}")
  end.

End Js.

(** Pure code that may throw. *)
Definition obind {A B} (o : Outcome A) (k : A -> Outcome B) : Outcome B :=
  match o with
  | Ok a => k a
  | Throw e => Throw e
  end.

Notation "'let?' x := o 'in' k" := (obind o (fun x => k))
  (at level 10, x name, o at level 100, k at level 200).

(** ** Requests, the platform and the state of the service *)

(** The [RequestInit] options the service passes to [fetch]. *)
Record RequestInit : Type := mkInit {
  method : option string;
  body : option string;
}.

Definition noOptions : RequestInit := {| method := None; body := None |}.

(** A call of [fetch]: the URL, the options, and the bearer token of the
    [Authorization] header. *)
Record Request : Type := mkRequest {
  url : string;
  init : RequestInit;
  bearer : string;
}.

Inductive Response : Type :=
| Json (v : JsVal)                          (* [response.ok], body parsed by [json()] *)
| HttpError (status : Z) (text : string)    (* [!response.ok] *)
| Rejected (e : Exn).                       (* [fetch], [text()] or [json()] rejects *)

Record AuthRequest : Type := mkAuthRequest {
  ar_clientId : string;
  ar_scopes : list string;
  ar_redirectUri : string;
  ar_usePKCE : bool;
}.

Record Discovery : Type := mkDiscovery {
  authorizationEndpoint : string;
  tokenEndpoint : string;
}.

(** [result.error]: message, code and description, empty when absent. *)
Record AuthError : Type := mkAuthError {
  ae_message : string;
  ae_code : string;
  ae_description : string;
}.

(** The result of [promptAsync], by [result.type]. *)
Inductive PromptResult : Type :=
| PromptSuccess (code : string)      (* [params.code], empty when absent *)
| PromptError (error : option AuthError)
| PromptCancel
| PromptOther (type : string).

Record TokenExchange : Type := mkTokenExchange {
  te_clientId : string;
  te_redirectUri : string;
  te_code : string;
  te_code_verifier : option string;
}.

(** What leaves the device. *)
Inductive Event : Type :=
| Fetch (r : Request)
| Prompt (r : AuthRequest) (d : Discovery)
| Exchange (c : TokenExchange) (d : Discovery).

(** The remote side and the built-ins the service calls.  An answer may
    depend on everything sent before. *)
Record Platform : Type := mkPlatform {
  fetch : list Event -> Request -> Response;
  (** [new URL(s)]: hostname and pathname, [None] for a TypeError *)
  parseURL : string -> option (string * string);
  encodeURIComponent : string -> string;
  (** [AuthSession.makeRedirectUri], with scheme and path or without options *)
  makeRedirectUri : option (string * string) -> string;
  (** the PKCE verifier found on the request object, if any *)
  codeVerifier : AuthRequest -> option string;
  promptAsync : list Event -> AuthRequest -> Discovery -> Outcome PromptResult;
  (** [tokenResult.accessToken], empty when absent *)
  exchangeCodeAsync : list Event -> TokenExchange -> Discovery -> Outcome string;
}.

(** The fields of [SharePointService]. *)
Record Service : Type := mkService {
  siteUrl : string;
  clientId : string;
  tenantId : string;
  accessToken : option string;
  sharePointRoot : string;
  siteId : option string;
  listIdCache : gmap string JsVal;
}.

Record SharePointConfig : Type := mkConfig {
  cfg_siteUrl : string;
  cfg_clientId : string;
  cfg_tenantId : string;
}.

(** [new SharePointService(config)] *)
Definition newService (config : SharePointConfig) : Service :=
  {| siteUrl := cfg_siteUrl config;
     clientId := cfg_clientId config;
     tenantId := cfg_tenantId config;
     accessToken := None;
     sharePointRoot := EmptyString;
     siteId := None;
     listIdCache := ∅ |}.

Definition withAccessToken (t : option string) (s : Service) : Service :=
  {| siteUrl := siteUrl s; clientId := clientId s; tenantId := tenantId s;
     accessToken := t; sharePointRoot := sharePointRoot s;
     siteId := siteId s; listIdCache := listIdCache s |}.

Definition withSharePointRoot (r : string) (s : Service) : Service :=
  {| siteUrl := siteUrl s; clientId := clientId s; tenantId := tenantId s;
     accessToken := accessToken s; sharePointRoot := r;
     siteId := siteId s; listIdCache := listIdCache s |}.

Definition withSiteId (i : option string) (s : Service) : Service :=
  {| siteUrl := siteUrl s; clientId := clientId s; tenantId := tenantId s;
     accessToken := accessToken s; sharePointRoot := sharePointRoot s;
     siteId := i; listIdCache := listIdCache s |}.

Definition withListIdCache (c : gmap string JsVal) (s : Service) : Service :=
  {| siteUrl := siteUrl s; clientId := clientId s; tenantId := tenantId s;
     accessToken := accessToken s; sharePointRoot := sharePointRoot s;
     siteId := siteId s; listIdCache := c |}.

(** The service and the log of what it has sent. *)
Record World : Type := mkWorld {
  svc : Service;
  log : list Event;
}.

(** ** The monad of the [async] methods *)

Definition M (A : Type) : Type := World -> Outcome A * World.

Definition ret {A} (a : A) : M A := fun w => (Ok a, w).

Definition throw {A} (e : Exn) : M A := fun w => (Throw e, w).

Definition bind {A B} (m : M A) (k : A -> M B) : M B :=
  fun w =>
    match m w with
    | (Ok a, w') => k a w'
    | (Throw e, w') => (Throw e, w')
    end.

(** [try { m } catch (e) { h e }] *)
Definition catch {A} (m : M A) (h : Exn -> M A) : M A :=
  fun w =>
    match m w with
    | (Ok a, w') => (Ok a, w')
    | (Throw e, w') => h e w'
    end.

Definition lift {A} (o : Outcome A) : M A := fun w => (o, w).

Definition this : M Service := fun w => (Ok (svc w), w).

Definition update (f : Service -> Service) : M unit :=
  fun w => (Ok tt, {| svc := f (svc w); log := log w |}).

Definition emit (e : Event) : M unit :=
  fun w => (Ok tt, {| svc := svc w; log := log w ++ [e] |}).

Definition history : M (list Event) := fun w => (Ok (log w), w).

Notation "'let!' x := m 'in' k" := (bind m (fun x => k))
  (at level 10, x name, m at level 100, k at level 200).

(** ** The service *)

Definition graphBase : string := "https://graph.microsoft.com/v1.0/".

Definition notAuthenticated : string := "Not authenticated. Call authenticate() first.".

Definition clientIdNotConfigured : string :=
  "Client ID not configured. Please update config/sharepointConfig.ts with your Azure AD Client ID.".

Definition tenantIdNotConfigured : string :=
  "Tenant ID not configured. Please update config/sharepointConfig.ts with your Azure AD Tenant ID.".

Definition scopes : list string :=
  ["https://graph.microsoft.com/Sites.ReadWrite.All";
   "https://graph.microsoft.com/User.Read"].

Definition discoveryFor (tenant : string) : Discovery :=
  {| authorizationEndpoint :=
       "https://login.microsoftonline.com/" +:+ tenant +:+ "/oauth2/v2.0/authorize";
     tokenEndpoint :=
       "https://login.microsoftonline.com/" +:+ tenant +:+ "/oauth2/v2.0/token" |}.

(** [`${errorMessage}${errorDescription ? ' - ' + errorDescription : ''}`] *)
Definition errorDetails (errorMessage errorDescription : string) : string :=
  errorMessage +:+
  (if Str.isEmpty errorDescription then EmptyString else " - " +:+ errorDescription).

(** The message of the redirect-URI mismatch (its arrows are kept as the
    bytes of the source file). *)
Definition redirectMismatch (redirectUri errorMessage errorDescription : string) : string :=
  "Redirect URI mismatch!" +:+ Str.nl +:+ Str.nl +:+
  "The redirect URI used: " +:+ redirectUri +:+ Str.nl +:+ Str.nl +:+
  "Please add this exact URI to Azure AD:" +:+ Str.nl +:+
  "1. Go to Azure Portal → Your App → Authentication" +:+ Str.nl +:+
  "2. Under " +:+ Js.quote "Platform configurations" +:+ ", add " +:+
  Js.quote "Mobile and desktop applications" +:+ Str.nl +:+
  "3. Add this exact redirect URI: " +:+ redirectUri +:+ Str.nl +:+
  "4. Save and try again." +:+ Str.nl +:+ Str.nl +:+
  "Error details: " +:+ errorDetails errorMessage errorDescription.

Definition orElse (a b : string) : string := if Str.isEmpty a then b else a.

Section Service.

Context (P : Platform).

(** The redirect URI of [authenticate]. *)
Definition redirectUriOf : string :=
  let redirectUri := makeRedirectUri P (Some ("employee-assets", "auth")) in
  if Str.startsWith redirectUri "exp://" then
    let defaultUri := makeRedirectUri P None in
    if Str.includes defaultUri "://" then
      match Str.matchExpBase defaultUri with
      | Some base => base +:+ "/"
      | None => defaultUri
      end
    else defaultUri
  else redirectUri.

(** The body of the [try] block of [authenticate]. *)
Definition authenticateBody : M string :=
  let! s := this in
  if Str.isEmpty (clientId s) || String.eqb (clientId s) "YOUR_CLIENT_ID_HERE"
  then throw (Error clientIdNotConfigured)
  else if Str.isEmpty (tenantId s) || String.eqb (tenantId s) "YOUR_TENANT_ID_HERE"
  then throw (Error tenantIdNotConfigured)
  else
    let redirectUri := redirectUriOf in
    let! _ := update (withSharePointRoot (Str.splitHead (siteUrl s) "/sites/")) in
    let discovery := discoveryFor (tenantId s) in
    let request :=
      {| ar_clientId := clientId s; ar_scopes := scopes;
         ar_redirectUri := redirectUri; ar_usePKCE := true |} in
    let! h := history in
    let! _ := emit (Prompt request discovery) in
    let! result := lift (promptAsync P h request discovery) in
    match result with
    | PromptSuccess code =>
        if Str.isEmpty code then throw (Error "Authorization code not received")
        else
          let tokenExchangeConfig :=
            {| te_clientId := clientId s; te_redirectUri := redirectUri;
               te_code := code; te_code_verifier := codeVerifier P request |} in
          let! h' := history in
          let! _ := emit (Exchange tokenExchangeConfig discovery) in
          let! token := lift (exchangeCodeAsync P h' tokenExchangeConfig discovery) in
          if Str.isEmpty token
          then throw (Error "Access token not received from token exchange")
          else
            let! _ := update (fun s' =>
                        withListIdCache ∅ (withSiteId None (withAccessToken (Some token) s'))) in
            ret token
    | PromptError error =>
        let errorMessage :=
          match error with
          | Some e => orElse (ae_message e) (orElse (ae_code e) "Unknown error")
          | None => "Unknown error"
          end in
        let errorDescription :=
          match error with Some e => ae_description e | None => EmptyString end in
        if Str.includes errorMessage "redirect_uri" || Str.includes errorDescription "redirect_uri"
           || Str.includes errorMessage "redirect" || Str.includes errorDescription "redirect"
        then throw (Error (redirectMismatch redirectUri errorMessage errorDescription))
        else throw (Error ("Authentication error: " +:+ errorDetails errorMessage errorDescription))
    | PromptCancel => throw (Error "Authentication cancelled by user")
    | PromptOther type => throw (Error ("Authentication failed: " +:+ type))
    end.

(** [authenticate()] *)
Definition authenticate : M string :=
  catch authenticateBody
    (fun error =>
       match error with
       | Error message =>
           if Str.isEmpty message then throw (Error "Authentication failed: Error")
           else throw error
       | TypeError => throw error
       end).

Definition setAccessToken (token : string) : M unit :=
  update (withAccessToken (Some token)).

Definition getAccessToken : M (option string) :=
  let! s := this in ret (accessToken s).

(** The token when [this.accessToken] is truthy. *)
Definition bearerOf (s : Service) : option string :=
  match accessToken s with
  | Some token => if Str.isEmpty token then None else Some token
  | None => None
  end.

Definition graphRequest (token endpoint : string) (options : RequestInit) : Request :=
  {| url := graphBase +:+ endpoint; init := options; bearer := token |}.

(** What [makeGraphRequest] makes of the answer. *)
Definition payload (response : Response) : Outcome JsVal :=
  match response with
  | Json v => Ok v
  | HttpError status errorText =>
      Throw (Error ("Microsoft Graph API error: " +:+ Str.ofZ status +:+ " - " +:+ errorText))
  | Rejected e => Throw e
  end.

(** [makeGraphRequest(endpoint, options)] *)
Definition makeGraphRequest (endpoint : string) (options : RequestInit) : M JsVal :=
  let! s := this in
  match bearerOf s with
  | None => throw (Error notAuthenticated)
  | Some token =>
      let request := graphRequest token endpoint options in
      let! h := history in
      let! _ := emit (Fetch request) in
      lift (payload (fetch P h request))
  end.

(** The path of the site in [getSiteId]: the host name, then [:/] and the
    non-empty segments of the path name. *)
Definition sitePathOf (hostname pathname : string) : string :=
  let pathParts := List.filter (fun p => negb (Str.isEmpty p)) (Str.split "/" pathname) in
  match pathParts with
  | [] => hostname
  | _ => hostname +:+ ":/" +:+ Str.join "/" pathParts
  end.

Definition cachedSiteId (s : Service) : option string :=
  match siteId s with
  | Some i => if Str.isEmpty i then None else Some i
  | None => None
  end.

(** [getSiteId()] *)
Definition getSiteId : M string :=
  let! s := this in
  match cachedSiteId s with
  | Some i => ret i
  | None =>
      match parseURL P (siteUrl s) with
      | None => throw TypeError
      | Some (hostname, pathname) =>
          let encodedSitePath := encodeURIComponent P (sitePathOf hostname pathname) in
          let! data := makeGraphRequest ("sites/" +:+ encodedSitePath) noOptions in
          let! id := lift (Js.get data "id") in
          if negb (Js.truthy id) then throw (Error "Site ID not found in response")
          else
            let! _ := update (withSiteId (Some (Js.toString id))) in
            ret (Js.toString id)
      end
  end.

(** [x?.toLowerCase()] *)
Definition optToLowerCase (x : JsVal) : Outcome JsVal :=
  match x with
  | JUndefined | JNull => Ok JUndefined
  | JStr s => Ok (JStr (Str.toLowerCase s))
  | _ => Throw TypeError
  end.

(** The predicate of [lists.find] in [getListId]. *)
Definition matchesListName (listName : string) (l : JsVal) : Outcome bool :=
  let? d := Js.get l "displayName" in
  let? dl := optToLowerCase d in
  if Js.strictEq dl (JStr (Str.toLowerCase listName)) then Ok true
  else
    let? n := Js.get l "name" in
    let? nl := optToLowerCase n in
    Ok (Js.strictEq nl (JStr (Str.toLowerCase listName))).

(** [Array.prototype.find] with a predicate that may throw. *)
Fixpoint findM (p : JsVal -> Outcome bool) (l : list JsVal) : Outcome (option JsVal) :=
  match l with
  | [] => Ok None
  | x :: r =>
      let? b := p x in
      if b then Ok (Some x) else findM p r
  end.

Fixpoint mapM {A B} (f : A -> Outcome B) (l : list A) : Outcome (list B) :=
  match l with
  | [] => Ok []
  | x :: r =>
      let? y := f x in
      let? ys := mapM f r in
      Ok (y :: ys)
  end.

(** [xs.join(sep)] on an array of values *)
Definition joinValues (sep : string) (xs : list JsVal) : string :=
  Str.join sep
    (map (fun x => match x with
                   | JUndefined | JNull => EmptyString
                   | _ => Js.toString x
                   end) xs).

(** [data.value || []], used as an array: a TypeError when it is a truthy
    value without array methods. *)
Definition valueArray (data : JsVal) : Outcome (list JsVal) :=
  let? v := Js.get data "value" in
  if Js.truthy v then
    match v with
    | JArr l => Ok l
    | _ => Throw TypeError
    end
  else Ok [].

Definition listNotFound (listName availableLists : string) : string :=
  "List " +:+ String Js.dquote listName +:+ String Js.dquote " not found." +:+ Str.nl +:+
  "Available lists: " +:+ orElse availableLists "none".

(** What [getListId] does with the answer to the listing. *)
Definition resolveList (listName : string) (listsData : JsVal) : Outcome JsVal :=
  let? lists := valueArray listsData in
  let? list := findM (matchesListName listName) lists in
  match list with
  | Some l => Js.get l "id"
  | None =>
      let? names := mapM (fun l => let? d := Js.get l "displayName" in
                                   let? n := Js.get l "name" in
                                   Ok (Js.or d n)) lists in
      Throw (Error (listNotFound listName (joinValues ", " names)))
  end.

(** [getListId(listName)] *)
Definition getListId (listName : string) : M JsVal :=
  let! s := this in
  match listIdCache s !! listName with
  | Some id => ret id
  | None =>
      let! siteId := getSiteId in
      let! listsData := makeGraphRequest ("sites/" +:+ siteId +:+ "/lists") noOptions in
      let! id := lift (resolveList listName listsData) in
      let! _ := update (fun s' => withListIdCache (<[listName := id]> (listIdCache s')) s') in
      ret id
  end.

(** [getLists()] *)
Definition getLists : M JsVal :=
  let! siteId := getSiteId in
  let! response := makeGraphRequest ("sites/" +:+ siteId +:+ "/lists") noOptions in
  let! v := lift (Js.get response "value") in
  ret (Js.or v (JArr [])).

(** [getList(listName)] *)
Definition getList (listName : string) : M JsVal :=
  let! listId := getListId listName in
  let! siteId := getSiteId in
  makeGraphRequest ("sites/" +:+ siteId +:+ "/lists/" +:+ Js.toString listId) noOptions.

(** *** Employee names *)

Definition skipValues : list string :=
  ["Assigned"; "Available"; "Item"; "ContentType"; "Edit"; "Attachments"].

Definition skipFieldNames : list string :=
  ["cardstatus"; "contenttype"; "accesscardno"; "assets"; "empid";
   "employeeid"; "lookupid"; "id"; "odata"; "author"; "editor"].

Definition isSkipValue (value : string) : bool :=
  existsb (String.eqb value) skipValues.

Definition strLen (s : string) : Z := Z.of_nat (String.length s).

(** The loop of [extractEmployeeName] over [Object.entries(fields)]. *)
Fixpoint scanFields (empIdValue : JsVal) (es : Obj) : JsVal :=
  match es with
  | [] => JNull
  | (fieldName, fieldValue) :: rest =>
      match fieldValue with
      | JStr value =>
          let fieldNameLower := Str.toLowerCase fieldName in
          if Str.isEmpty (Str.trim value) then scanFields empIdValue rest
          else if Str.matchHPH value || Js.strictEq (JStr value) empIdValue
          then scanFields empIdValue rest
          else if Str.includes fieldNameLower "empid" || Str.includes fieldNameLower "emp_id"
          then scanFields empIdValue rest
          else if isSkipValue value then scanFields empIdValue rest
          else if existsb (fun skip => Str.includes fieldNameLower skip) skipFieldNames
          then scanFields empIdValue rest
          else if Str.matchAllDigits value || (strLen value <? 3)%Z
          then scanFields empIdValue rest
          else if Str.matchDatePrefix value then scanFields empIdValue rest
          else if (Str.matchLetters value && (5 <? strLen value)%Z)
                  || (Str.includes value " " && (8 <? strLen value)%Z
                      && Str.matchLettersDots value)
          then JStr value
          else scanFields empIdValue rest
      | _ => scanFields empIdValue rest
      end
  end.

(** [extractEmployeeName] once [fields] is known. *)
Definition nameOfFields (fields : JsVal) : JsVal :=
  let empIdValue :=
    Js.or (Js.or (Js.or (Js.prop fields "EmpID") (Js.prop fields "EmpId"))
                 (Js.prop fields "EmpID0")) (Js.prop fields "field_1") in
  let title := Js.prop fields "Title" in
  let titleValue := Js.toString title in
  if Js.truthy title
     && (negb (Str.matchHPH titleValue) && negb (Js.strictEq (JStr titleValue) empIdValue)
         && negb (isSkipValue titleValue) && (0 <? strLen (Str.trim titleValue))%Z)
  then JStr titleValue
  else
    let employee := Js.prop fields "Employee" in
    if Js.truthy employee && Js.isObjectType employee
       && Js.truthy (Js.prop employee "displayName")
    then Js.prop employee "displayName"
    else
      match employee with
      | JStr e =>
          if Js.truthy employee
             && (negb (Str.matchHPH e) && negb (Js.strictEq employee empIdValue))
          then employee
          else scanFields empIdValue (Js.entries fields)
      | _ => scanFields empIdValue (Js.entries fields)
      end.

(** [extractEmployeeName(employeeItem)]; [JNull] when no name is found. *)
Definition extractEmployeeName (employeeItem : JsVal) : Outcome JsVal :=
  let? f := Js.get employeeItem "fields" in
  Ok (nameOfFields (Js.or f (JObj []))).

(** [`[ID: ${id}]`] *)
Definition placeholder (id : string) : JsVal := JStr ("[ID: " +:+ id +:+ "]").

(** [record['Employee'] = name; record['EmployeeName'] = name] *)
Definition setEmployee (record : Obj) (name : JsVal) : Obj :=
  Js.setField (Js.setField record "Employee" name) "EmployeeName" name.

Definition inlineEmployeeName (e : JsVal) : JsVal :=
  Js.or (Js.or (Js.or (Js.prop e "displayName") (Js.prop e "LookupValue"))
               (Js.prop e "Title")) (Js.prop e "email").

(** The callback of the first [forEach] of [resolveEmployeeNames]:
    [employeeName.match] is a TypeError on a truthy value that is not a
    string. *)
Definition expandEmployee (record : Obj) : Outcome Obj :=
  let e := Js.field record "Employee" in
  if Js.isInline e then
    let employeeName := inlineEmployeeName e in
    if Js.truthy employeeName then
      match employeeName with
      | JStr s => if Str.matchHPH s then Ok record else Ok (setEmployee record employeeName)
      | _ => Throw TypeError
      end
    else Ok record
  else Ok record.

(** The identifier a record refers to: [EmployeeLookupId], parsed when it
    is a string, kept when it is a positive number.  As the declared
    [Set<number>] says an identifier is a number.  The code also keeps
    [true] and an array that converts to a positive number, and then asks
    for their items; the model leaves these two out, and a property that
    depends on what is fetched for them assumes [plainLookupId]. *)
Definition employeeIdOf (record : Obj) : option Z :=
  let v := Js.field record "EmployeeLookupId" in
  if Js.notNullish v then
    match Js.parseIfString v with
    | JNum n => if (0 <? n)%Z then Some n else None
    | _ => None
    end
  else None.

(** [set.add(x)] on a [Set] kept in insertion order *)
Definition setAdd {A} `{EqDecision A} (x : A) (s : list A) : list A :=
  if decide (x ∈ s) then s else s ++ [x].

(** [set.delete(x)] *)
Definition setDelete {A} `{EqDecision A} (x : A) (s : list A) : list A :=
  filter (fun y => y ≠ x) s.

Definition collectEmployeeIds (records : list Obj) : list Z :=
  fold_left (fun ids record =>
               match employeeIdOf record with
               | Some empId => setAdd empId ids
               | None => ids
               end) records [].

(** [cachedEmployees.find] by identifier *)
Definition findCachedEmployee (cachedEmployees : list Obj) (empId : Z) : option Obj :=
  List.find (fun emp => Js.strictEq (Js.parseIfString (Js.field emp "Id")) (JNum empId))
            cachedEmployees.

(** The pass over the cached employees: the names found and the
    identifiers left to fetch. *)
Fixpoint namesFromCache (cachedEmployees : list Obj) (snapshot : list Z)
    (names : gmap Z JsVal) (toFetch : list Z) : Outcome (gmap Z JsVal * list Z) :=
  match snapshot with
  | [] => Ok (names, toFetch)
  | empId :: rest =>
      match findCachedEmployee cachedEmployees empId with
      | Some cachedEmployee =>
          let? employeeName := extractEmployeeName (JObj [("fields", JObj cachedEmployee)]) in
          if Js.truthy employeeName
          then namesFromCache cachedEmployees rest
                 (<[empId := employeeName]> names) (setDelete empId toFetch)
          else namesFromCache cachedEmployees rest names toFetch
      | None => namesFromCache cachedEmployees rest names toFetch
      end
  end.

(** The callback of the last [forEach] of [resolveEmployeeNames]. *)
Definition populateEmployee (names : gmap Z JsVal) (record : Obj) : Obj :=
  match employeeIdOf record with
  | Some employeeId =>
      let employeeName := default JUndefined (names !! employeeId) in
      if Js.truthy employeeName then setEmployee record employeeName
      else Js.setField record "Employee" (placeholder (Str.ofZ employeeId))
  | None => record
  end.

Definition itemEndpoint (siteId : string) (listId : JsVal) (empId : Z) : string :=
  "sites/" +:+ siteId +:+ "/lists/" +:+ Js.toString listId +:+ "/items/" +:+
  Str.ofZ empId +:+ "?$expand=fields".

(** How a block of the fetch loop ends: with [continue], after an optional
    [employeeNameCache.set], or with the item to extract the name from. *)
Inductive Step : Type :=
| Continue (name : option JsVal)
| Proceed (employeeItem : JsVal).

(** The second inner [try] of the fetch loop: the Access Cards list. *)
Definition fromAccessCards (siteId : string) (empId : Z) : M Step :=
  catch
    (let! accessCardsListId := getListId "Access Cards" in
     let! employeeItem := makeGraphRequest (itemEndpoint siteId accessCardsListId empId) noOptions in
     let! fields := lift (Js.get employeeItem "fields") in
     if Js.truthy (Js.optProp fields "AccessCardNo") && Js.truthy (Js.optProp fields "Employee")
     then
       let empField := Js.prop fields "Employee" in
       if Js.isObjectType empField && Js.truthy (Js.prop empField "displayName")
       then ret (Continue (Some (Js.prop empField "displayName")))
       else match empField with
            | JStr e => if negb (Str.matchHPH e) then ret (Continue (Some empField))
                        else ret (Proceed employeeItem)
            | _ => ret (Proceed employeeItem)
            end
     else ret (Proceed employeeItem))
    (fun _ => ret (Continue None)).

(** The first inner [try] of the fetch loop: the Employees list, when it
    was found. *)
Definition fromEmployeesList (siteId : string) (employeesListId : JsVal) (empId : Z)
    : M JsVal :=
  if Js.truthy employeesListId
  then catch (makeGraphRequest (itemEndpoint siteId employeesListId empId) noOptions)
             (fun _ => ret JNull)
  else ret JNull.

(** One turn of the fetch loop: the name to store for [empId], if any. *)
Definition fetchEmployeeName (siteId : string) (employeesListId : JsVal) (empId : Z)
    : M (option JsVal) :=
  catch
    (let! employeeItem := fromEmployeesList siteId employeesListId empId in
     let! step :=
       if negb (Js.truthy employeeItem) then fromAccessCards siteId empId
       else ret (Proceed employeeItem) in
     match step with
     | Continue name => ret name
     | Proceed item =>
         let! employeeName := lift (extractEmployeeName item) in
         ret (if Js.truthy employeeName then Some employeeName else None)
     end)
    (fun _ => ret None).

Fixpoint fetchEmployeeNames (siteId : string) (employeesListId : JsVal)
    (ids : list Z) (names : gmap Z JsVal) : M (gmap Z JsVal) :=
  match ids with
  | [] => ret names
  | empId :: rest =>
      let! name := fetchEmployeeName siteId employeesListId empId in
      fetchEmployeeNames siteId employeesListId rest
        (match name with Some n => <[empId := n]> names | None => names end)
  end.

Definition isNil {A} (l : list A) : bool :=
  match l with [] => true | _ => false end.

(** [resolveEmployeeNames(records, siteId, cachedEmployees)]; the records
    it leaves behind are returned. *)
Definition resolveEmployeeNames (records : list Obj) (siteId : string)
    (cachedEmployees : option (list Obj)) : M (list Obj) :=
  match records with
  | [] => throw TypeError
  | firstRecord :: _ =>
      if Js.isInline (Js.field firstRecord "Employee")
      then lift (mapM expandEmployee records)
      else
        let employeeIdsToFetch := collectEmployeeIds records in
        if isNil employeeIdsToFetch then ret records
        else
          let! fromCache :=
            lift (match cachedEmployees with
                  | Some ((_ :: _) as cached) =>
                      namesFromCache cached employeeIdsToFetch ∅ employeeIdsToFetch
                  | _ => Ok (∅, employeeIdsToFetch)
                  end) in
          let employeeNameCache := fst fromCache in
          let remaining := snd fromCache in
          if isNil remaining
          then ret (map (populateEmployee employeeNameCache) records)
          else
            let! employeesListId := catch (getListId "Employees") (fun _ => ret JNull) in
            let! employeeNameCache' :=
              fetchEmployeeNames siteId employeesListId remaining employeeNameCache in
            ret (map (populateEmployee employeeNameCache') records)
  end.

(** *** Assignee names *)

(** [record['Assignee'] = name; record['AssigneeName'] = name] *)
Definition setAssignee (record : Obj) (name : JsVal) : Obj :=
  Js.setField (Js.setField record "Assignee" name) "AssigneeName" name.

(** [String(record.field_2LookupId)] when the field is not null *)
Definition assigneeIdOf (record : Obj) : option string :=
  let v := Js.field record "field_2LookupId" in
  if Js.notNullish v then Some (Js.toString v) else None.

Definition collectUserIds (records : list Obj) : list string :=
  fold_left (fun ids record =>
               match assigneeIdOf record with
               | Some userId => setAdd userId ids
               | None => ids
               end) records [].

(** The name read from an expanded [field_2] in the fetch loop. *)
Definition inlineUserName (u : JsVal) : JsVal :=
  Js.or (Js.or (Js.prop u "displayName") (Js.prop u "Title")) (Js.prop u "userPrincipalName").

(** The name read from an expanded [field_2] when the records are populated. *)
Definition inlineAssigneeName (u : JsVal) : JsVal :=
  Js.or (inlineUserName u) (Js.prop u "email").

(** First tier of the fetch loop: the first record whose [field_2LookupId]
    is the string [userId] and the name its [field_2] carries. *)
Definition userNameInline (records : list Obj) (userId : string) : option JsVal :=
  match List.find (fun r => Js.strictEq (Js.field r "field_2LookupId") (JStr userId)) records with
  | Some recordWithField2 =>
      let f := Js.field recordWithField2 "field_2" in
      if Js.isInline f && Js.truthy (inlineUserName f) then Some (inlineUserName f) else None
  | None => None
  end.

Definition cachedAssigneeName (emp : Obj) : JsVal :=
  Js.or (Js.or (Js.or (Js.field emp "Employee") (Js.field emp "EmployeeName"))
               (Js.field emp "Title")) (Js.field emp "displayName").

(** Second tier: the cached employees, by the number [userId] parses to. *)
Definition userNameCached (cachedEmployees : option (list Obj)) (userId : string)
    : option JsVal :=
  match cachedEmployees with
  | Some ((_ :: _) as cached) =>
      match Js.parseInt userId with
      | JNum employeeId =>
          if (0 <? employeeId)%Z then
            match findCachedEmployee cached employeeId with
            | Some cachedEmployee =>
                if Js.truthy (cachedAssigneeName cachedEmployee)
                then Some (cachedAssigneeName cachedEmployee) else None
            | None => None
            end
          else None
      | _ => None
      end
  | _ => None
  end.

(** Third tier: the user of the Graph API, for a GUID. *)
Definition userNameRemote (userId : string) : M (option JsVal) :=
  if Str.matchGuid userId then
    catch
      (let! userInfo := makeGraphRequest ("users/" +:+ userId) noOptions in
       let! displayName := lift (Js.get userInfo "displayName") in
       let userName :=
         Js.or (Js.or displayName (Js.prop userInfo "userPrincipalName"))
               (Js.prop userInfo "mail") in
       ret (if Js.truthy userName then Some userName else None))
      (fun _ => ret None)
  else ret None.

(** One turn of the fetch loop of [resolveAssigneeNames]. *)
Definition fetchUserName (records : list Obj) (cachedEmployees : option (list Obj))
    (userId : string) : M (option JsVal) :=
  catch
    (match userNameInline records userId with
     | Some userName => ret (Some userName)
     | None =>
         match userNameCached cachedEmployees userId with
         | Some employeeName => ret (Some employeeName)
         | None => userNameRemote userId
         end
     end)
    (fun _ => ret None).

Fixpoint fetchUserNames (records : list Obj) (cachedEmployees : option (list Obj))
    (ids : list string) (names : gmap string JsVal) : M (gmap string JsVal) :=
  match ids with
  | [] => ret names
  | userId :: rest =>
      let! name := fetchUserName records cachedEmployees userId in
      fetchUserNames records cachedEmployees rest
        (match name with Some n => <[userId := n]> names | None => names end)
  end.

(** The callback of the last [forEach] of [resolveAssigneeNames]. *)
Definition populateAssignee (names : gmap string JsVal) (record : Obj) : Obj :=
  match assigneeIdOf record with
  | Some userId =>
      let f := Js.field record "field_2" in
      if Js.isInline f && Js.truthy (inlineAssigneeName f)
      then setAssignee record (inlineAssigneeName f)
      else
        let userName := default JUndefined (names !! userId) in
        if Js.truthy userName then setAssignee record userName
        else Js.setField record "Assignee" (placeholder userId)
  | None => record
  end.

(** [resolveAssigneeNames(records, cachedEmployees)] *)
Definition resolveAssigneeNames (records : list Obj) (cachedEmployees : option (list Obj))
    : M (list Obj) :=
  let userIdsToFetch := collectUserIds records in
  if isNil userIdsToFetch then ret records
  else
    let! userNameCache := fetchUserNames records cachedEmployees userIdsToFetch ∅ in
    ret (map (populateAssignee userNameCache) records).

(** *** Records *)

(** [{ Id: item.id, ...fields }] *)
Definition flatten (item : JsVal) : Outcome Obj :=
  let? f := Js.get item "fields" in
  let? id := Js.get item "id" in
  Ok (fold_left (fun record kv => Js.setField record (fst kv) (snd kv))
                (Js.entries (Js.or f (JObj []))) [("Id", id)]).

(** [insertRecord(listName, fields)] *)
Definition insertRecord (listName : string) (fields : Obj) : M JsVal :=
  let! listId := getListId listName in
  let! siteId := getSiteId in
  let itemData := JObj [("fields", JObj fields)] in
  let! response :=
    makeGraphRequest ("sites/" +:+ siteId +:+ "/lists/" +:+ Js.toString listId +:+ "/items")
      {| method := Some "POST"; body := Js.stringify itemData |} in
  let! f := lift (Js.get response "fields") in
  ret (JObj [("d", JObj (Js.setField (Js.entries response) "fields" (Js.or f (JObj []))))]).

(** [getRecords(listName, cachedEmployees)] *)
Definition getRecords (listName : string) (cachedEmployees : option (list Obj))
    : M (list Obj) :=
  let! listId := getListId listName in
  let! siteId := getSiteId in
  let! response :=
    makeGraphRequest ("sites/" +:+ siteId +:+ "/lists/" +:+ Js.toString listId +:+
                      "/items?$expand=fields") noOptions in
  let! items := lift (valueArray response) in
  let! records := lift (mapM flatten items) in
  let! records1 :=
    if String.eqb listName "Access Cards" && negb (isNil records)
    then resolveEmployeeNames records siteId cachedEmployees
    else ret records in
  if String.eqb listName "Assets" && negb (isNil records1)
  then resolveAssigneeNames records1 cachedEmployees
  else ret records1.

(** [updateRecord(listName, itemId, fields)] *)
Definition updateRecord (listName : string) (itemId : JsVal) (fields : Obj) : M JsVal :=
  let! listId := getListId listName in
  let! siteId := getSiteId in
  makeGraphRequest
    ("sites/" +:+ siteId +:+ "/lists/" +:+ Js.toString listId +:+ "/items/" +:+
     Js.toString itemId +:+ "/fields")
    {| method := Some "PATCH"; body := Js.stringify (JObj fields) |}.


(** *** Users *)

Definition maxPages : nat := 50.

Definition usersEndpoint : string :=
  "users?$select=id,displayName,userPrincipalName,mail,jobTitle,officeLocation,department&$top=999".

(** The callback of [response.value.map] in [getAllUsers]. *)
Definition toUser (user : JsVal) : Outcome JsVal :=
  let? id := Js.get user "id" in
  Ok (JObj [("id", id);
            ("displayName", Js.or (Js.prop user "displayName") (JStr EmptyString));
            ("userPrincipalName", Js.or (Js.prop user "userPrincipalName") (JStr EmptyString));
            ("mail", Js.or (Js.or (Js.prop user "mail") (Js.prop user "userPrincipalName"))
                           (JStr EmptyString));
            ("jobTitle", Js.prop user "jobTitle");
            ("officeLocation", Js.prop user "officeLocation");
            ("department", Js.prop user "department")]).

(** The endpoint of a turn of the loop: [nextLink.replace] is a TypeError
    on a truthy value that is not a string. *)
Definition pageEndpoint (nextLink : JsVal) : Outcome string :=
  if Js.truthy nextLink then
    match nextLink with
    | JStr link => Ok (Str.replace link graphBase EmptyString)
    | _ => Throw TypeError
    end
  else Ok usersEndpoint.

(** The users a response adds: [response.value.map] is a TypeError on a
    value with a positive [length] that is not an array. *)
Definition pageUsers (response : JsVal) : Outcome (list JsVal) :=
  let? value := Js.get response "value" in
  if Js.truthy value && Js.positive (Js.prop value "length") then
    match value with
    | JArr users => mapM toUser users
    | _ => Throw TypeError
    end
  else Ok [].

(** The [do ... while] loop of [getAllUsers].  [fuel] bounds the turns
    left; [usersLoop_fuel] shows that [maxPages - pageCount] is enough. *)
Fixpoint usersLoop (fuel : nat) (nextLink : JsVal) (pageCount : nat)
    (allUsers : list JsVal) : M (list JsVal) :=
  match fuel with
  | O => ret allUsers
  | S fuel' =>
      let! endpoint := lift (pageEndpoint nextLink) in
      let! response := makeGraphRequest endpoint noOptions in
      let! users := lift (pageUsers response) in
      let allUsers' := (allUsers ++ users)%list in
      let nextLink' := Js.or (Js.prop response "@odata.nextLink") JNull in
      let pageCount' := S pageCount in
      if (maxPages <=? pageCount')%nat then ret allUsers'
      else if Js.truthy nextLink' then usersLoop fuel' nextLink' pageCount' allUsers'
      else ret allUsers'
  end.

(** [getAllUsers()] *)
Definition getAllUsers : M (list JsVal) :=
  catch (usersLoop maxPages JNull 0 []) (fun _ => ret []).

(** *** The signed-in user and the administrators *)

(** [getCurrentUser()] *)
Definition getCurrentUser : M JsVal :=
  let! response := makeGraphRequest "me" noOptions in
  let! id := lift (Js.get response "id") in
  ret (JObj [("id", id);
             ("displayName", Js.prop response "displayName");
             ("userPrincipalName", Js.prop response "userPrincipalName");
             ("mail", Js.or (Js.prop response "mail") (Js.prop response "userPrincipalName"));
             ("jobTitle", Js.prop response "jobTitle");
             ("officeLocation", Js.prop response "officeLocation")]).

Definition globalAdministrator : string := "62e90394-69f5-4237-9190-012177145e10".

Definition adminRoleTemplateIds : list string :=
  [globalAdministrator;
   "f28a1f50-f6e7-4571-818b-6a12f2af6b6c";
   "b0f54661-2d74-4c50-afa3-1ec803f12efe";
   "29232cdf-9323-42fd-ade2-1d097af3e4de"].

(** [for (const x of v)]: the elements of an array, the characters of a
    string, a TypeError on a value that is not iterable. *)
Definition iterate (v : JsVal) : Outcome (list JsVal) :=
  match v with
  | JArr l => Ok l
  | JStr s => Ok (Js.chars s)
  | _ => Throw TypeError
  end.

(** [ids.includes(x)] on an array of strings *)
Definition includesId (ids : list string) (x : JsVal) : bool :=
  match x with
  | JStr s => existsb (String.eqb s) ids
  | _ => false
  end.

(** A loop whose body may throw. *)
Fixpoint foldM {A B} (f : A -> B -> Outcome A) (l : list B) (a : A) : Outcome A :=
  match l with
  | [] => Ok a
  | x :: r =>
      let? a' := f a x in
      foldM f r a'
  end.

(** What [isCurrentUserAdmin] returns. *)
Record AdminStatus : Type := mkAdminStatus {
  isAdmin : bool;
  roles : list JsVal;
}.

Definition notAdmin : AdminStatus := {| isAdmin := false; roles := [] |}.

(** The body of the loop of [isCurrentUserAdmin] over the groups. *)
Definition adminRoleStep (status : AdminStatus) (group : JsVal) : Outcome AdminStatus :=
  let? type := Js.get group "@odata.type" in
  if Js.strictEq type (JStr "#microsoft.graph.directoryRole") then
    let roleTemplateId := Js.prop group "roleTemplateId" in
    if includesId adminRoleTemplateIds roleTemplateId then
      Ok {| isAdmin := true;
            roles := roles status ++
                     [Js.or (Js.prop group "displayName") (JStr "Unknown Role")] |}
    else Ok status
  else Ok status.

(** [isCurrentUserAdmin()] *)
Definition isCurrentUserAdmin : M AdminStatus :=
  catch
    (let! response := makeGraphRequest "me/memberOf" noOptions in
     let! value := lift (Js.get response "value") in
     let! groups := lift (iterate (Js.or value (JArr []))) in
     lift (foldM adminRoleStep groups notAdmin))
    (fun _ => ret notAdmin).

(** [rolesResponse.value?.find(...)]: [undefined] when [value] is null or
    undefined or holds no such role, a TypeError when [value] is anything
    else that is not an array. *)
Definition findGlobalAdminRole (rolesResponse : JsVal) : Outcome JsVal :=
  let? value := Js.get rolesResponse "value" in
  match value with
  | JUndefined | JNull => Ok JUndefined
  | JArr l =>
      let? found :=
        findM (fun role =>
                 let? roleTemplateId := Js.get role "roleTemplateId" in
                 Ok (Js.strictEq roleTemplateId (JStr globalAdministrator))) l in
      Ok (default JUndefined found)
  | _ => Throw TypeError
  end.

Definition toAdmin (member : JsVal) : JsVal :=
  JObj [("id", Js.prop member "id");
        ("displayName", Js.prop member "displayName");
        ("userPrincipalName", Js.prop member "userPrincipalName");
        ("mail", Js.or (Js.prop member "mail") (Js.prop member "userPrincipalName"));
        ("roles", JArr [JStr "Global Administrator"])].

(** The body of the loop of [getAdminUsers] over the members. *)
Definition adminStep (admins : list JsVal) (member : JsVal) : Outcome (list JsVal) :=
  let? type := Js.get member "@odata.type" in
  if Js.strictEq type (JStr "#microsoft.graph.user")
  then Ok (admins ++ [toAdmin member])
  else Ok admins.

Definition membersEndpoint (globalAdminRole : JsVal) : string :=
  "directoryRoles/" +:+ Js.toString (Js.prop globalAdminRole "id") +:+ "/members".

(** [getAdminUsers()] *)
Definition getAdminUsers : M (list JsVal) :=
  catch
    (let! rolesResponse := makeGraphRequest "directoryRoles" noOptions in
     let! globalAdminRole := lift (findGlobalAdminRole rolesResponse) in
     if negb (Js.truthy globalAdminRole) then ret []
     else
       let! membersResponse := makeGraphRequest (membersEndpoint globalAdminRole) noOptions in
       let! value := lift (Js.get membersResponse "value") in
       let! members := lift (iterate (Js.or value (JArr []))) in
       lift (foldM adminStep members []))
    (fun _ => ret []).

(** [getCurrentUserWithAdminStatus()]: [Promise.all] over two calls made
    one after the other, so the second request leaves whatever becomes of
    the first; the combined promise rejects when one of them does. *)
Definition getCurrentUserWithAdminStatus : M JsVal :=
  fun w =>
    let '(user, w1) := getCurrentUser w in
    let '(adminStatus, w2) := isCurrentUserAdmin w1 in
    (match user, adminStatus with
     | Ok u, Ok status =>
         Ok (JObj [("user", u); ("isAdmin", JBool (isAdmin status));
                   ("roles", JArr (roles status))])
     | Throw e, _ => Throw e
     | Ok _, Throw e => Throw e
     end, w2).

End Service.

(** ** The configuration script *)

Module Validation.

Definition isLineTerminator (c : ascii) : bool :=
  (Str.code c =? 10)%N || (Str.code c =? 13)%N.

(** [/^https?:\/\/.+/]: the scheme and one character of the line. *)
Definition matchUrl (s : string) : bool :=
  let rest :=
    if Str.startsWith s "https://" then Some (Str.drop 8 s)
    else if Str.startsWith s "http://" then Some (Str.drop 7 s)
    else None in
  match rest with
  | Some (String c _) => negb (isLineTerminator c)
  | _ => false
  end.

(** The branch a value of the configuration takes. *)
Inductive Finding : Type :=
| Missing
| StillPlaceholder
| Malformed
| Accepted.

Definition isError (f : Finding) : bool :=
  match f with Accepted => false | _ => true end.

Definition checkSiteUrl (siteUrl : string) : Finding :=
  if Str.isEmpty siteUrl then Missing
  else if negb (matchUrl siteUrl) then Malformed
  else Accepted.

Definition checkId (placeholderValue id : string) : Finding :=
  if Str.isEmpty id then Missing
  else if String.eqb id placeholderValue then StillPlaceholder
  else if negb (Str.matchGuid id) then Malformed
  else Accepted.

Record Report : Type := mkReport {
  siteUrlFinding : Finding;
  clientIdFinding : Finding;
  tenantIdFinding : Finding;
  listNameWarning : bool;
  exitCode : Z;
}.

(** [validateConfig()], without the text it prints: the branch taken for
    each value, whether the missing list name is warned about, and the
    code the process exits with.  [defaultListName] is the fourth member
    of the configuration, which the service does not read. *)
Definition validateConfig (config : SharePointConfig) (defaultListName : string) : Report :=
  let hasErrors := false in
  let site := checkSiteUrl (cfg_siteUrl config) in
  let hasErrors := hasErrors || isError site in
  let client := checkId "YOUR_CLIENT_ID_HERE" (cfg_clientId config) in
  let hasErrors := hasErrors || isError client in
  let tenant := checkId "YOUR_TENANT_ID_HERE" (cfg_tenantId config) in
  let hasErrors := hasErrors || isError tenant in
  {| siteUrlFinding := site;
     clientIdFinding := client;
     tenantIdFinding := tenant;
     listNameWarning := Str.isEmpty defaultListName;
     exitCode := if hasErrors then 1 else 0 |}.

End Validation.

(** ** The screens *)

(** What a handler tells the user with [Alert.alert]; the changes of the
    local state of a component and the callbacks of its parent are not
    modelled. *)
Inductive Notice : Type :=
| ValidationError (message : string)
| Info (message : string)
| Success (message : string)
| Failed (error : Exn) (fallback : string).   (* [error.message || fallback] *)

Module LoginScreen.
Section Screen.

Context (P : Platform).

(** The effect that computes the redirect URI the screen shows. *)
Definition shownRedirectUri : string :=
  let uri := makeRedirectUri P (Some ("employee-assets", "auth")) in
  if Str.startsWith uri "exp://" then
    let defaultUri := makeRedirectUri P None in
    if Str.includes defaultUri "://" then
      match Str.matchExpBase defaultUri with
      | Some base => base +:+ "/"
      | None => defaultUri
      end
    else defaultUri
  else uri.

End Screen.
End LoginScreen.

Module HomeScreen.
Section Screen.

Context (P : Platform).

(** The callback of [allUsers.map] in [fetchEmployees]:
    [userPrincipalName.split] is a TypeError on a value that is not a
    string. *)
Definition toEmployee (user : JsVal) : Outcome Obj :=
  let? id := Js.get user "id" in
  let userPrincipalName := Js.prop user "userPrincipalName" in
  let? prefix :=
    match userPrincipalName with
    | JStr upn => Ok (JStr (hd EmptyString (Str.split "@" upn)))
    | _ => Throw TypeError
    end in
  let name := Js.or (Js.prop user "displayName") userPrincipalName in
  let mail := Js.or (Js.prop user "mail") userPrincipalName in
  Ok [("Id", id);
      ("EmpID", Js.or prefix id);
      ("Employee", name);
      ("EmployeeName", name);
      ("Title", name);
      ("Email", mail);
      ("Mail", mail);
      ("JobTitle", Js.prop user "jobTitle");
      ("Department", Js.prop user "department");
      ("OfficeLocation", Js.prop user "officeLocation");
      ("UserPrincipalName", userPrincipalName)].

(** [fetchEmployees()]: the list handed to [setEmployees], [None] when
    the error was only logged. *)
Definition fetchEmployees : M (option (list Obj)) :=
  catch
    (let! allUsers := getAllUsers P in
     let! employeesList := lift (mapM toEmployee allUsers) in
     ret (Some employeesList))
    (fun _ => ret None).

End Screen.
End HomeScreen.

Module ListScreen.

(** The fields [matchesSearch] skips. *)
Definition isMetadata (key : string) : bool :=
  String.eqb key "Id" || Str.startsWith key "_" || String.eqb key "__metadata".

(** The text a value is searched in; [None] for [null] and [undefined],
    which are skipped. *)
Definition searchableValue (value : JsVal) : option JsVal :=
  match value with
  | JUndefined | JNull => None
  | JObj _ =>
      Some (Js.or (Js.or (Js.or (Js.or (Js.prop value "Title") (Js.prop value "displayName"))
                                (Js.prop value "name"))
                         (Js.prop value "LookupValue"))
                  (match Js.stringify value with
                   | Some text => JStr text
                   | None => JUndefined
                   end))
  | JArr l => Some (JStr (joinValues " " l))
  | _ => Some (JStr (Js.toString value))
  end.

(** The loop of [matchesSearch] over [Object.entries(record)]:
    [toLowerCase] is a TypeError on a value that is not a string. *)
Fixpoint searchEntries (searchTerm : string) (es : Obj) : Outcome bool :=
  match es with
  | [] => Ok false
  | (key, value) :: rest =>
      if isMetadata key then searchEntries searchTerm rest
      else
        match searchableValue value with
        | None => searchEntries searchTerm rest
        | Some (JStr text) =>
            if Str.includes (Str.toLowerCase text) searchTerm then Ok true
            else searchEntries searchTerm rest
        | Some _ => Throw TypeError
        end
  end.

(** [matchesSearch(record, query)] *)
Definition matchesSearch (record : Obj) (query : string) : Outcome bool :=
  if Str.isEmpty (Str.trim query) then Ok true
  else
    let searchTerm := Str.trim (Str.toLowerCase query) in
    searchEntries searchTerm record.

End ListScreen.

Module RecordForm.

Record FormField : Type := mkField {
  name : string;
  label : string;
  required : bool;
}.

(** The state [fields], which the component never changes. *)
Definition fields : list FormField :=
  [{| name := "Title"; label := "Title"; required := true |}].

(** [formData[k]] on the texts typed so far *)
Definition typed (formData : list (string * string)) (k : string) : option string :=
  option_map snd (List.find (fun kv => String.eqb (fst kv) k) formData).

(** [!formData[field.name]?.trim()] *)
Definition isBlank (formData : list (string * string)) (field : FormField) : bool :=
  match typed formData (name field) with
  | Some text => Str.isEmpty (Str.trim text)
  | None => true
  end.

(** The callback of [customFields.forEach]: an assignment to [__proto__]
    adds no field. *)
Definition addCustomField (recordData : Obj) (customField : string * string) : Obj :=
  let '(customName, customValue) := customField in
  if negb (Str.isEmpty customName) && negb (Str.isEmpty customValue)
  then if String.eqb customName "__proto__" then recordData
       else Js.setField recordData customName (JStr customValue)
  else recordData.

Definition recordDataOf (formData customFields : list (string * string)) : Obj :=
  fold_left addCustomField customFields (map (fun kv => (fst kv, JStr (snd kv))) formData).

Section Form.

Context (P : Platform).

(** [handleSubmit()] *)
Definition handleSubmit (listName : string) (formData customFields : list (string * string))
    : M Notice :=
  match List.find (isBlank formData) (List.filter required fields) with
  | Some field => ret (ValidationError (label field +:+ " is required"))
  | None =>
      catch
        (let! _ := insertRecord P listName (recordDataOf formData customFields) in
         ret (Success "Record inserted successfully!"))
        (fun error => ret (Failed error "Failed to insert record"))
  end.

End Form.
End RecordForm.

Module RecordView.

(** [record.hasOwnProperty(k)] *)
Definition hasOwn (record : Obj) (k : string) : bool :=
  existsb (fun kv => String.eqb (fst kv) k) record.

(** [isOrganizationUser], as a truth value.  It is computed when the
    component renders; [record.hasOwnProperty] is a TypeError on a record
    with a field of that name, whose value is not a function. *)
Definition isOrganizationUser (listName : string) (record : Obj) : Outcome bool :=
  if String.eqb listName "Employees" then
    if Js.truthy (Js.field record "UserPrincipalName") then Ok true
    else if Js.truthy (Js.field record "Mail") then
      if hasOwn record "hasOwnProperty" then Throw TypeError
      else Ok (negb (hasOwn record "AccessCardNo") && negb (hasOwn record "AssetId"))
    else Ok false
  else Ok false.

(** The copy of the edited fields: an assignment to [__proto__] adds no
    field. *)
Definition copyFields (editedFields : Obj) : Obj :=
  fold_left (fun fieldsToUpdate kv =>
               if String.eqb (fst kv) "__proto__" then fieldsToUpdate
               else Js.setField fieldsToUpdate (fst kv) (snd kv))
            editedFields [].

Section View.

Context (P : Platform).

(** [handleSave()] *)
Definition handleSave (listName : string) (record editedFields : Obj) : M Notice :=
  let! organizationUser := lift (isOrganizationUser listName record) in
  if organizationUser
  then ret (Info ("Organization users cannot be edited from this app. " +:+
                  "User information is managed in Azure AD."))
  else
    catch
      (let fieldsToUpdate := copyFields editedFields in
       if isNil fieldsToUpdate then ret (Info "No changes to save")
       else
         let! _ := updateRecord P listName (Js.field record "Id") fieldsToUpdate in
         ret (Success "Record updated successfully!"))
      (fun error => ret (Failed error "Failed to update record")).

End View.
End RecordView.

(** * Vocabulary of the properties *)

Definition placeholderClientId : string := "YOUR_CLIENT_ID_HERE".
Definition placeholderTenantId : string := "YOUR_TENANT_ID_HERE".

(** A client or tenant identifier that is empty or still the placeholder. *)
Definition unconfigured (s : Service) : Prop :=
  clientId s = EmptyString ∨ clientId s = placeholderClientId ∨
  tenantId s = EmptyString ∨ tenantId s = placeholderTenantId.

(** The world after [r] was sent. *)
Definition sent (w : World) (r : Request) : World :=
  {| svc := svc w; log := log w ++ [Fetch r] |}.

(** The request that lists the lists of a site. *)
Definition listsRequest (token siteId : string) : Request :=
  graphRequest token ("sites/" +:+ siteId +:+ "/lists") noOptions.

(** The request by which [getSiteId] resolves the site. *)
Definition siteRequest (P : Platform) (s : Service) (token : string) : option Request :=
  match parseURL P (siteUrl s) with
  | Some (hostname, pathname) =>
      Some (graphRequest token
              ("sites/" +:+ encodeURIComponent P (sitePathOf hostname pathname)) noOptions)
  | None => None
  end.

(** What a successful [getSiteId] sends: nothing when the site identifier
    is memoized, the site request otherwise. *)
Definition siteLookup (P : Platform) (s : Service) : list Event :=
  match cachedSiteId s, bearerOf s with
  | None, Some token =>
      match siteRequest P s token with
      | Some r => [Fetch r]
      | None => []
      end
  | _, _ => []
  end.

(** The world a successful [getListId] leaves after a miss. *)
Definition listed (w1 : World) (token siteId listName : string) (id : JsVal) : World :=
  {| svc := withListIdCache (<[listName := id]> (listIdCache (svc w1))) (svc w1);
     log := log w1 ++ [Fetch (listsRequest token siteId)] |}.

(** Two names that differ in case only. *)
Definition sameIgnoringCase (a b : string) : Prop :=
  Str.toLowerCase a = Str.toLowerCase b.

(** ** A sample tenant *)

Module Sample.

(** [encodeURIComponent] on the code units 0..255: the unreserved
    characters stay, the others become the escapes of their UTF-8 bytes. *)
Definition unreserved (c : ascii) : bool :=
  Str.isAlpha c || Str.isDigit c ||
  existsb (Ascii.eqb c) ["-"; "_"; "."; "!"; "~"; "*"; "'"; "("; ")"]%char.

Definition upperHex (n : N) : ascii :=
  ascii_of_N (if (n <? 10)%N then 48 + n else 55 + n).

Definition escapeByte (n : N) : string :=
  String "%" (String (upperHex (n / 16)) (String (upperHex (n mod 16)) EmptyString)).

Fixpoint percentEncode (s : string) : string :=
  match s with
  | EmptyString => EmptyString
  | String c r =>
      let n := Str.code c in
      (if unreserved c then String c EmptyString
       else if (n <? 128)%N then escapeByte n
       else escapeByte (192 + n / 64) +:+ escapeByte (128 + n mod 64))
      +:+ percentEncode r
  end.

Definition config : SharePointConfig :=
  {| cfg_siteUrl := "https://contoso.sharepoint.com/sites/assets";
     cfg_clientId := "6ef7838b-3f91-427b-ae49-d17213d254fd";
     cfg_tenantId := "ca45db7d-14c1-4213-a3b0-ef6c5d1ac0bc" |}.

(** The configuration as the repository ships it before it is filled in. *)
Definition template : SharePointConfig :=
  {| cfg_siteUrl := "https://contoso.sharepoint.com/sites/assets";
     cfg_clientId := "YOUR_CLIENT_ID_HERE";
     cfg_tenantId := "YOUR_TENANT_ID_HERE" |}.

Definition site : JsVal := JObj [("id", JStr "site-1")].

Definition lists : JsVal :=
  JObj [("value",
         JArr [JObj [("id", JStr "list-employees"); ("name", JStr "Employees");
                     ("displayName", JStr "Employees")];
               JObj [("id", JStr "list-assets"); ("name", JStr "Assets");
                     ("displayName", JStr "Company Assets")]])].

Definition isPatch (r : Request) : bool :=
  match method (init r) with
  | Some m => String.eqb m "PATCH"
  | None => false
  end.

(** The tenant answers the site lookup, the listing of the lists and the
    update of the fields of asset 7. *)
Definition answer (r : Request) : Response :=
  if String.eqb (url r) (graphBase +:+ "sites/contoso.sharepoint.com%3A%2Fsites%2Fassets")
  then Json site
  else if String.eqb (url r) (graphBase +:+ "sites/site-1/lists") then Json lists
  else if String.eqb (url r) (graphBase +:+ "sites/site-1/lists/list-assets/items/7/fields")
          && isPatch r
  then Json (JObj [("Title", JStr "Laptop-01"); ("Status", JStr "Active")])
  else HttpError 404 "Not Found".

Definition parse (u : string) : option (string * string) :=
  if String.eqb u "https://contoso.sharepoint.com/sites/assets"
  then Some ("contoso.sharepoint.com", "/sites/assets")
  else None.

Definition tenant : Platform :=
  {| fetch := fun _ r => answer r;
     parseURL := parse;
     encodeURIComponent := percentEncode;
     makeRedirectUri := fun _ => "employee-assets://auth";
     codeVerifier := fun _ => Some "verifier";
     promptAsync := fun _ _ _ => Ok PromptCancel;
     exchangeCodeAsync := fun _ _ _ => Throw (Error "Network request failed") |}.

(** A device without network. *)
Definition offline : Platform :=
  {| fetch := fun _ _ => Rejected (Error "Network request failed");
     parseURL := parse;
     encodeURIComponent := percentEncode;
     makeRedirectUri := fun _ => "employee-assets://auth";
     codeVerifier := fun _ => Some "verifier";
     promptAsync := fun _ _ _ => Throw (Error "Network request failed");
     exchangeCodeAsync := fun _ _ _ => Throw (Error "Network request failed") |}.

Definition fresh : World := {| svc := newService config; log := [] |}.

Definition unconfiguredWorld : World := {| svc := newService template; log := [] |}.

Definition signedIn : World :=
  {| svc := withAccessToken (Some "token") (newService config); log := [] |}.

End Sample.

(** A request without method and body. *)
Definition isRead (e : Event) : Prop := ∃ r, e = Fetch r ∧ init r = noOptions.

(** The members [JSON.stringify] writes for an object: key and text of the
    entries whose value is not [undefined]. *)
Fixpoint members (o : Obj) : list (string * string) :=
  match o with
  | [] => []
  | (k, x) :: r =>
      match Js.stringify x with
      | Some t => (k, t) :: members r
      | None => members r
      end
  end.



(** The object [getAllUsers] builds for a user that is an object. *)
Definition userOf (user : JsVal) : JsVal :=
  JObj [("id", Js.prop user "id");
        ("displayName", Js.or (Js.prop user "displayName") (JStr EmptyString));
        ("userPrincipalName", Js.or (Js.prop user "userPrincipalName") (JStr EmptyString));
        ("mail", Js.or (Js.or (Js.prop user "mail") (Js.prop user "userPrincipalName"))
                       (JStr EmptyString));
        ("jobTitle", Js.prop user "jobTitle");
        ("officeLocation", Js.prop user "officeLocation");
        ("department", Js.prop user "department")].

(** A page of the user listing: the users and, unless the page is the
    last one, the continuation link. *)
Definition usersPage (users : list JsVal) (next : option string) : JsVal :=
  JObj (("value", JArr users) ::
        match next with
        | Some link => [("@odata.nextLink", JStr link)]
        | None => []
        end).

(** The request for page [k]: the first one, or the one that follows
    the continuation link to page [k]. *)
Definition pageRequest (token : string) (links : nat → string) (k : nat) : Request :=
  graphRequest token
    (match k with
     | O => usersEndpoint
     | S _ => Str.replace (links k) graphBase EmptyString
     end) noOptions.

Definition nextLinkOf (links : nat → string) (pages : list (list JsVal)) (k : nat)
    : option string :=
  if (S k <? length pages)%nat then Some (links (S k)) else None.

(** The user listing holds [pages]: the request for page [k], sent as
    the [k]-th request after [w], is answered with page [k] and the link
    to page [k + 1] when there is one. *)
Definition servesPages (P : Platform) (w : World) (token : string)
    (links : nat → string) (pages : list (list JsVal)) : Prop :=
  ∀ k users h,
    pages !! k = Some users →
    length h = length (log w) + k →
    fetch P h (pageRequest token links k) = Json (usersPage users (nextLinkOf links pages k)).

(** The number of pages [getAllUsers] reads of a listing of [n] pages. *)
Definition pagesRead (n : nat) : nat := Nat.min n maxPages.

(** ** A sample directory *)

Module Directory.

Definition user (i : nat) : JsVal :=
  JObj [("id", JStr ("user-" +:+ Str.ofNat i));
        ("displayName", JStr ("User " +:+ Str.ofNat i));
        ("userPrincipalName", JStr ("user" +:+ Str.ofNat i +:+ "@contoso.com"));
        ("mail", JNull)].

(** Page [k] of a listing in pages of [size] users. *)
Definition page (size k : nat) : list JsVal := map user (seq (size * k) size).

Definition link (k : nat) : string :=
  graphBase +:+ "users?$skiptoken=" +:+ Str.ofNat k.

Definition pages (size n : nat) : list (list JsVal) := map (page size) (seq 0 n).

(** A directory of [n] pages.  It answers by URL: the first page to the
    plain listing, page [k] to the link to page [k]. *)
Definition answer (size n : nat) (r : Request) : Response :=
  match List.find (fun k => String.eqb (url r) (url (pageRequest "token" link k))) (seq 0 n) with
  | Some k => Json (usersPage (page size k) (nextLinkOf link (pages size n) k))
  | None => HttpError 400 "Bad Request"
  end.

Definition directory (size n : nat) : Platform :=
  {| fetch := fun _ r => answer size n r;
     parseURL := Sample.parse;
     encodeURIComponent := Sample.percentEncode;
     makeRedirectUri := fun _ => "employee-assets://auth";
     codeVerifier := fun _ => Some "verifier";
     promptAsync := fun _ _ _ => Ok PromptCancel;
     exchangeCodeAsync := fun _ _ _ => Throw (Error "Network request failed") |}.

End Directory.

(** ** Lookup references *)



(** No cached employee has the identifier [n]. *)
Definition notCached (cachedEmployees : option (list Obj)) (n : Z) : Prop :=
  match cachedEmployees with
  | Some cached => findCachedEmployee cached n = None
  | None => True
  end.

(** No request for the item [n] of a list is answered with an item. *)
Definition noItemFetched (P : Platform) (n : Z) : Prop :=
  ∀ h token siteId listId v,
    fetch P h (graphRequest token (itemEndpoint siteId listId n) noOptions) ≠ Json v.

(** No request for the user [userId] is answered with a user. *)
Definition noUserFetched (P : Platform) (userId : string) : Prop :=
  ∀ h token v, fetch P h (graphRequest token ("users/" +:+ userId) noOptions) ≠ Json v.


(** ** The numbers read as the code reads them *)








(** ** Sample records *)

Module Cards.

Definition jane : JsVal := JObj [("displayName", JStr "Jane Doe")].

(** An access card whose employee is expanded. *)
Definition expanded : Obj := [("Title", JStr "Card 1"); ("Employee", jane)].

(** An access card whose expanded employee carries a staff number where
    the name should be. *)
Definition numbered : Obj :=
  [("Title", JStr "Card 2"); ("Employee", JObj [("displayName", JStr "HPH 123")])].



(** An asset that refers to user 42. *)
Definition asset : Obj := [("Title", JStr "Laptop-01"); ("field_2LookupId", JNum 42)].

(** The employees the caller knows. *)
Definition employees : list Obj :=
  [[("Id", JStr "7"); ("Title", JStr "John Smith")]].

End Cards.

(** ** Reads *)

(** A computation that keeps the token and sends nothing but reads,
    however it ends. *)
Definition readsOnly {A} (m : M A) : Prop :=
  ∀ w out w', m w = (out, w') →
    accessToken (svc w') = accessToken (svc w) ∧
    ∃ evs, log w' = log w ++ evs ∧ Forall isRead evs.

(** The request of [getRecords] for the items of a list. *)
Definition itemsRequest (token siteId : string) (listId : JsVal) : Request :=
  graphRequest token
    ("sites/" +:+ siteId +:+ "/lists/" +:+ Js.toString listId +:+ "/items?$expand=fields")
    noOptions.

(** The requests among [evs], sent one after the other once [h] was, were
    all answered with parsed JSON. *)
Fixpoint answered (P : Platform) (h : list Event) (evs : list Event) : Prop :=
  match evs with
  | [] => True
  | Fetch r :: rest =>
      (∃ data, fetch P h r = Json data) ∧ answered P (h ++ [Fetch r]) rest
  | e :: rest => answered P (h ++ [e]) rest
  end.



(** The fields a resolution of names may write. *)
Definition nameFields : list string :=
  ["Employee"; "EmployeeName"; "Assignee"; "AssigneeName"].

(** Two records that agree on every field outside [names]. *)
Definition sameExcept (names : list string) (a b : Obj) : Prop :=
  ∀ k, k ∉ names → Js.field a k = Js.field b k.

(** ** A sample sign-in *)

Module Login.

(** The development client: the redirect URIs are those of Expo Go, the
    identity provider grants the code and the token. *)
Definition expoGo : Platform :=
  {| fetch := fun _ r => Sample.answer r;
     parseURL := Sample.parse;
     encodeURIComponent := Sample.percentEncode;
     makeRedirectUri := fun options =>
       match options with
       | Some _ => "exp://192.168.9.142:8081/--/auth"
       | None => "exp://192.168.9.142:8081"
       end;
     codeVerifier := fun _ => Some "verifier";
     promptAsync := fun _ _ _ => Ok (PromptSuccess "code-1");
     exchangeCodeAsync := fun _ _ _ => Ok "token-1" |}.

(** A session that has resolved the site and a list. *)
Definition warm : World :=
  {| svc := withListIdCache {["Assets" := JStr "list-assets"]}
              (withSiteId (Some "site-1") (svc Sample.signedIn));
     log := [] |}.

End Login.

(** ** Administrators *)

(** A group that is a directory role with one of the administrator
    templates. *)
Definition isAdminRole (group : JsVal) : bool :=
  Js.strictEq (Js.prop group "@odata.type") (JStr "#microsoft.graph.directoryRole")
  && includesId adminRoleTemplateIds (Js.prop group "roleTemplateId").

Definition roleName (group : JsVal) : JsVal :=
  Js.or (Js.prop group "displayName") (JStr "Unknown Role").


Definition meRequest (token : string) : Request := graphRequest token "me" noOptions.

Definition memberOfRequest (token : string) : Request :=
  graphRequest token "me/memberOf" noOptions.

(** ** Sign-in events *)

(** An event of the sign-in that carries the redirect URI [uri]. *)
Definition usesRedirectUri (uri : string) (ev : Event) : Prop :=
  match ev with
  | Prompt request _ => ar_redirectUri request = uri
  | Exchange exchange _ => te_redirectUri exchange = uri
  | Fetch _ => False
  end.


(** A user of the directory whose identifier starts with the digits 42. *)
Definition guidUser : JsVal :=
  JObj [("id", JStr "42e90394-69f5-4237-9190-012177145e10");
        ("displayName", JStr "Ravi Rao");
        ("userPrincipalName", JStr "ravi@contoso.com");
        ("mail", JStr EmptyString)].

(** ** A sample office *)

Module Office.

Definition methodIs (m : option string) (r : Request) : bool :=
  match method (init r), m with
  | Some a, Some b => String.eqb a b
  | None, None => true
  | _, _ => false
  end.

Definition asks (m : option string) (endpoint : string) (r : Request) : bool :=
  methodIs m r && String.eqb (url r) (graphBase +:+ endpoint).

Definition items : JsVal :=
  JObj [("value",
         JArr [JObj [("id", JStr "7");
                     ("fields", JObj [("Title", JStr "Laptop-01");
                                      ("field_2LookupId", JStr "42")])];
               JObj [("id", JStr "8");
                     ("fields", JObj [("Title", JStr "Monitor-02")])]])].

Definition created : JsVal :=
  JObj [("id", JStr "9"); ("fields", JObj [("Title", JStr "Dock-03")])].

Definition me : JsVal :=
  JObj [("id", JStr "u-1"); ("displayName", JStr "Jane Doe");
        ("userPrincipalName", JStr "jane@contoso.com"); ("mail", JNull)].

Definition staff : JsVal :=
  JObj [("@odata.type", JStr "#microsoft.graph.group"); ("displayName", JStr "Staff")].

Definition sharePointAdmins : JsVal :=
  JObj [("@odata.type", JStr "#microsoft.graph.directoryRole");
        ("roleTemplateId", JStr "f28a1f50-f6e7-4571-818b-6a12f2af6b6c");
        ("displayName", JStr "SharePoint Administrator")].

Definition memberOf : JsVal := JObj [("value", JArr [staff; sharePointAdmins])].

Definition directoryRoles : JsVal :=
  JObj [("value",
         JArr [JObj [("id", JStr "role-1");
                     ("roleTemplateId", JStr "62e90394-69f5-4237-9190-012177145e10")]])].

Definition members : JsVal :=
  JObj [("value",
         JArr [JObj [("@odata.type", JStr "#microsoft.graph.user"); ("id", JStr "u-2");
                     ("displayName", JStr "Ravi Rao");
                     ("userPrincipalName", JStr "ravi@contoso.com")];
               JObj [("@odata.type", JStr "#microsoft.graph.servicePrincipal");
                     ("id", JStr "sp-1")]])].

(** The office answers the lookups of the sample tenant, the listing of
    the assets, the creation of an asset, the deletion of asset 7 and the
    questions about the signed-in user and the administrators. *)
Definition answer (r : Request) : Response :=
  if asks None "sites/contoso.sharepoint.com%3A%2Fsites%2Fassets" r then Json Sample.site
  else if asks None "sites/site-1/lists" r then Json Sample.lists
  else if asks None "sites/site-1/lists/list-assets/items?$expand=fields" r then Json items
  else if asks (Some "POST") "sites/site-1/lists/list-assets/items" r then Json created
  else if asks (Some "DELETE") "sites/site-1/lists/list-assets/items/7" r then Json JNull
  else if asks None "me" r then Json me
  else if asks None "me/memberOf" r then Json memberOf
  else if asks None "directoryRoles" r then Json directoryRoles
  else if asks None "directoryRoles/role-1/members" r then Json members
  else HttpError 404 "Not Found".

(** A remote side that answers every request with the same value. *)
Definition always (v : JsVal) : Platform :=
  {| fetch := fun _ _ => Json v;
     parseURL := Sample.parse;
     encodeURIComponent := Sample.percentEncode;
     makeRedirectUri := fun _ => "employee-assets://auth";
     codeVerifier := fun _ => Some "verifier";
     promptAsync := fun _ _ _ => Ok (PromptSuccess "code-1");
     exchangeCodeAsync := fun _ _ _ => Ok "token" |}.

Definition graph : Platform :=
  {| fetch := fun _ r => answer r;
     parseURL := Sample.parse;
     encodeURIComponent := Sample.percentEncode;
     makeRedirectUri := fun _ => "employee-assets://auth";
     codeVerifier := fun _ => Some "verifier";
     promptAsync := fun _ _ _ => Ok (PromptSuccess "code-1");
     exchangeCodeAsync := fun _ _ _ => Ok "token" |}.

End Office.

(** * Properties *)

Ltac monad := unfold bind, ret, throw, catch, lift, this, update, emit, history in *.


Lemma isEmpty_true s : Str.isEmpty s = true ↔ s = EmptyString.
Proof. destruct s; simpl; split; congruence. Qed.

Lemma isEmpty_false s : Str.isEmpty s = false ↔ s ≠ EmptyString.
Proof. destruct s; simpl; split; congruence. Qed.

(** C5. With a client or tenant identifier that is empty or equal to its
    placeholder, [authenticate()] throws one of the two configuration
    errors and leaves the service and the log as they were: nothing was
    sent, neither to the identity provider nor to the API. *)
Theorem authenticate_unconfigured (P : Platform) (w : World) :
  unconfigured (svc w) →
  ∃ message,
    authenticate P w = (Throw (Error message), w) ∧
    (message = clientIdNotConfigured ∨ message = tenantIdNotConfigured).
Proof.
  intros H. unfold authenticate, authenticateBody. monad.
  destruct (Str.isEmpty (clientId (svc w)) || (clientId (svc w) =? "YOUR_CLIENT_ID_HERE")%string)
    eqn:Hc; simpl.
  - exists clientIdNotConfigured. split; [reflexivity | now left].
  - destruct (Str.isEmpty (tenantId (svc w)) || (tenantId (svc w) =? "YOUR_TENANT_ID_HERE")%string)
      eqn:Ht; simpl.
    + exists tenantIdNotConfigured. split; [reflexivity | now right].
    + exfalso. apply orb_false_iff in Hc as [Hc1 Hc2], Ht as [Ht1 Ht2].
      apply isEmpty_false in Hc1, Ht1. apply String.eqb_neq in Hc2, Ht2.
      unfold unconfigured, placeholderClientId, placeholderTenantId in H.
      intuition congruence.
Qed.

(** ** Requests *)

Lemma makeGraphRequest_unauthenticated P endpoint options w :
  bearerOf (svc w) = None →
  makeGraphRequest P endpoint options w = (Throw (Error notAuthenticated), w).
Proof. intros H. unfold makeGraphRequest. monad. now rewrite H. Qed.

Lemma makeGraphRequest_authenticated P endpoint options w token :
  bearerOf (svc w) = Some token →
  makeGraphRequest P endpoint options w =
    (payload (fetch P (log w) (graphRequest token endpoint options)),
     sent w (graphRequest token endpoint options)).
Proof. intros H. unfold makeGraphRequest. monad. now rewrite H. Qed.

(** A request leaves the service as it is and sends at most itself. *)
Lemma makeGraphRequest_world P endpoint options w out w' :
  makeGraphRequest P endpoint options w = (out, w') →
  svc w' = svc w ∧
  (log w' = log w ∨
   ∃ token, bearerOf (svc w) = Some token ∧
            log w' = log w ++ [Fetch (graphRequest token endpoint options)]).
Proof.
  intros H. destruct (bearerOf (svc w)) as [token|] eqn:Hb.
  - rewrite (makeGraphRequest_authenticated _ _ _ _ _ Hb) in H.
    injection H as _ <-. split; [reflexivity | right; eauto].
  - rewrite (makeGraphRequest_unauthenticated _ _ _ _ Hb) in H.
    injection H as _ <-. auto.
Qed.

Lemma bearerOf_logout s : bearerOf (withAccessToken (Some EmptyString) s) = None.
Proof. reflexivity. Qed.

(** C9. After [setAccessToken('')] every request to the API fails with the
    error "Not authenticated. Call authenticate() first." and nothing is
    sent: the world is the one the logout left. *)
Theorem request_after_logout_fails (P : Platform) (w : World)
    (endpoint : string) (options : RequestInit) :
  let w' := snd (setAccessToken EmptyString w) in
  makeGraphRequest P endpoint options w' = (Throw (Error notAuthenticated), w') ∧
  log w' = log w ∧
  Str.startsWith notAuthenticated "Not authenticated" = true.
Proof.
  simpl. split; [|split; reflexivity].
  apply makeGraphRequest_unauthenticated. reflexivity.
Qed.

(** ** The site identifier *)

Lemma getSiteId_cached P w i :
  cachedSiteId (svc w) = Some i → getSiteId P w = (Ok i, w).
Proof. intros H. unfold getSiteId. monad. now rewrite H. Qed.

Lemma getSiteId_Ok_inv P w i w' :
  getSiteId P w = (Ok i, w') →
  (cachedSiteId (svc w) = Some i ∧ w' = w) ∨
  (cachedSiteId (svc w) = None ∧
   ∃ token r, bearerOf (svc w) = Some token ∧ siteRequest P (svc w) token = Some r ∧
              w' = {| svc := withSiteId (Some i) (svc w); log := log w ++ [Fetch r] |}).
Proof.
  unfold getSiteId. monad.
  destruct (cachedSiteId (svc w)) as [j|] eqn:Hc.
  - intros [= <- <-]. now left.
  - intros H. right. split; [reflexivity|].
    unfold siteRequest.
    destruct (parseURL P (siteUrl (svc w))) as [[hostname pathname]|]; [|discriminate].
    destruct (bearerOf (svc w)) as [token|] eqn:Hb.
    + rewrite (makeGraphRequest_authenticated _ _ _ _ _ Hb) in H.
      destruct (payload _) as [data|]; [|discriminate].
      destruct (Js.get data "id") as [id|]; [|discriminate].
      destruct (Js.truthy id); [|discriminate]. simpl in H.
      injection H as <- <-. eauto.
    + rewrite (makeGraphRequest_unauthenticated _ _ _ _ Hb) in H. discriminate.
Qed.

(** [getSiteId] sends what [siteLookup] says and keeps the token and the
    cache of list identifiers. *)
Lemma getSiteId_Ok_world P w i w' :
  getSiteId P w = (Ok i, w') →
  log w' = log w ++ siteLookup P (svc w) ∧
  bearerOf (svc w') = bearerOf (svc w) ∧
  listIdCache (svc w') = listIdCache (svc w).
Proof.
  intros H. apply getSiteId_Ok_inv in H as [[Hc ->]|(Hc & token & r & Hb & Hr & ->)];
    unfold siteLookup; rewrite Hc.
  - now rewrite app_nil_r.
  - rewrite Hb, Hr. auto.
Qed.

(** ** List identifiers *)

Lemma getListId_hit P w listName id :
  listIdCache (svc w) !! listName = Some id →
  getListId P listName w = (Ok id, w).
Proof. intros H. unfold getListId. monad. now rewrite H. Qed.

Lemma getListId_miss P w listName :
  listIdCache (svc w) !! listName = None →
  getListId P listName w =
    match getSiteId P w with
    | (Ok siteId, w1) =>
        match bearerOf (svc w1) with
        | Some token =>
            match obind (payload (fetch P (log w1) (listsRequest token siteId)))
                        (resolveList listName) with
            | Ok id => (Ok id, listed w1 token siteId listName id)
            | Throw e => (Throw e, sent w1 (listsRequest token siteId))
            end
        | None => (Throw (Error notAuthenticated), w1)
        end
    | (Throw e, w1) => (Throw e, w1)
    end.
Proof.
  intros H. unfold getListId. monad. rewrite H.
  destruct (getSiteId P w) as [[siteId|e] w1]; [|reflexivity].
  destruct (bearerOf (svc w1)) as [token|] eqn:Hb.
  - rewrite (makeGraphRequest_authenticated _ _ _ _ _ Hb).
    fold (listsRequest token siteId).
    destruct (payload _) as [data|]; [|reflexivity]. simpl.
    destruct (resolveList listName data); reflexivity.
  - now rewrite (makeGraphRequest_unauthenticated _ _ _ _ Hb).
Qed.

Lemma getListId_miss_Ok_inv P w listName id w' :
  listIdCache (svc w) !! listName = None →
  getListId P listName w = (Ok id, w') →
  ∃ siteId w1 token data,
    getSiteId P w = (Ok siteId, w1) ∧
    bearerOf (svc w1) = Some token ∧
    fetch P (log w1) (listsRequest token siteId) = Json data ∧
    resolveList listName data = Ok id ∧
    w' = listed w1 token siteId listName id.
Proof.
  intros Hmiss H. rewrite (getListId_miss _ _ _ Hmiss) in H.
  destruct (getSiteId P w) as [[siteId|e] w1]; [|discriminate].
  destruct (bearerOf (svc w1)) as [token|] eqn:Hb; [|discriminate].
  destruct (fetch P (log w1) (listsRequest token siteId)) as [data| |] eqn:Hf;
    simpl in H; try discriminate.
  destruct (resolveList listName data) as [id'|] eqn:Hr; [|discriminate].
  injection H as <- <-. exists siteId, w1, token, data. repeat split; auto.
Qed.

(** C6. From a state in which the name is not cached, a successful
    [getListId] followed by a second call with the same name sends exactly
    one listing request: the first call sends the site request (unless the
    site identifier is memoized) and then the listing, and stores the
    identifier; the second call returns it and sends nothing. *)
Theorem getListId_twice_one_listing (P : Platform) (w w1 : World)
    (listName : string) (id : JsVal) :
  listIdCache (svc w) !! listName = None →
  getListId P listName w = (Ok id, w1) →
  listIdCache (svc w1) !! listName = Some id ∧
  getListId P listName w1 = (Ok id, w1) ∧
  ∃ token siteId,
    log w1 = log w ++ siteLookup P (svc w) ++ [Fetch (listsRequest token siteId)].
Proof.
  intros Hmiss H.
  apply getListId_miss_Ok_inv in H as (siteId & w0 & token & data & Hs & Hb & Hf & Hr & ->);
    [|assumption].
  assert (Hc : listIdCache (svc (listed w0 token siteId listName id)) !! listName = Some id)
    by (simpl; apply lookup_insert_eq).
  split; [exact Hc|]. split; [now apply getListId_hit|].
  exists token, siteId. simpl.
  apply getSiteId_Ok_world in Hs as (-> & _ & _). now rewrite <- app_assoc.
Qed.

Lemma matchesListName_ignores_case a b l :
  sameIgnoringCase a b → matchesListName a l = matchesListName b l.
Proof. unfold sameIgnoringCase, matchesListName. now intros ->. Qed.

Lemma findM_ext (p q : JsVal → Outcome bool) l :
  (∀ x, p x = q x) → findM p l = findM q l.
Proof.
  intros H. induction l as [|x l IH]; simpl; [reflexivity|].
  rewrite H. destruct (q x) as [[|]|]; simpl; auto.
Qed.

Lemma resolveList_ignores_case a b data id :
  sameIgnoringCase a b → resolveList a data = Ok id → resolveList b data = Ok id.
Proof.
  intros Hab. unfold resolveList.
  destruct (valueArray data) as [lists|]; simpl; [|discriminate].
  rewrite (findM_ext _ (matchesListName b)) by (intros; now apply matchesListName_ignores_case).
  destruct (findM (matchesListName b) lists) as [[l|]|]; simpl; try discriminate; auto.
  destruct (mapM _ lists); simpl; discriminate.
Qed.



Lemma cachedSiteId_withSiteId i s :
  cachedSiteId (withSiteId (Some i) s) = if Str.isEmpty i then None else Some i.
Proof. reflexivity. Qed.

Lemma cachedSiteId_withListIdCache c s :
  cachedSiteId (withListIdCache c s) = cachedSiteId s.
Proof. reflexivity. Qed.

Lemma bearerOf_withListIdCache c s : bearerOf (withListIdCache c s) = bearerOf s.
Proof. reflexivity. Qed.

(** C10. The cache is keyed by the exact spelling.  After [getListId a]
    succeeded, a spelling [b] that differs from [a] in case only is not in
    the cache: [getListId b] sends the listing request again and, the
    listing being the same, returns the same identifier; both spellings
    are then cached. *)
Theorem getListId_cache_per_spelling (P : Platform) (w w1 : World) (a b : string)
    (id : JsVal) (token siteId : string) (data : JsVal) :
  a ≠ b →
  sameIgnoringCase a b →
  listIdCache (svc w) !! a = None →
  listIdCache (svc w) !! b = None →
  getListId P a w = (Ok id, w1) →
  cachedSiteId (svc w1) = Some siteId →
  bearerOf (svc w1) = Some token →
  (∀ h, fetch P h (listsRequest token siteId) = Json data) →
  listIdCache (svc w1) !! b = None ∧
  ∃ w2,
    getListId P b w1 = (Ok id, w2) ∧
    log w2 = log w1 ++ [Fetch (listsRequest token siteId)] ∧
    listIdCache (svc w2) = <[b := id]> (<[a := id]> (listIdCache (svc w))).
Proof.
  intros Hne Hab Ha Hb H Hsite Htoken Hstable.
  apply getListId_miss_Ok_inv in H as (sid & w0 & tok & data0 & Hs & Ht & Hf & Hr & ->);
    [|assumption].
  unfold listed in Hsite, Htoken. cbn [svc] in Hsite, Htoken.
  rewrite cachedSiteId_withListIdCache in Hsite.
  rewrite bearerOf_withListIdCache in Htoken.
  assert (tok = token) as -> by congruence.
  pose proof (getSiteId_Ok_world _ _ _ _ Hs) as (_ & _ & Hcache).
  assert (sid = siteId) as ->.
  { apply getSiteId_Ok_inv in Hs as [[Hc ->]|(Hc & t & r & _ & _ & ->)].
    - congruence.
    - cbn [svc] in Hsite. rewrite cachedSiteId_withSiteId in Hsite.
      destruct (Str.isEmpty sid); congruence. }
  rewrite Hstable in Hf. injection Hf as <-.
  assert (Hmiss : listIdCache (svc (listed w0 token siteId a id)) !! b = None).
  { simpl. rewrite lookup_insert_ne by assumption. now rewrite Hcache. }
  split; [exact Hmiss|].
  rewrite (getListId_miss _ _ _ Hmiss).
  rewrite (getSiteId_cached _ _ siteId)
    by (unfold listed; cbn [svc]; now rewrite cachedSiteId_withListIdCache).
  unfold listed at 1. cbn [svc]. rewrite bearerOf_withListIdCache, Htoken, Hstable. simpl.
  rewrite (resolveList_ignores_case _ _ _ _ Hab Hr).
  eexists. split; [reflexivity|]. simpl. now rewrite Hcache.
Qed.

(** ** The properties on the sample tenant *)

Lemma authenticate_unconfigured_sample :
  unconfigured (svc Sample.unconfiguredWorld) ∧
  ∃ message,
    authenticate Sample.tenant Sample.unconfiguredWorld
      = (Throw (Error message), Sample.unconfiguredWorld) ∧
    (message = clientIdNotConfigured ∨ message = tenantIdNotConfigured).
Proof.
  assert (H : unconfigured (svc Sample.unconfiguredWorld)) by (right; left; reflexivity).
  split; [exact H | exact (authenticate_unconfigured Sample.tenant _ H)].
Defined.

Lemma getListId_twice_sample :
  let w1 := snd (getListId Sample.tenant "Assets" Sample.signedIn) in
  listIdCache (svc w1) !! "Assets" = Some (JStr "list-assets") ∧
  getListId Sample.tenant "Assets" w1 = (Ok (JStr "list-assets"), w1) ∧
  ∃ token siteId,
    log w1 = log Sample.signedIn ++ siteLookup Sample.tenant (svc Sample.signedIn)
             ++ [Fetch (listsRequest token siteId)].
Proof.
  apply (getListId_twice_one_listing Sample.tenant Sample.signedIn); reflexivity.
Defined.


Lemma getListId_cache_per_spelling_sample :
  let w1 := snd (getListId Sample.tenant "Assets" Sample.signedIn) in
  listIdCache (svc w1) !! "assets" = None ∧
  ∃ w2,
    getListId Sample.tenant "assets" w1 = (Ok (JStr "list-assets"), w2) ∧
    log w2 = log w1 ++ [Fetch (listsRequest "token" "site-1")] ∧
    listIdCache (svc w2) =
      <["assets" := JStr "list-assets"]>
        (<["Assets" := JStr "list-assets"]> (listIdCache (svc Sample.signedIn))).
Proof.
  apply (getListId_cache_per_spelling Sample.tenant Sample.signedIn _ "Assets" "assets"
           (JStr "list-assets") "token" "site-1" Sample.lists);
    try reflexivity.
  discriminate.
Defined.

(** ** What the methods send *)

Lemma Forall_isRead_one r : init r = noOptions → Forall isRead [Fetch r].
Proof. intros H. constructor; [|constructor]. now exists r. Qed.

Lemma makeGraphRequest_reads P endpoint w out w' :
  makeGraphRequest P endpoint noOptions w = (out, w') →
  svc w' = svc w ∧ ∃ evs, log w' = log w ++ evs ∧ Forall isRead evs.
Proof.
  intros H. apply makeGraphRequest_world in H as [Hs [Hl|(token & _ & Hl)]].
  - split; [assumption|]. exists []. rewrite app_nil_r. auto.
  - split; [assumption|]. eexists. split; [exact Hl|]. now apply Forall_isRead_one.
Qed.

Lemma getSiteId_reads P w out w' :
  getSiteId P w = (out, w') →
  listIdCache (svc w') = listIdCache (svc w) ∧
  ∃ evs, log w' = log w ++ evs ∧ Forall isRead evs.
Proof.
  unfold getSiteId. monad.
  assert (Hnil : ∀ v : World, log v = log v ++ [] ∧ Forall isRead [])
    by (intros; rewrite app_nil_r; auto).
  destruct (cachedSiteId (svc w)).
  { intros [= <- <-]. split; [reflexivity|]. exists []. apply Hnil. }
  destruct (parseURL P (siteUrl (svc w))) as [[hostname pathname]|].
  2:{ intros [= <- <-]. split; [reflexivity|]. exists []. apply Hnil. }
  destruct (makeGraphRequest P _ noOptions w) as [[data|e] w1] eqn:Hreq;
    apply makeGraphRequest_reads in Hreq as (Hs & evs & Hl & Hr).
  2:{ intros [= <- <-]. rewrite Hs. eauto. }
  destruct (Js.get data "id") as [id|e].
  2:{ intros [= <- <-]. rewrite Hs. eauto. }
  destruct (Js.truthy id); simpl; intros [= <- <-]; simpl; rewrite Hs; eauto.
Qed.

Lemma getListId_reads P listName w out w' :
  getListId P listName w = (out, w') →
  ∃ evs, log w' = log w ++ evs ∧ Forall isRead evs.
Proof.
  unfold getListId. monad.
  destruct (listIdCache (svc w) !! listName).
  { intros [= <- <-]. exists []. now rewrite app_nil_r. }
  destruct (getSiteId P w) as [[siteId|e] w1] eqn:Hsite;
    apply getSiteId_reads in Hsite as (_ & evs1 & Hl1 & Hr1).
  2:{ intros [= <- <-]. eauto. }
  destruct (makeGraphRequest P _ noOptions w1) as [[data|e] w2] eqn:Hreq;
    apply makeGraphRequest_reads in Hreq as (_ & evs2 & Hl2 & Hr2).
  2:{ intros [= <- <-]. exists (evs1 ++ evs2). rewrite Hl2, Hl1, <- app_assoc.
      split; [reflexivity | now apply Forall_app]. }
  destruct (resolveList listName data); simpl; intros [= <- <-]; simpl;
    exists (evs1 ++ evs2); rewrite Hl2, Hl1, <- app_assoc;
    (split; [reflexivity | now apply Forall_app]).
Qed.

(** ** Updates *)




(** ** The user listing *)

Lemma usersLoop_S P fuel nextLink pageCount allUsers :
  usersLoop P (S fuel) nextLink pageCount allUsers =
    (let! endpoint := lift (pageEndpoint nextLink) in
     let! response := makeGraphRequest P endpoint noOptions in
     let! users := lift (pageUsers response) in
     if (maxPages <=? S pageCount)%nat then ret (allUsers ++ users)
     else if Js.truthy (Js.or (Js.prop response "@odata.nextLink") JNull)
          then usersLoop P fuel (Js.or (Js.prop response "@odata.nextLink") JNull)
                 (S pageCount) (allUsers ++ users)
          else ret (allUsers ++ users)).
Proof. reflexivity. Qed.

(** The fuel is never what ends the loop: from a page count below
    [maxPages], any fuel of at least [maxPages - pageCount] gives the same
    run. *)
Lemma usersLoop_fuel P f1 : ∀ f2 nextLink pageCount allUsers w,
  pageCount < maxPages →
  maxPages - pageCount ≤ f1 → maxPages - pageCount ≤ f2 →
  usersLoop P f1 nextLink pageCount allUsers w = usersLoop P f2 nextLink pageCount allUsers w.
Proof.
  induction f1 as [|f1 IH]; intros f2 nextLink pageCount allUsers w Hlt H1 H2; [lia|].
  destruct f2 as [|f2]; [lia|]. rewrite !usersLoop_S. monad.
  destruct (pageEndpoint nextLink) as [endpoint|]; [|reflexivity].
  destruct (makeGraphRequest P endpoint noOptions w) as [[response|] w1]; [|reflexivity].
  destruct (pageUsers response) as [users|]; [|reflexivity].
  destruct (maxPages <=? S pageCount)%nat eqn:Hcap; [reflexivity|].
  apply Nat.leb_gt in Hcap.
  destruct (Js.truthy _); [|reflexivity].
  apply IH; lia.
Qed.

(** Each turn sends at most one request, so a run sends at most [fuel]. *)
Lemma usersLoop_bound P fuel : ∀ nextLink pageCount allUsers w out w',
  usersLoop P fuel nextLink pageCount allUsers w = (out, w') →
  svc w' = svc w ∧ ∃ evs, log w' = log w ++ evs ∧ length evs ≤ fuel.
Proof.
  induction fuel as [|fuel IH]; intros nextLink pageCount allUsers w out w'.
  { simpl. monad. intros [= <- <-]. split; [reflexivity|]. exists []. now rewrite app_nil_r. }
  rewrite usersLoop_S. monad.
  assert (Hnil : ∃ evs, log w = log w ++ evs ∧ length evs ≤ S fuel).
  { exists []. rewrite app_nil_r. simpl. split; [reflexivity | lia]. }
  destruct (pageEndpoint nextLink) as [endpoint|]; [|intros [= <- <-]; auto].
  destruct (makeGraphRequest P endpoint noOptions w) as [[response|] w1] eqn:Hreq;
    apply makeGraphRequest_world in Hreq as [Hs Hl].
  2:{ intros [= <- <-]. split; [assumption|].
      destruct Hl as [Hl|(token & _ & Hl)]; rewrite Hl; [assumption|].
      eexists. split; [reflexivity|]. simpl. lia. }
  assert (Hone : ∃ evs, log w1 = log w ++ evs ∧ length evs ≤ 1).
  { destruct Hl as [Hl|(token & _ & Hl)]; rewrite Hl.
    - exists []. rewrite app_nil_r. simpl. split; [reflexivity | lia].
    - eexists. split; [reflexivity|]. simpl. lia. }
  destruct Hone as (evs1 & Hl1 & Hn1).
  assert (Hstop : svc w1 = svc w ∧ ∃ evs, log w1 = log w ++ evs ∧ length evs ≤ S fuel).
  { split; [assumption|]. exists evs1. split; [assumption | lia]. }
  destruct (pageUsers response) as [users|]; [|intros [= <- <-]; exact Hstop].
  destruct (maxPages <=? S pageCount)%nat; [intros [= <- <-]; exact Hstop|].
  destruct (Js.truthy _); [|intros [= <- <-]; exact Hstop].
  intros H. apply IH in H as (Hs' & evs2 & Hl2 & Hn2).
  split; [congruence|]. exists (evs1 ++ evs2).
  rewrite Hl2, Hl1, <- app_assoc, length_app. split; [reflexivity | lia].
Qed.

Lemma toUser_object user : Js.notNullish user = true → toUser user = Ok (userOf user).
Proof. destruct user; simpl; intros; try discriminate; reflexivity. Qed.

Lemma mapM_toUser users :
  Forall (fun u => Js.notNullish u = true) users → mapM toUser users = Ok (map userOf users).
Proof.
  induction 1 as [|u us Hu _ IH]; simpl; [reflexivity|].
  now rewrite (toUser_object _ Hu), IH.
Qed.

Lemma pageUsers_page users next :
  Forall (fun u => Js.notNullish u = true) users →
  pageUsers (usersPage users next) = Ok (map userOf users).
Proof.
  intros H. unfold pageUsers, usersPage. simpl.
  destruct users as [|u us]; [reflexivity|].
  change (Js.positive _) with true. simpl andb. cbv iota.
  now apply mapM_toUser.
Qed.

Lemma nextLink_page users next :
  Js.or (Js.prop (usersPage users next) "@odata.nextLink") JNull =
    match next with Some link => Js.or (JStr link) JNull | None => JNull end.
Proof. destruct next; reflexivity. Qed.

Lemma pageEndpoint_link link :
  link ≠ EmptyString → pageEndpoint (JStr link) = Ok (Str.replace link graphBase EmptyString).
Proof. intros H. unfold pageEndpoint. simpl. apply isEmpty_false in H. now rewrite H. Qed.

Lemma truthy_link link : link ≠ EmptyString → Js.truthy (JStr link) = true.
Proof. intros H. simpl. apply isEmpty_false in H. now rewrite H. Qed.

Lemma or_link link : link ≠ EmptyString → Js.or (JStr link) JNull = JStr link.
Proof. intros H. unfold Js.or. now rewrite truthy_link. Qed.

Section Pages.

Context (P : Platform) (w : World) (token : string) (links : nat → string)
        (pages : list (list JsVal)).

Hypothesis signedIn : bearerOf (svc w) = Some token.
Hypothesis linksTruthy : ∀ k, links k ≠ EmptyString.
Hypothesis usersAreObjects : Forall (Forall (fun u => Js.notNullish u = true)) pages.
Hypothesis listing : servesPages P w token links pages.

Let n := pagesRead (length pages).

(** The loop, entered for page [k], reads the pages [k .. n - 1]. *)
Lemma usersLoop_pages fuel : ∀ k wk allUsers,
  k < n → maxPages - k ≤ fuel →
  svc wk = svc w → length (log wk) = length (log w) + k →
  usersLoop P fuel (match k with O => JNull | S _ => JStr (links k) end) k allUsers wk =
    (Ok (allUsers ++ map userOf (concat (drop k (take n pages)))),
     {| svc := svc w;
        log := log wk ++ map (fun i => Fetch (pageRequest token links i)) (seq k (n - k)) |}).
Proof.
  induction fuel as [|fuel IH]; intros k wk allUsers Hk Hfuel Hsvc Hlen.
  { unfold n, pagesRead in Hk. lia. }
  assert (Hkp : k < length pages) by (unfold n, pagesRead in Hk; lia).
  assert (Hkm : k < maxPages) by (unfold n, pagesRead in Hk; lia).
  destruct (lookup_lt_is_Some_2 pages k Hkp) as [users Husers].
  assert (Hobj : Forall (fun u => Js.notNullish u = true) users).
  { exact (Forall_lookup_1 _ _ _ _ usersAreObjects Husers). }
  assert (Hdrop : drop k (take n pages) = users :: drop (S k) (take n pages)).
  { apply drop_S. now rewrite lookup_take_lt. }
  assert (Hseq : seq k (n - k) = k :: seq (S k) (n - S k)).
  { replace (n - k) with (S (n - S k)) by lia. reflexivity. }
  assert (Hend : pageEndpoint (match k with O => JNull | S _ => JStr (links k) end) =
                 Ok (match k with O => usersEndpoint
                                | S _ => Str.replace (links k) graphBase EmptyString end)).
  { destruct k; [reflexivity|]. now apply pageEndpoint_link. }
  rewrite usersLoop_S. monad. rewrite Hend.
  rewrite (makeGraphRequest_authenticated _ _ _ _ token) by now rewrite Hsvc.
  fold (pageRequest token links k).
  rewrite (listing k users (log wk) Husers Hlen). simpl payload. cbv beta iota.
  rewrite (pageUsers_page _ _ Hobj), nextLink_page.
  rewrite Hdrop, Hseq, concat_cons, map_app, app_assoc. simpl map.
  destruct (maxPages <=? S k)%nat eqn:Hcap.
  - apply Nat.leb_le in Hcap.
    assert (HSk : n = S k) by (unfold n, pagesRead in *; lia).
    rewrite drop_ge by (rewrite length_take; lia).
    rewrite HSk, Nat.sub_diag. simpl. rewrite app_nil_r.
    unfold sent. simpl. now rewrite Hsvc.
  - apply Nat.leb_gt in Hcap. unfold nextLinkOf.
    destruct (S k <? length pages)%nat eqn:Hmore.
    + apply Nat.ltb_lt in Hmore.
      rewrite (or_link _ (linksTruthy (S k))), (truthy_link _ (linksTruthy (S k))).
      rewrite (IH (S k) (sent wk (pageRequest token links k))).
      * unfold sent. cbn [log]. do 2 f_equal. now rewrite <- app_assoc.
      * unfold n, pagesRead. lia.
      * lia.
      * exact Hsvc.
      * simpl. rewrite length_app. simpl. lia.
    + apply Nat.ltb_ge in Hmore.
      assert (HSk : n = S k) by (unfold n, pagesRead in *; lia).
      simpl Js.truthy. cbv iota.
      rewrite drop_ge by (rewrite length_take; lia).
      rewrite HSk, Nat.sub_diag. simpl. rewrite app_nil_r.
      unfold sent. simpl. now rewrite Hsvc.
Qed.

Lemma getAllUsers_pages :
  pages ≠ [] →
  getAllUsers P w =
    (Ok (map userOf (concat (take n pages))),
     {| svc := svc w;
        log := log w ++ map (fun i => Fetch (pageRequest token links i)) (seq 0 n) |}).
Proof.
  intros Hne. unfold getAllUsers. monad.
  assert (Hn : 0 < n).
  { unfold n, pagesRead, maxPages. destruct pages; [congruence|]. simpl. lia. }
  rewrite (usersLoop_pages maxPages 0 w []); try lia; try reflexivity.
  simpl. now rewrite Nat.sub_0_r.
Qed.

End Pages.

Lemma three_pages_of_999 (pages : list (list JsVal)) :
  length pages = 3 → Forall (fun p => length p = 999) pages →
  length (concat pages) = 2997.
Proof.
  intros Hlen Hall.
  destruct pages as [|p1 [|p2 [|p3 [|]]]]; try discriminate.
  inversion_clear Hall as [|? ? H1 Hall1]. inversion_clear Hall1 as [|? ? H2 Hall2].
  inversion_clear Hall2 as [|? ? H3 _].
  simpl. rewrite !length_app, H1, H2, H3. reflexivity.
Qed.

(** C4. When the listing holds [pages] behind continuation links,
    [getAllUsers] follows them: it returns the users of the first
    [min (length pages) 50] pages in order and sends one request per page
    read.  For 3 pages of 999 users these are 2997 users and 3 requests;
    for 51 pages or more, 50 requests.  The bound on the turns in the
    model is never what stops it: any larger fuel gives the same run. *)
Theorem getAllUsers_pagination (P : Platform) (w : World) (token : string)
    (links : nat → string) (pages : list (list JsVal)) :
  bearerOf (svc w) = Some token →
  (∀ k, links k ≠ EmptyString) →
  Forall (Forall (fun u => Js.notNullish u = true)) pages →
  servesPages P w token links pages →
  pages ≠ [] →
  ∃ users requests,
    getAllUsers P w = (Ok users, {| svc := svc w; log := log w ++ map Fetch requests |}) ∧
    users = map userOf (concat (take (pagesRead (length pages)) pages)) ∧
    requests = map (pageRequest token links) (seq 0 (pagesRead (length pages))) ∧
    (length pages = 3 → Forall (fun p => length p = 999) pages →
     length users = 2997 ∧ length requests = 3) ∧
    (51 ≤ length pages → length requests = 50) ∧
    (∀ fuel, maxPages ≤ fuel →
             usersLoop P fuel JNull 0 [] w = usersLoop P maxPages JNull 0 [] w).
Proof.
  intros Hb Hlinks Hobj Hserves Hne.
  exists (map userOf (concat (take (pagesRead (length pages)) pages))),
         (map (pageRequest token links) (seq 0 (pagesRead (length pages)))).
  split; [|split; [reflexivity|split; [reflexivity|split; [|split]]]].
  - rewrite (getAllUsers_pages P w token links pages Hb Hlinks Hobj Hserves Hne).
    now rewrite map_map.
  - intros H3 H999. rewrite !length_map, length_seq, H3. split; [|reflexivity].
    rewrite take_ge by (rewrite H3; unfold pagesRead, maxPages; lia).
    now apply three_pages_of_999.
  - intros H51. rewrite length_map, length_seq. unfold pagesRead, maxPages. lia.
  - intros fuel Hfuel. apply usersLoop_fuel; unfold maxPages in *; lia.
Qed.

(** Whatever the remote side answers, [getAllUsers] returns a list and has
    sent at most [maxPages] requests. *)
Lemma getAllUsers_capped P w :
  ∃ users w' evs,
    getAllUsers P w = (Ok users, w') ∧ svc w' = svc w ∧
    log w' = log w ++ evs ∧ length evs ≤ maxPages.
Proof.
  unfold getAllUsers. monad.
  destruct (usersLoop P maxPages JNull 0 [] w) as [[users|e] w'] eqn:H;
    apply usersLoop_bound in H as (Hs & evs & Hl & Hn).
  - exists users, w', evs. auto.
  - exists [], w', evs. auto.
Qed.

Lemma directory_serves_three :
  servesPages (Directory.directory 999 3) Sample.signedIn "token" Directory.link
    (Directory.pages 999 3).
Proof.
  intros k users h Hk _.
  destruct k as [|[|[|k]]]; try discriminate Hk;
    injection Hk as <-; vm_compute; reflexivity.
Qed.

Lemma directory_users_are_objects size n :
  Forall (Forall (fun u => Js.notNullish u = true)) (Directory.pages size n).
Proof.
  apply Forall_forall. intros p Hp. apply Forall_forall. intros u Hu.
  apply list_elem_of_fmap in Hp as (k & -> & _).
  apply list_elem_of_fmap in Hu as (i & -> & _). reflexivity.
Qed.

Lemma getAllUsers_pagination_sample :
  ∃ users requests,
    getAllUsers (Directory.directory 999 3) Sample.signedIn
      = (Ok users, {| svc := svc Sample.signedIn;
                      log := log Sample.signedIn ++ map Fetch requests |}) ∧
    length users = 2997 ∧ length requests = 3.
Proof.
  destruct (getAllUsers_pagination (Directory.directory 999 3) Sample.signedIn "token"
              Directory.link (Directory.pages 999 3))
    as (users & requests & H & _ & _ & H3 & _).
  - reflexivity.
  - intros k. unfold Directory.link. discriminate.
  - apply directory_users_are_objects.
  - exact directory_serves_three.
  - discriminate.
  - exists users, requests. split; [exact H|]. apply H3; [reflexivity|].
    apply Forall_forall. intros p Hp.
    apply list_elem_of_fmap in Hp as (k & -> & _).
    unfold Directory.page. now rewrite length_map, length_seq.
Defined.

(** A directory of 51 pages of one user each. *)
Lemma directory_serves_fifty_one :
  servesPages (Directory.directory 1 51) Sample.signedIn "token" Directory.link
    (Directory.pages 1 51).
Proof.
  intros k users h Hk _.
  do 51 (destruct k as [|k]; [injection Hk as <-; vm_compute; reflexivity|]).
  discriminate Hk.
Qed.

(** Of 51 pages, 50 are read. *)
Example getAllUsers_stops_at_cap :
  ∃ users requests,
    getAllUsers (Directory.directory 1 51) Sample.signedIn
      = (Ok users, {| svc := svc Sample.signedIn;
                      log := log Sample.signedIn ++ map Fetch requests |}) ∧
    length users = 50 ∧ length requests = 50.
Proof.
  exists (map userOf (concat (take 50 (Directory.pages 1 51)))),
         (map (pageRequest "token" Directory.link) (seq 0 50)).
  split; [|split; vm_compute; reflexivity].
  rewrite (getAllUsers_pages (Directory.directory 1 51) Sample.signedIn "token"
             Directory.link (Directory.pages 1 51)).
  - change (pagesRead (length (Directory.pages 1 51))) with 50. now rewrite map_map.
  - reflexivity.
  - intros k. unfold Directory.link. discriminate.
  - apply directory_users_are_objects.
  - exact directory_serves_fifty_one.
  - discriminate.
Qed.

(** ** An update on the sample tenant *)

(** The body sent for [{Status: "Active"}]: the one key. *)
Example stringify_status_active :
  Js.stringify (JObj [("Status", JStr "Active")]) =
    Some ("{" +:+ Js.quote "Status" +:+ ":" +:+ Js.quote "Active" +:+ "}").
Proof. reflexivity. Qed.

Example updateRecord_status_active :
  updateRecord Sample.tenant "Assets" (JNum 7) [("Status", JStr "Active")] Sample.signedIn =
    (Ok (JObj [("Title", JStr "Laptop-01"); ("Status", JStr "Active")]),
     {| svc := withListIdCache {["Assets" := JStr "list-assets"]}
                 (withSiteId (Some "site-1") (svc Sample.signedIn));
        log := [Fetch (graphRequest "token" "sites/contoso.sharepoint.com%3A%2Fsites%2Fassets"
                         noOptions);
                Fetch (listsRequest "token" "site-1");
                Fetch (graphRequest "token" "sites/site-1/lists/list-assets/items/7/fields"
                         {| method := Some "PATCH";
                            body := Some ("{" +:+ Js.quote "Status" +:+ ":" +:+
                                          Js.quote "Active" +:+ "}") |})] |}).
Proof. reflexivity. Qed.

(** ** Objects *)

Lemma field_setField_eq o k v : Js.field (Js.setField o k v) k = v.
Proof.
  induction o as [|[k' v'] r IH]; cbn [Js.setField Js.field].
  - now rewrite String.eqb_refl.
  - destruct (String.eqb k' k) eqn:E; cbn [Js.field]; [now rewrite E|].
    destruct (Js.precedes k k' && negb (Js.hasField r k)); cbn [Js.field].
    + now rewrite String.eqb_refl.
    + now rewrite E.
Qed.

Lemma field_setField_ne o k k' v :
  k ≠ k' → Js.field (Js.setField o k v) k' = Js.field o k'.
Proof.
  intros Hne. pose proof Hne as Hneb. apply String.eqb_neq in Hneb.
  induction o as [|[k0 v0] r IH]; cbn [Js.setField Js.field].
  - now rewrite Hneb.
  - destruct (String.eqb k0 k) eqn:E; cbn [Js.field].
    + apply String.eqb_eq in E. subst k0. now rewrite Hneb.
    + destruct (Js.precedes k k0 && negb (Js.hasField r k)); cbn [Js.field].
      * now rewrite Hneb.
      * destruct (String.eqb k0 k'); auto.
Qed.





(** ** Expanded employees *)





(** ** Sets of identifiers *)

Lemma elem_of_setAdd {A} `{EqDecision A} (x y : A) (s : list A) :
  x ∈ setAdd y s ↔ x = y ∨ x ∈ s.
Proof.
  unfold setAdd. destruct (decide (y ∈ s)) as [Hy|Hy].
  - split; [auto|]. intros [->|]; assumption.
  - rewrite elem_of_app, list_elem_of_singleton. tauto.
Qed.

Lemma collected_kept {A} `{EqDecision A} (idOf : Obj → option A) records : ∀ acc x,
  x ∈ acc →
  x ∈ fold_left (fun ids record => match idOf record with
                                   | Some i => setAdd i ids
                                   | None => ids
                                   end) records acc.
Proof.
  induction records as [|r records IH]; intros acc x Hx; simpl; [assumption|].
  apply IH. destruct (idOf r); [|assumption]. apply elem_of_setAdd. now right.
Qed.

Lemma collected_elem {A} `{EqDecision A} (idOf : Obj → option A) records : ∀ acc r x,
  r ∈ records → idOf r = Some x →
  x ∈ fold_left (fun ids record => match idOf record with
                                   | Some i => setAdd i ids
                                   | None => ids
                                   end) records acc.
Proof.
  induction records as [|r0 records IH]; intros acc r x Hr Hx; simpl.
  - inversion Hr.
  - apply elem_of_cons in Hr as [->|Hr].
    + apply collected_kept. rewrite Hx. apply elem_of_setAdd. now left.
    + eapply IH; eassumption.
Qed.

Lemma isNil_true {A} (l : list A) : isNil l = true → l = [].
Proof. destruct l; [reflexivity | discriminate]. Qed.

Lemma collectEmployeeIds_nil records r :
  isNil (collectEmployeeIds records) = true → r ∈ records → employeeIdOf r = None.
Proof.
  intros Hnil Hr. apply isNil_true in Hnil.
  destruct (employeeIdOf r) as [n|] eqn:Hn; [|reflexivity].
  pose proof (collected_elem employeeIdOf records [] r n Hr Hn) as Hin.
  fold (collectEmployeeIds records) in Hin. rewrite Hnil in Hin. inversion Hin.
Qed.

Lemma collectUserIds_nil records r :
  isNil (collectUserIds records) = true → r ∈ records → assigneeIdOf r = None.
Proof.
  intros Hnil Hr. apply isNil_true in Hnil.
  destruct (assigneeIdOf r) as [u|] eqn:Hu; [|reflexivity].
  pose proof (collected_elem assigneeIdOf records [] r u Hr Hu) as Hin.
  fold (collectUserIds records) in Hin. rewrite Hnil in Hin. inversion Hin.
Qed.

(** ** The tiers of the employee names *)

Lemma extractEmployeeName_cached cachedEmployee :
  extractEmployeeName (JObj [("fields", JObj cachedEmployee)]) =
    Ok (nameOfFields (JObj cachedEmployee)).
Proof. reflexivity. Qed.

(** The pass over the cache completes, and adds no name for an identifier
    that no cached employee has. *)
Lemma namesFromCache_Ok cached snapshot : ∀ names toFetch,
  ∃ names' toFetch',
    namesFromCache cached snapshot names toFetch = Ok (names', toFetch') ∧
    ∀ n, findCachedEmployee cached n = None → names' !! n = names !! n.
Proof.
  induction snapshot as [|empId rest IH]; intros names toFetch; cbn [namesFromCache].
  - eauto.
  - destruct (findCachedEmployee cached empId) as [emp|] eqn:Hfind; [|apply IH].
    rewrite extractEmployeeName_cached. cbn [obind].
    destruct (Js.truthy (nameOfFields (JObj emp))); [|apply IH].
    destruct (IH (<[empId := nameOfFields (JObj emp)]> names) (setDelete empId toFetch))
      as (names' & toFetch' & Hrun & Hkeep).
    exists names', toFetch'. split; [assumption|].
    intros n Hn. rewrite (Hkeep n Hn). apply lookup_insert_ne. congruence.
Qed.

Lemma item_request_fails P n siteId listId w :
  noItemFetched P n →
  ∃ e w', makeGraphRequest P (itemEndpoint siteId listId n) noOptions w = (Throw e, w').
Proof.
  intros Hno. destruct (bearerOf (svc w)) as [token|] eqn:Hb.
  - rewrite (makeGraphRequest_authenticated _ _ _ _ _ Hb).
    destruct (fetch P (log w) _) as [v| |] eqn:Hf; simpl; eauto.
    now apply Hno in Hf.
  - rewrite (makeGraphRequest_unauthenticated _ _ _ _ Hb). eauto.
Qed.

Lemma fromAccessCards_total P siteId empId w :
  ∃ step w', fromAccessCards P siteId empId w = (Ok step, w').
Proof.
  unfold fromAccessCards, catch.
  match goal with |- context [match ?m w with _ => _ end] => destruct (m w) as [[step|e] w'] end;
    eauto.
Qed.

Lemma fromAccessCards_none P siteId n w :
  noItemFetched P n →
  ∃ w', fromAccessCards P siteId n w = (Ok (Continue None), w').
Proof.
  intros Hno. unfold fromAccessCards. monad.
  destruct (getListId P "Access Cards" w) as [[listId|e] w1]; [|eauto].
  destruct (item_request_fails P n siteId listId w1 Hno) as (e & w2 & ->). eauto.
Qed.

Lemma fetchEmployeeName_total P siteId listId empId w :
  ∃ name w', fetchEmployeeName P siteId listId empId w = (Ok name, w').
Proof.
  unfold fetchEmployeeName, catch.
  match goal with |- context [match ?m w with _ => _ end] => destruct (m w) as [[name|e] w'] end;
    eauto.
Qed.

Lemma fromEmployeesList_none P siteId listId n w :
  noItemFetched P n →
  ∃ w', fromEmployeesList P siteId listId n w = (Ok JNull, w').
Proof.
  intros Hno. unfold fromEmployeesList.
  destruct (Js.truthy listId); [|unfold ret; eauto].
  unfold catch.
  destruct (item_request_fails P n siteId listId w Hno) as (e & w1 & ->).
  unfold ret. eauto.
Qed.

Lemma fetchEmployeeName_none P siteId listId n w :
  noItemFetched P n →
  ∃ w', fetchEmployeeName P siteId listId n w = (Ok None, w').
Proof.
  intros Hno. unfold fetchEmployeeName. unfold catch at 1. unfold bind at 1.
  destruct (fromEmployeesList_none P siteId listId n w Hno) as [w1 ->].
  unfold bind at 1. change (negb (Js.truthy JNull)) with true. cbv iota.
  destruct (fromAccessCards_none P siteId n w1 Hno) as [w2 ->].
  unfold ret. eauto.
Qed.

(** The fetch loop completes, and adds no name for an identifier whose
    item cannot be fetched. *)
Lemma fetchEmployeeNames_Ok P siteId listId ids : ∀ names w,
  ∃ names' w',
    fetchEmployeeNames P siteId listId ids names w = (Ok names', w') ∧
    ∀ n, noItemFetched P n → names' !! n = names !! n.
Proof.
  induction ids as [|empId rest IH]; intros names w; simpl; monad.
  - eauto.
  - destruct (fetchEmployeeName_total P siteId listId empId w) as (name & w1 & Hstep).
    rewrite Hstep.
    destruct (IH (match name with Some n => <[empId := n]> names | None => names end) w1)
      as (names' & w' & Hrun & Hkeep).
    exists names', w'. split; [assumption|].
    intros n Hno. rewrite (Hkeep n Hno).
    destruct name as [v|]; [|reflexivity].
    apply lookup_insert_ne. intros ->.
    destruct (fetchEmployeeName_none P siteId listId n w Hno) as [w2 Hnone]. congruence.
Qed.

Lemma populateEmployee_none names record :
  employeeIdOf record = None → populateEmployee names record = record.
Proof. intros H. unfold populateEmployee. now rewrite H. Qed.



(** Without an expanded first record, the resolution completes and leaves
    every record as [populateEmployee] makes it, for a map of names that
    holds nothing for an identifier that is neither cached nor fetched. *)
Lemma resolveEmployeeNames_by_id P first rest siteId cachedEmployees w :
  Js.isInline (Js.field first "Employee") = false →
  ∃ names w',
    resolveEmployeeNames P (first :: rest) siteId cachedEmployees w =
      (Ok (map (populateEmployee names) (first :: rest)), w') ∧
    ∀ n, notCached cachedEmployees n → noItemFetched P n → names !! n = None.
Proof.
  intros Hfirst. unfold resolveEmployeeNames. rewrite Hfirst.
  set (records := first :: rest).
  destruct (isNil (collectEmployeeIds records)) eqn:Hnil.
  { exists ∅, w. split; [|intros; apply lookup_empty].
    unfold ret. do 2 f_equal. symmetry. rewrite <- (map_id records) at 2.
    apply map_ext_in. intros r Hr. apply populateEmployee_none.
    eapply collectEmployeeIds_nil; [exact Hnil|]. now apply list_elem_of_In. }
  assert (Hcache : ∃ names1 rest1,
    match cachedEmployees with
    | Some ((_ :: _) as cached) =>
        namesFromCache cached (collectEmployeeIds records) ∅ (collectEmployeeIds records)
    | _ => Ok (∅, collectEmployeeIds records)
    end = Ok (names1, rest1) ∧
    ∀ n, notCached cachedEmployees n → names1 !! n = None).
  { destruct cachedEmployees as [[|c cs]|].
    - exists ∅, (collectEmployeeIds records). split; [reflexivity|]. intros; apply lookup_empty.
    - destruct (namesFromCache_Ok (c :: cs) (collectEmployeeIds records) ∅
                  (collectEmployeeIds records)) as (names1 & rest1 & Hrun & Hkeep).
      exists names1, rest1. split; [assumption|].
      intros n Hn. rewrite (Hkeep n Hn). apply lookup_empty.
    - exists ∅, (collectEmployeeIds records). split; [reflexivity|]. intros; apply lookup_empty. }
  destruct Hcache as (names1 & rest1 & -> & Hnames1). monad. cbn [fst snd].
  destruct (isNil rest1).
  { exists names1, w. split; [reflexivity|]. auto. }
  destruct (getListId P "Employees" w) as [[listId|e] w1];
    [destruct (fetchEmployeeNames_Ok P siteId listId rest1 names1 w1)
       as (names2 & w2 & -> & Hkeep)
    |destruct (fetchEmployeeNames_Ok P siteId JNull rest1 names1 w1)
       as (names2 & w2 & -> & Hkeep)];
    exists names2, w2; (split; [reflexivity|]);
    intros n Hc Hf; rewrite (Hkeep n Hf); auto.
Qed.

(** ** The tiers of the assignee names *)

Lemma userNameRemote_total P userId w :
  ∃ name w', userNameRemote P userId w = (Ok name, w').
Proof.
  unfold userNameRemote. destruct (Str.matchGuid userId); [|unfold ret; eauto].
  unfold catch.
  match goal with |- context [match ?m w with _ => _ end] => destruct (m w) as [[name|e] w'] end;
    unfold ret; eauto.
Qed.

Lemma userNameRemote_none P userId w :
  noUserFetched P userId →
  ∃ w', userNameRemote P userId w = (Ok None, w').
Proof.
  intros Hno. unfold userNameRemote. destruct (Str.matchGuid userId); [|unfold ret; eauto].
  unfold catch. unfold bind at 1.
  destruct (bearerOf (svc w)) as [token|] eqn:Hb.
  - rewrite (makeGraphRequest_authenticated _ _ _ _ _ Hb).
    destruct (fetch P (log w) _) as [v| |] eqn:Hf; simpl; unfold ret; eauto.
    now apply Hno in Hf.
  - rewrite (makeGraphRequest_unauthenticated _ _ _ _ Hb). unfold ret. eauto.
Qed.

Lemma fetchUserName_total P records cachedEmployees userId w :
  ∃ name w', fetchUserName P records cachedEmployees userId w = (Ok name, w').
Proof.
  unfold fetchUserName, catch.
  match goal with |- context [match ?m w with _ => _ end] => destruct (m w) as [[name|e] w'] end;
    unfold ret; eauto.
Qed.

Lemma fetchUserName_none P records cachedEmployees userId w :
  userNameInline records userId = None →
  userNameCached cachedEmployees userId = None →
  noUserFetched P userId →
  ∃ w', fetchUserName P records cachedEmployees userId w = (Ok None, w').
Proof.
  intros Hinline Hcached Hno. unfold fetchUserName, catch. rewrite Hinline, Hcached.
  destruct (userNameRemote_none P userId w Hno) as [w' ->]. eauto.
Qed.

(** The fetch loop completes, and adds no name for an identifier that no
    tier resolves. *)
Lemma fetchUserNames_Ok P records cachedEmployees ids : ∀ names w,
  ∃ names' w',
    fetchUserNames P records cachedEmployees ids names w = (Ok names', w') ∧
    ∀ userId,
      userNameInline records userId = None →
      userNameCached cachedEmployees userId = None →
      noUserFetched P userId →
      names' !! userId = names !! userId.
Proof.
  induction ids as [|userId rest IH]; intros names w; simpl; monad.
  - eauto.
  - destruct (fetchUserName_total P records cachedEmployees userId w) as (name & w1 & Hstep).
    rewrite Hstep.
    destruct (IH (match name with Some n => <[userId := n]> names | None => names end) w1)
      as (names' & w' & Hrun & Hkeep).
    exists names', w'. split; [assumption|].
    intros u Hi Hc Hno. rewrite (Hkeep u Hi Hc Hno).
    destruct name as [v|]; [|reflexivity].
    apply lookup_insert_ne. intros ->.
    destruct (fetchUserName_none P records cachedEmployees u w Hi Hc Hno) as [w2 Hnone].
    congruence.
Qed.

Lemma populateAssignee_none names record :
  assigneeIdOf record = None → populateAssignee names record = record.
Proof. intros H. unfold populateAssignee. now rewrite H. Qed.



(** The resolution of the assignees completes and leaves every record as
    [populateAssignee] makes it, for a map of names that holds nothing
    for an identifier that no tier resolves. *)
Lemma resolveAssigneeNames_by_id P records cachedEmployees w :
  ∃ names w',
    resolveAssigneeNames P records cachedEmployees w =
      (Ok (map (populateAssignee names) records), w') ∧
    ∀ userId,
      userNameInline records userId = None →
      userNameCached cachedEmployees userId = None →
      noUserFetched P userId →
      names !! userId = None.
Proof.
  unfold resolveAssigneeNames.
  destruct (isNil (collectUserIds records)) eqn:Hnil.
  { exists ∅, w. split; [|intros; apply lookup_empty].
    unfold ret. do 2 f_equal. symmetry. rewrite <- (map_id records) at 2.
    apply map_ext_in. intros r Hr. apply populateAssignee_none.
    eapply collectUserIds_nil; [exact Hnil|]. now apply list_elem_of_In. }
  monad.
  destruct (fetchUserNames_Ok P records cachedEmployees (collectUserIds records) ∅ w)
    as (names & w' & -> & Hkeep).
  exists names, w'. split; [reflexivity|].
  intros u Hi Hc Hno. rewrite (Hkeep u Hi Hc Hno). apply lookup_empty.
Qed.

(** ** Placeholders and the invariant of the resolution *)



(** ** The resolution on sample records *)


(** A display name that matches [/^HPH\s?\d+/] is not taken either. *)
Example inline_staff_number_is_skipped :
  resolveEmployeeNames Sample.offline [Cards.numbered] "site-1" None Sample.signedIn =
    (Ok [Cards.numbered], Sample.signedIn).
Proof. reflexivity. Qed.









(** A cached employee resolves the reference without a request for the
    item. *)
Example cached_employee_resolves :
  fst (resolveEmployeeNames Sample.offline
         [[("Title", JStr "Card 5"); ("EmployeeLookupId", JStr "7")]] "site-1"
         (Some Cards.employees) Sample.signedIn) =
    Ok [[("Title", JStr "Card 5"); ("EmployeeLookupId", JStr "7");
         ("Employee", JStr "John Smith"); ("EmployeeName", JStr "John Smith")]].
Proof. reflexivity. Qed.

(** ** Operations after a logout *)

(** The operations that catch their failures return their empty result
    instead: [getAllUsers] gives no users, and sends nothing. *)
Lemma getAllUsers_unauthenticated P w :
  bearerOf (svc w) = None → getAllUsers P w = (Ok [], w).
Proof.
  intros Hb. unfold getAllUsers, catch. change maxPages with (S 49).
  rewrite usersLoop_S. unfold bind at 1. unfold lift at 1. cbn [pageEndpoint Js.truthy].
  unfold bind at 1. now rewrite (makeGraphRequest_unauthenticated _ _ _ _ Hb).
Qed.

(** An update fails before anything is sent: with the authentication
    error or, when the site address does not parse, with the TypeError of
    [new URL]. *)
Lemma updateRecord_unauthenticated P listName itemId fields w :
  bearerOf (svc w) = None →
  ∃ e, updateRecord P listName itemId fields w = (Throw e, w) ∧
       (e = Error notAuthenticated ∨ e = TypeError).
Proof.
  intros Hb.
  assert (Hsite : ∃ out, getSiteId P w = (out, w) ∧
            ((∃ i, out = Ok i) ∨ out = Throw (Error notAuthenticated) ∨ out = Throw TypeError)).
  { unfold getSiteId. monad. destruct (cachedSiteId (svc w)); [eauto 6|].
    destruct (parseURL P (siteUrl (svc w))) as [[hostname pathname]|]; [|eauto 6].
    rewrite (makeGraphRequest_unauthenticated _ _ _ _ Hb). eauto 6. }
  destruct Hsite as (out & Hsite & Hout).
  unfold updateRecord. unfold bind at 1.
  destruct (listIdCache (svc w) !! listName) as [id|] eqn:Hc.
  - rewrite (getListId_hit _ _ _ _ Hc). unfold bind at 1. rewrite Hsite.
    destruct Hout as [[i ->]|[->| ->]]; eauto.
    rewrite (makeGraphRequest_unauthenticated _ _ _ _ Hb). eauto.
  - rewrite (getListId_miss _ _ _ Hc), Hsite.
    destruct Hout as [[i ->]|[->| ->]]; eauto.
    rewrite Hb. eauto.
Qed.

(** ** Expanded assignees *)


Example expanded_assignee_sample :
  resolveAssigneeNames Sample.offline
    [[("field_2LookupId", JNum 42); ("field_2", Cards.jane)]] None Sample.signedIn =
    (Ok [[("field_2LookupId", JNum 42); ("field_2", Cards.jane);
          ("Assignee", JStr "Jane Doe"); ("AssigneeName", JStr "Jane Doe")]],
     Sample.signedIn).
Proof. reflexivity. Qed.






(** For the assets C1 as stated fails in its own ways.  An expanded
    [field_2] is not read on a record without [field_2LookupId]. *)
Example expanded_assignee_needs_lookup_id :
  resolveAssigneeNames Sample.offline [[("Title", JStr "Laptop-02"); ("field_2", Cards.jane)]]
    None Sample.signedIn =
    (Ok [[("Title", JStr "Laptop-02"); ("field_2", Cards.jane)]], Sample.signedIn).
Proof. reflexivity. Qed.

(** And the directory is asked for a GUID when the first record that
    refers to it carries no name, though a later one does. *)
Example expanded_assignee_behind_unexpanded :
  let guid := "0a1b2c3d-0000-4000-8000-0123456789ab" in
  resolveAssigneeNames Sample.offline
    [[("field_2LookupId", JStr guid)];
     [("field_2LookupId", JStr guid); ("field_2", Cards.jane)]] None Sample.signedIn =
    (Ok [[("field_2LookupId", JStr guid); ("Assignee", placeholder guid)];
         [("field_2LookupId", JStr guid); ("field_2", Cards.jane);
          ("Assignee", JStr "Jane Doe"); ("AssigneeName", JStr "Jane Doe")]],
     sent Sample.signedIn (graphRequest "token" ("users/" +:+ guid) noOptions)).
Proof. reflexivity. Qed.

(** * Further properties of the service *)

(** ** Signing in *)

Lemma authenticate_Ok_inv P w token w' :
  authenticate P w = (Ok token, w') → authenticateBody P w = (Ok token, w').
Proof.
  unfold authenticate, catch, throw.
  destruct (authenticateBody P w) as [[t|[m|]] w0]; [auto| |discriminate].
  destruct (Str.isEmpty m); discriminate.
Qed.

Lemma authenticate_Throw_inv P w e w' :
  authenticate P w = (Throw e, w') →
  (∃ e0, authenticateBody P w = (Throw e0, w')) ∧
  (e = TypeError ∨ ∃ message, e = Error message ∧ message ≠ EmptyString).
Proof.
  unfold authenticate, catch, throw.
  destruct (authenticateBody P w) as [[t|[m|]] w0]; [discriminate| |].
  - destruct (Str.isEmpty m) eqn:Hm; intros [= <- <-]; (split; [eauto|]); right.
    + eexists. split; [reflexivity | discriminate].
    + exists m. split; [reflexivity | now apply isEmpty_false].
  - intros [= <- <-]. split; [eauto | now left].
Qed.

(** X1. A successful [authenticate()] was configured, returns a non-empty
    token and stores it, forgets the site identifier and empties the
    cache of list identifiers, and has sent exactly the prompt and the
    code exchange, both with the same redirect URI and with PKCE. *)
Theorem authenticate_success (P : Platform) (w w' : World) (token : string) :
  authenticate P w = (Ok token, w') →
  ¬ unconfigured (svc w) ∧
  token ≠ EmptyString ∧
  accessToken (svc w') = Some token ∧
  siteId (svc w') = None ∧
  listIdCache (svc w') = ∅ ∧
  sharePointRoot (svc w') = Str.splitHead (siteUrl (svc w)) "/sites/" ∧
  ∃ request exchange,
    log w' = log w ++ [Prompt request (discoveryFor (tenantId (svc w)));
                       Exchange exchange (discoveryFor (tenantId (svc w)))] ∧
    ar_usePKCE request = true ∧
    ar_clientId request = clientId (svc w) ∧
    te_redirectUri exchange = ar_redirectUri request ∧
    te_code exchange ≠ EmptyString.
Proof.
  intros H. apply authenticate_Ok_inv in H. revert H.
  unfold authenticateBody. monad.
  destruct (Str.isEmpty (clientId (svc w)) || (clientId (svc w) =? "YOUR_CLIENT_ID_HERE")%string)
    eqn:Hc; [discriminate|].
  destruct (Str.isEmpty (tenantId (svc w)) || (tenantId (svc w) =? "YOUR_TENANT_ID_HERE")%string)
    eqn:Ht; [discriminate|].
  cbv beta iota. cbn [svc log].
  destruct (promptAsync P (log w) _ _) as [[code|error| |type]|e]; cbv beta iota; cbn [svc log];
    try discriminate.
  2:{ match goal with |- context [if ?b then _ else _] => destruct b end; discriminate. }
  destruct (Str.isEmpty code) eqn:Hcode; [discriminate|].
  cbv beta iota. cbn [svc log].
  destruct (exchangeCodeAsync P _ _ _) as [tok|e]; cbv beta iota; cbn [svc log];
    [|discriminate].
  destruct (Str.isEmpty tok) eqn:Htok; [discriminate|].
  intros [= <- <-]. cbn [svc log].
  apply orb_false_iff in Hc as [Hc1 Hc2], Ht as [Ht1 Ht2].
  apply isEmpty_false in Hc1, Ht1, Htok, Hcode. apply String.eqb_neq in Hc2, Ht2.
  split.
  { unfold unconfigured, placeholderClientId, placeholderTenantId. intuition congruence. }
  repeat (split; [first [assumption | reflexivity]|]).
  eexists _, _. split; [rewrite <- app_assoc; reflexivity|].
  repeat split; assumption.
Qed.

(** X2. A failed [authenticate()] keeps the session: the token, the site
    identifier and the cache of list identifiers are those of before.
    The error it throws carries a non-empty message, and no request to
    the API was sent. *)
Theorem authenticate_failure_keeps_session (P : Platform) (w w' : World) (e : Exn) :
  authenticate P w = (Throw e, w') →
  accessToken (svc w') = accessToken (svc w) ∧
  siteId (svc w') = siteId (svc w) ∧
  listIdCache (svc w') = listIdCache (svc w) ∧
  (e = TypeError ∨ ∃ message, e = Error message ∧ message ≠ EmptyString) ∧
  ∃ evs, log w' = log w ++ evs ∧ Forall (fun ev => ∀ r, ev ≠ Fetch r) evs.
Proof.
  intros H. apply authenticate_Throw_inv in H as [[e0 H] Hmsg]. revert H.
  assert (Hnil : ∀ l : list Event,
            ∃ evs, l = l ++ evs ∧ Forall (fun ev => ∀ r, ev ≠ Fetch r) evs).
  { intros l. exists []. rewrite app_nil_r. auto. }
  assert (Hone : ∀ ev l, (∀ r, ev ≠ Fetch r) →
            ∃ evs, l ++ [ev] = l ++ evs ∧ Forall (fun ev => ∀ r, ev ≠ Fetch r) evs).
  { intros ev l Hev. exists [ev]. split; [reflexivity|]. repeat constructor. exact Hev. }
  assert (Htwo : ∀ ev1 ev2 l, (∀ r, ev1 ≠ Fetch r) → (∀ r, ev2 ≠ Fetch r) →
            ∃ evs, (l ++ [ev1]) ++ [ev2] = l ++ evs ∧
                   Forall (fun ev => ∀ r, ev ≠ Fetch r) evs).
  { intros ev1 ev2 l H1 H2. exists [ev1; ev2]. rewrite <- app_assoc.
    split; [reflexivity|]. repeat constructor; assumption. }
  unfold authenticateBody. monad.
  destruct (Str.isEmpty (clientId (svc w)) || (clientId (svc w) =? "YOUR_CLIENT_ID_HERE")%string).
  { intros [= <- <-]. repeat split; auto. }
  destruct (Str.isEmpty (tenantId (svc w)) || (tenantId (svc w) =? "YOUR_TENANT_ID_HERE")%string).
  { intros [= <- <-]. repeat split; auto. }
  cbv beta iota. cbn [svc log].
  destruct (promptAsync P (log w) _ _) as [[code|error| |type]|x]; cbv beta iota; cbn [svc log].
  - destruct (Str.isEmpty code).
    { intros [= <- <-]. cbn [svc log]. repeat split; auto; try (apply Hone; discriminate). }
    cbv beta iota. cbn [svc log].
    destruct (exchangeCodeAsync P _ _ _) as [tok|x]; cbv beta iota; cbn [svc log].
    + destruct (Str.isEmpty tok); [|discriminate].
      intros [= <- <-]. cbn [svc log]. repeat split; auto; try (apply Htwo; discriminate).
    + intros [= <- <-]. cbn [svc log]. repeat split; auto; try (apply Htwo; discriminate).
  - match goal with |- context [if ?b then _ else _] => destruct b end;
      intros [= <- <-]; cbn [svc log]; (repeat split; auto); try (apply Hone; discriminate).
  - intros [= <- <-]. cbn [svc log]. repeat split; auto; try (apply Hone; discriminate).
  - intros [= <- <-]. cbn [svc log]. repeat split; auto; try (apply Hone; discriminate).
  - intros [= <- <-]. cbn [svc log]. repeat split; auto; try (apply Hone; discriminate).
Qed.

Lemma authenticate_success_sample :
  let w' := snd (authenticate Login.expoGo Login.warm) in
  accessToken (svc w') = Some "token-1" ∧
  siteId (svc w') = None ∧
  listIdCache (svc w') = ∅.
Proof.
  destruct (authenticate_success Login.expoGo Login.warm
              (snd (authenticate Login.expoGo Login.warm)) "token-1" eq_refl)
    as (_ & _ & Htoken & Hsite & Hcache & _).
  repeat split; assumption.
Defined.

Lemma authenticate_failure_sample :
  let w' := snd (authenticate Sample.tenant Login.warm) in
  accessToken (svc w') = accessToken (svc Login.warm) ∧
  siteId (svc w') = siteId (svc Login.warm) ∧
  listIdCache (svc w') = listIdCache (svc Login.warm).
Proof.
  destruct (authenticate_failure_keeps_session Sample.tenant Login.warm
              (snd (authenticate Sample.tenant Login.warm))
              (Error "Authentication cancelled by user") eq_refl)
    as (Htoken & Hsite & Hcache & _).
  repeat split; assumption.
Defined.

(** ** The redirect URI *)

Lemma span_until_slash host rest :
  Str.all (fun c => negb (Ascii.eqb c "/")) host = true →
  rest = EmptyString ∨ (∃ tail, rest = String "/" tail) →
  Str.span (fun c => negb (Ascii.eqb c "/")) (host +:+ rest) = (host, rest).
Proof.
  intros Hhost Hrest. induction host as [|c host IH]; simpl.
  - destruct Hrest as [->|[tail ->]]; reflexivity.
  - simpl in Hhost. apply andb_true_iff in Hhost as [Hc Hhost].
    rewrite Hc, (IH Hhost). reflexivity.
Qed.

(** X3. Outside Expo Go, where the URI made for the custom scheme does
    not start with [exp://], that URI is used as it is, whatever the
    default URI is.  In Expo Go the redirect URI is brought to its base
    form: when the default URI is [exp://host] followed by nothing or by
    a path, the URI used is [exp://host/]. *)
Theorem redirectUri_base_form (P : Platform) :
  (Str.startsWith (makeRedirectUri P (Some ("employee-assets", "auth"))) "exp://" = false →
   redirectUriOf P = makeRedirectUri P (Some ("employee-assets", "auth"))) ∧
  (∀ host rest,
     Str.startsWith (makeRedirectUri P (Some ("employee-assets", "auth"))) "exp://" = true →
     host ≠ EmptyString →
     Str.all (fun c => negb (Ascii.eqb c "/")) host = true →
     rest = EmptyString ∨ (∃ tail, rest = String "/" tail) →
     makeRedirectUri P None = "exp://" +:+ host +:+ rest →
     redirectUriOf P = "exp://" +:+ host +:+ "/").
Proof.
  unfold redirectUriOf. split; [now intros ->|].
  intros host rest -> Hne Hhost Hrest Hdefault.
  rewrite Hdefault.
  assert (Hincl : Str.includes ("exp://" +:+ host +:+ rest) "://" = true).
  { generalize (host +:+ rest). intros [|? ?]; reflexivity. }
  assert (Hexp : Str.startsWith ("exp://" +:+ host +:+ rest) "exp://" = true).
  { generalize (host +:+ rest). intros [|? ?]; reflexivity. }
  rewrite Hincl. unfold Str.matchExpBase. rewrite Hexp.
  change (Str.drop 6 ("exp://" +:+ host +:+ rest)) with (host +:+ rest).
  rewrite (span_until_slash _ _ Hhost Hrest).
  apply isEmpty_false in Hne. rewrite Hne. reflexivity.
Qed.

Lemma redirectUri_base_form_sample :
  redirectUriOf Sample.tenant = "employee-assets://auth" ∧
  redirectUriOf Login.expoGo = "exp://192.168.9.142:8081/".
Proof.
  split.
  - apply (proj1 (redirectUri_base_form Sample.tenant)). reflexivity.
  - apply (proj2 (redirectUri_base_form Login.expoGo) "192.168.9.142:8081" EmptyString).
    + reflexivity.
    + discriminate.
    + reflexivity.
    + now left.
    + reflexivity.
Defined.

(** ** Memoized identifiers *)

(** X4. A site identifier that [getSiteId] returned is memoized when it
    is not the empty string: the next call returns it and sends nothing.
    An empty identifier (the text of a truthy [id] such as [[]]) is
    stored but never reused. *)
Theorem getSiteId_memoized (P : Platform) (w w1 : World) (i : string) :
  getSiteId P w = (Ok i, w1) →
  (i ≠ EmptyString → getSiteId P w1 = (Ok i, w1)) ∧
  (i = EmptyString → cachedSiteId (svc w1) = None).
Proof.
  intros H. apply getSiteId_Ok_inv in H as [[Hc ->]|(Hc & token & r & _ & _ & ->)].
  - split.
    + intros _. now apply getSiteId_cached.
    + intros ->. unfold cachedSiteId in Hc. destruct (siteId (svc w)) as [j|]; [|discriminate].
      destruct (Str.isEmpty j) eqn:E; [discriminate|]. injection Hc as ->. discriminate.
  - cbn [svc]. split.
    + intros Hne. apply getSiteId_cached. cbn [svc]. rewrite cachedSiteId_withSiteId.
      apply isEmpty_false in Hne. now rewrite Hne.
    + intros ->. reflexivity.
Qed.

Lemma getSiteId_memoized_sample :
  let w1 := snd (getSiteId Sample.tenant Sample.signedIn) in
  getSiteId Sample.tenant w1 = (Ok "site-1", w1).
Proof.
  apply (getSiteId_memoized Sample.tenant Sample.signedIn _ "site-1" eq_refl). discriminate.
Defined.

(** X5. [getListId] touches the cache of list identifiers at the
    requested name only: every other entry is kept, a failure leaves the
    cache as it was, and after a success the name maps to the identifier
    returned.  The token is never changed. *)
Theorem getListId_cache_frame (P : Platform) (listName : string) (w w' : World)
    (out : Outcome JsVal) :
  getListId P listName w = (out, w') →
  (∀ other, other ≠ listName →
            listIdCache (svc w') !! other = listIdCache (svc w) !! other) ∧
  (∀ e, out = Throw e → listIdCache (svc w') = listIdCache (svc w)) ∧
  (∀ id, out = Ok id → listIdCache (svc w') !! listName = Some id) ∧
  accessToken (svc w') = accessToken (svc w).
Proof.
  destruct (listIdCache (svc w) !! listName) as [id0|] eqn:Hc.
  { rewrite (getListId_hit _ _ _ _ Hc). intros [= <- <-].
    repeat split; auto; try discriminate. intros id [= <-]. exact Hc. }
  rewrite (getListId_miss _ _ _ Hc).
  assert (Hsite : ∀ o w1, getSiteId P w = (o, w1) →
            listIdCache (svc w1) = listIdCache (svc w) ∧
            accessToken (svc w1) = accessToken (svc w)).
  { intros o w1. unfold getSiteId. monad.
    destruct (cachedSiteId (svc w)); [intros [= <- <-]; auto|].
    destruct (parseURL P (siteUrl (svc w))) as [[hostname pathname]|];
      [|intros [= <- <-]; auto].
    destruct (makeGraphRequest P _ noOptions w) as [[data|e] w2] eqn:Hreq;
      apply makeGraphRequest_world in Hreq as [Hs _].
    2:{ intros [= <- <-]. now rewrite Hs. }
    destruct (Js.get data "id") as [id|e]; [|intros [= <- <-]; now rewrite Hs].
    destruct (Js.truthy id); simpl; intros [= <- <-]; simpl; now rewrite Hs. }
  destruct (getSiteId P w) as [[siteId|e] w1] eqn:Hs;
    destruct (Hsite _ _ eq_refl) as [Hcache Htoken].
  2:{ intros [= <- <-]. rewrite Hcache, Htoken. repeat split; auto; discriminate. }
  destruct (bearerOf (svc w1)) as [token|].
  2:{ intros [= <- <-]. rewrite Hcache, Htoken. repeat split; auto; discriminate. }
  destruct (obind _ _) as [id|e]; intros [= <- <-]; cbn [svc listed sent listIdCache
    withListIdCache accessToken]; rewrite ?Hcache, ?Htoken.
  - repeat split; auto; try discriminate.
    + intros other Hne. now apply lookup_insert_ne.
    + intros id' [= <-]. apply lookup_insert_eq.
  - repeat split; auto; discriminate.
Qed.

Lemma getListId_cache_frame_sample :
  let w' := snd (getListId Sample.tenant "Employees" Login.warm) in
  listIdCache (svc w') !! "Assets" = listIdCache (svc Login.warm) !! "Assets" ∧
  listIdCache (svc w') !! "Employees" = Some (JStr "list-employees").
Proof.
  destruct (getListId_cache_frame Sample.tenant "Employees" Login.warm
              (snd (getListId Sample.tenant "Employees" Login.warm))
              (Ok (JStr "list-employees")) eq_refl) as (Hother & _ & Hok & _).
  split; [apply Hother; discriminate | now apply Hok].
Defined.

(** ** Methods that only read *)

Lemma readsOnly_stay {A} (out : Outcome A) : readsOnly (fun w => (out, w)).
Proof.
  intros w out' w' [= <- <-]. split; [reflexivity|].
  exists []. now rewrite app_nil_r.
Qed.

Lemma readsOnly_ret {A} (a : A) : readsOnly (ret a).
Proof. apply readsOnly_stay. Qed.

Lemma readsOnly_throw {A} (e : Exn) : readsOnly (@throw A e).
Proof. apply readsOnly_stay. Qed.

Lemma readsOnly_lift {A} (o : Outcome A) : readsOnly (lift o).
Proof. apply readsOnly_stay. Qed.

Lemma readsOnly_bind {A B} (m : M A) (k : A → M B) :
  readsOnly m → (∀ a, readsOnly (k a)) → readsOnly (bind m k).
Proof.
  intros Hm Hk w out w'. unfold bind.
  destruct (m w) as [[a|e] w1] eqn:Hrun; destruct (Hm _ _ _ Hrun) as (Ht1 & evs1 & Hl1 & Hr1).
  - intros Hrest. destruct (Hk _ _ _ _ Hrest) as (Ht2 & evs2 & Hl2 & Hr2).
    split; [congruence|]. exists (evs1 ++ evs2).
    rewrite Hl2, Hl1, <- app_assoc. split; [reflexivity | now apply Forall_app].
  - intros [= <- <-]. eauto.
Qed.

Lemma readsOnly_catch {A} (m : M A) (h : Exn → M A) :
  readsOnly m → (∀ e, readsOnly (h e)) → readsOnly (catch m h).
Proof.
  intros Hm Hh w out w'. unfold catch.
  destruct (m w) as [[a|e] w1] eqn:Hrun; destruct (Hm _ _ _ Hrun) as (Ht1 & evs1 & Hl1 & Hr1).
  - intros [= <- <-]. eauto.
  - intros Hrest. destruct (Hh _ _ _ _ Hrest) as (Ht2 & evs2 & Hl2 & Hr2).
    split; [congruence|]. exists (evs1 ++ evs2).
    rewrite Hl2, Hl1, <- app_assoc. split; [reflexivity | now apply Forall_app].
Qed.

Lemma readsOnly_makeGraphRequest P endpoint : readsOnly (makeGraphRequest P endpoint noOptions).
Proof.
  intros w out w' H. apply makeGraphRequest_reads in H as (Hs & evs & Hl & Hr).
  rewrite Hs. eauto.
Qed.

Lemma readsOnly_getSiteId P : readsOnly (getSiteId P).
Proof.
  intros w out w' H. split; [|apply getSiteId_reads in H as (_ & H); exact H].
  revert H. unfold getSiteId. monad.
  destruct (cachedSiteId (svc w)); [now intros [= <- <-]|].
  destruct (parseURL P (siteUrl (svc w))) as [[hostname pathname]|]; [|now intros [= <- <-]].
  destruct (makeGraphRequest P _ noOptions w) as [[data|e] w1] eqn:Hreq;
    apply makeGraphRequest_world in Hreq as [Hs _].
  2:{ intros [= <- <-]. now rewrite Hs. }
  destruct (Js.get data "id") as [id|e]; [|intros [= <- <-]; now rewrite Hs].
  destruct (Js.truthy id); simpl; intros [= <- <-]; simpl; now rewrite Hs.
Qed.

Lemma readsOnly_getListId P listName : readsOnly (getListId P listName).
Proof.
  intros w out w' H. split; [|apply getListId_reads in H; exact H].
  revert H. unfold getListId. monad.
  destruct (listIdCache (svc w) !! listName); [now intros [= <- <-]|].
  destruct (getSiteId P w) as [[siteId|e] w1] eqn:Hsite;
    apply readsOnly_getSiteId in Hsite as [Ht1 _].
  2:{ now intros [= <- <-]. }
  destruct (makeGraphRequest P _ noOptions w1) as [[data|e] w2] eqn:Hreq;
    apply makeGraphRequest_world in Hreq as [Hs _].
  2:{ intros [= <- <-]. now rewrite Hs. }
  destruct (resolveList listName data); simpl; intros [= <- <-]; simpl; now rewrite Hs.
Qed.

Create HintDb reads.

#[local] Hint Resolve readsOnly_ret readsOnly_throw readsOnly_lift readsOnly_makeGraphRequest
  readsOnly_getSiteId readsOnly_getListId : reads.

(** Splits a computation along its binds, handlers and case analyses. *)
Ltac reads :=
  repeat first
    [ progress auto with reads
    | apply readsOnly_bind; [|intros ?]
    | apply readsOnly_catch; [|intros ?]
    | match goal with
      | |- readsOnly (if ?b then _ else _) => destruct b
      | |- readsOnly (match ?x with _ => _ end) => destruct x
      end ].

Lemma readsOnly_fromAccessCards P siteId empId : readsOnly (fromAccessCards P siteId empId).
Proof. unfold fromAccessCards. reads. Qed.

Lemma readsOnly_fromEmployeesList P siteId listId empId :
  readsOnly (fromEmployeesList P siteId listId empId).
Proof. unfold fromEmployeesList. reads. Qed.

Lemma readsOnly_fetchEmployeeName P siteId listId empId :
  readsOnly (fetchEmployeeName P siteId listId empId).
Proof.
  unfold fetchEmployeeName.
  pose proof (readsOnly_fromAccessCards P siteId empId).
  pose proof (readsOnly_fromEmployeesList P siteId listId empId).
  reads.
Qed.

Lemma readsOnly_fetchEmployeeNames P siteId listId ids :
  ∀ names, readsOnly (fetchEmployeeNames P siteId listId ids names).
Proof.
  induction ids as [|empId rest IH]; intros names; simpl; [reads|].
  apply readsOnly_bind; [apply readsOnly_fetchEmployeeName | intros name; apply IH].
Qed.

Lemma readsOnly_resolveEmployeeNames P records siteId cachedEmployees :
  readsOnly (resolveEmployeeNames P records siteId cachedEmployees).
Proof.
  unfold resolveEmployeeNames.
  destruct records as [|firstRecord rest]; [reads|].
  destruct (Js.isInline _); [reads|].
  destruct (isNil _); [reads|].
  apply readsOnly_bind; [reads|]. intros fromCache.
  destruct (isNil _); [reads|].
  apply readsOnly_bind; [reads|]. intros employeesListId.
  apply readsOnly_bind; [apply readsOnly_fetchEmployeeNames | intros; reads].
Qed.

Lemma readsOnly_userNameRemote P userId : readsOnly (userNameRemote P userId).
Proof. unfold userNameRemote. reads. Qed.

Lemma readsOnly_fetchUserName P records cachedEmployees userId :
  readsOnly (fetchUserName P records cachedEmployees userId).
Proof.
  unfold fetchUserName. pose proof (readsOnly_userNameRemote P userId).
  apply readsOnly_catch; [|intros; reads].
  destruct (userNameInline records userId); [reads|].
  destruct (userNameCached cachedEmployees userId); [reads | assumption].
Qed.

Lemma readsOnly_fetchUserNames P records cachedEmployees ids :
  ∀ names, readsOnly (fetchUserNames P records cachedEmployees ids names).
Proof.
  induction ids as [|userId rest IH]; intros names; simpl; [reads|].
  apply readsOnly_bind; [apply readsOnly_fetchUserName | intros name; apply IH].
Qed.

Lemma readsOnly_resolveAssigneeNames P records cachedEmployees :
  readsOnly (resolveAssigneeNames P records cachedEmployees).
Proof.
  unfold resolveAssigneeNames. destruct (isNil _); [reads|].
  apply readsOnly_bind; [apply readsOnly_fetchUserNames | intros; reads].
Qed.

(** X6. [getRecords] only reads: whatever the list, the cached
    employees and the answers, and whether it returns or throws, every
    request it sends (for the site, the lists, the items and the names it
    resolves) has neither method nor body, and the token is kept. *)
Theorem getRecords_reads_only (P : Platform) (listName : string)
    (cachedEmployees : option (list Obj)) :
  readsOnly (getRecords P listName cachedEmployees).
Proof.
  unfold getRecords.
  pose proof (readsOnly_resolveEmployeeNames P) as Hemp.
  pose proof (readsOnly_resolveAssigneeNames P) as Hass.
  apply readsOnly_bind; [reads|]. intros listId.
  apply readsOnly_bind; [reads|]. intros siteId.
  apply readsOnly_bind; [reads|]. intros response.
  apply readsOnly_bind; [reads|]. intros items.
  apply readsOnly_bind; [reads|]. intros records.
  apply readsOnly_bind.
  - destruct (_ && _); [apply Hemp | reads].
  - intros records1. destruct (_ && _); [apply Hass | reads].
Qed.

(** ** Deleting and inserting *)

(** The site and list lookups that open a method that writes. *)
Lemma lookups_read P listName w :
  ∃ reads, Forall isRead reads ∧
    match getListId P listName w with
    | (Ok listId, w1) =>
        match getSiteId P w1 with
        | (Ok siteId, w2) =>
            log w2 = log w ++ reads ∧ accessToken (svc w2) = accessToken (svc w)
        | (Throw e, w2) => log w2 = log w ++ reads
        end
    | (Throw e, w1) => log w1 = log w ++ reads
    end.
Proof.
  destruct (getListId P listName w) as [[listId|e] w1] eqn:Hlist;
    apply readsOnly_getListId in Hlist as (Ht1 & evs1 & Hl1 & Hr1); [|eauto].
  destruct (getSiteId P w1) as [[siteId|e] w2] eqn:Hsite;
    apply readsOnly_getSiteId in Hsite as (Ht2 & evs2 & Hl2 & Hr2);
    exists (evs1 ++ evs2); (split; [now apply Forall_app|]);
    rewrite Hl2, Hl1, <- app_assoc; [split; congruence | reflexivity].
Qed.







(** ** The user listing, whatever the answers *)

Lemma readsOnly_usersLoop P fuel :
  ∀ nextLink pageCount allUsers, readsOnly (usersLoop P fuel nextLink pageCount allUsers).
Proof.
  induction fuel as [|fuel IH]; intros nextLink pageCount allUsers; [simpl; reads|].
  rewrite usersLoop_S.
  apply readsOnly_bind; [reads|]. intros endpoint.
  apply readsOnly_bind; [reads|]. intros response.
  apply readsOnly_bind; [reads|]. intros users.
  destruct (maxPages <=? S pageCount)%nat; [reads|].
  destruct (Js.truthy _); [apply IH | reads].
Qed.

(** X9. [getAllUsers] never throws and never loops for ever: whatever
    the directory answers, it returns a list after at most [maxPages]
    requests, all of them reads, and leaves the service as it was. *)
Theorem getAllUsers_returns (P : Platform) (w : World) :
  ∃ users evs,
    getAllUsers P w = (Ok users, {| svc := svc w; log := log w ++ evs |}) ∧
    Forall isRead evs ∧ length evs ≤ maxPages.
Proof.
  unfold getAllUsers, catch.
  destruct (usersLoop P maxPages JNull 0 [] w) as [out w'] eqn:Hrun.
  destruct (usersLoop_bound _ _ _ _ _ _ _ _ Hrun) as (Hs & evs & Hl & Hn).
  destruct (readsOnly_usersLoop _ _ _ _ _ _ _ _ Hrun) as (_ & evs' & Hl' & Hr).
  assert (evs' = evs) as -> by (apply (app_inv_head (log w)); congruence).
  destruct w' as [s' l']. simpl in Hs, Hl. subst s' l'.
  destruct out as [users|e]; [exists users, evs | exists [], evs]; auto.
Qed.

Lemma answered_app P evs1 : ∀ h evs2,
  answered P h evs1 → answered P (h ++ evs1) evs2 → answered P h (evs1 ++ evs2).
Proof.
  induction evs1 as [|e evs1 IH]; intros h evs2 H1 H2; simpl.
  - now rewrite app_nil_r in H2.
  - rewrite cons_middle, app_assoc in H2.
    destruct e as [r| |]; simpl in H1; try (apply IH; assumption).
    destruct H1 as [Hr H1]. split; [assumption | now apply IH].
Qed.

Lemma usersLoop_answered P fuel : ∀ nextLink pageCount allUsers w users w',
  usersLoop P fuel nextLink pageCount allUsers w = (Ok users, w') →
  ∃ evs, log w' = log w ++ evs ∧ answered P (log w) evs.
Proof.
  induction fuel as [|fuel IH]; intros nextLink pageCount allUsers w users w'.
  { simpl. monad. intros [= <- <-]. exists []. now rewrite app_nil_r. }
  rewrite usersLoop_S. monad.
  destruct (pageEndpoint nextLink) as [endpoint|]; [|discriminate].
  destruct (bearerOf (svc w)) as [token|] eqn:Hb.
  2:{ rewrite (makeGraphRequest_unauthenticated _ _ _ _ Hb). discriminate. }
  rewrite (makeGraphRequest_authenticated _ _ _ _ _ Hb).
  destruct (fetch P (log w) (graphRequest token endpoint noOptions))
    as [response|status text|e] eqn:Hf;
    cbn [payload]; try discriminate.
  assert (Hone : answered P (log w) [Fetch (graphRequest token endpoint noOptions)])
    by (simpl; eauto).
  destruct (pageUsers response) as [page|]; [|discriminate].
  destruct (maxPages <=? S pageCount)%nat; [intros [= <- <-]; simpl; eauto|].
  destruct (Js.truthy _); [|intros [= <- <-]; simpl; eauto].
  intros H. apply IH in H as (evs & Hl & Ha). simpl in Hl, Ha.
  exists (Fetch (graphRequest token endpoint noOptions) :: evs).
  split; [now rewrite Hl, <- app_assoc|].
  simpl. split; eauto.
Qed.

(** X10. One failure empties the listing of [getAllUsers]: when it
    returns at least one user, every request it sent was answered with
    JSON; the users of the pages read before a failed one are dropped. *)
Theorem getAllUsers_all_or_nothing (P : Platform) (w w' : World) (users : list JsVal) :
  getAllUsers P w = (Ok users, w') →
  users ≠ [] →
  ∃ evs, log w' = log w ++ evs ∧ answered P (log w) evs.
Proof.
  unfold getAllUsers, catch.
  destruct (usersLoop P maxPages JNull 0 [] w) as [[users0|e] w0] eqn:Hrun.
  - intros [= <- <-] _. eapply usersLoop_answered. exact Hrun.
  - unfold ret. intros [= <- <-] Hne. congruence.
Qed.

Lemma getAllUsers_all_or_nothing_sample :
  ∃ evs,
    log (snd (getAllUsers (Directory.directory 1 2) Sample.signedIn)) =
      log Sample.signedIn ++ evs ∧
    answered (Directory.directory 1 2) (log Sample.signedIn) evs.
Proof.
  apply (getAllUsers_all_or_nothing (Directory.directory 1 2) Sample.signedIn _
           (map userOf (concat (Directory.pages 1 2)))).
  - reflexivity.
  - discriminate.
Defined.

(** ** The token and the memoized identifiers *)

(** X11. [setAccessToken] replaces the token and nothing else: unlike
    [authenticate], it keeps the site identifier and the cache of list
    identifiers, so a list name resolved before is still answered from
    the cache, without a request, whatever the new token is (the empty
    token of a logout included). *)
Theorem setAccessToken_keeps_identifiers (P : Platform) (token listName : string)
    (id : JsVal) (w : World) :
  listIdCache (svc w) !! listName = Some id →
  let w' := snd (setAccessToken token w) in
  getListId P listName w' = (Ok id, w') ∧
  siteId (svc w') = siteId (svc w) ∧
  accessToken (svc w') = Some token ∧
  log w' = log w.
Proof.
  intros Hc. simpl. split; [|auto]. now apply getListId_hit.
Qed.

Lemma setAccessToken_keeps_identifiers_sample :
  let w' := snd (setAccessToken EmptyString Login.warm) in
  getListId Sample.offline "Assets" w' = (Ok (JStr "list-assets"), w').
Proof.
  apply (setAccessToken_keeps_identifiers Sample.offline EmptyString "Assets"
           (JStr "list-assets") Login.warm).
  reflexivity.
Defined.

(** ** The records of a list *)

Lemma fold_setField_field es : ∀ base k,
  NoDup (map fst es) →
  Js.field (fold_left (fun record kv => Js.setField record (fst kv) (snd kv)) es base) k =
    if decide (k ∈ map fst es) then Js.field es k else Js.field base k.
Proof.
  induction es as [|[k0 v0] r IH]; intros base k Hnd; simpl.
  { destruct (decide (k ∈ [])) as [Hin|_]; [|reflexivity]. now apply elem_of_nil in Hin. }
  apply NoDup_cons in Hnd as [Hk0 Hnd]. rewrite (IH _ _ Hnd).
  destruct (String.eqb_spec k0 k) as [->|Hne].
  - destruct (decide (k ∈ map fst r)) as [Hin|_]; [contradiction|].
    rewrite field_setField_eq.
    destruct (decide (k ∈ k :: map fst r)) as [_|Hout]; [reflexivity|].
    exfalso. apply Hout. apply elem_of_cons. now left.
  - rewrite field_setField_ne by assumption.
    destruct (decide (k ∈ map fst r)) as [Hin|Hout];
      destruct (decide (k ∈ k0 :: map fst r)) as [Hin'|Hout']; try reflexivity.
    + exfalso. apply Hout'. apply elem_of_cons. now right.
    + exfalso. apply elem_of_cons in Hin' as [->|Hin']; [now apply Hne | now apply Hout].
Qed.

(** X12. The record [getRecords] makes of an item carries every field
    of the item's [fields] with its value, and [Id]: the identifier of
    the item unless [fields] has an [Id] of its own, which then wins.
    Nothing else is in the record. *)
Theorem flatten_fields (item f : JsVal) (record : Obj) :
  Js.get item "fields" = Ok f →
  NoDup (map fst (Js.entries (Js.or f (JObj [])))) →
  flatten item = Ok record →
  ∀ k, Js.field record k =
       if decide (k ∈ map fst (Js.entries (Js.or f (JObj []))))
       then Js.field (Js.entries (Js.or f (JObj []))) k
       else if String.eqb k "Id" then Js.prop item "id" else JUndefined.
Proof.
  intros Hf Hnd. unfold flatten. rewrite Hf. cbn [obind].
  unfold Js.prop. destruct (Js.get item "id") as [id|e] eqn:Hid; cbn [obind]; [|discriminate].
  intros [= <-] k. rewrite (fold_setField_field _ _ _ Hnd).
  destruct (decide _); [reflexivity|]. simpl.
  rewrite String.eqb_sym. destruct (String.eqb k "Id"); reflexivity.
Qed.

Lemma flatten_fields_sample :
  Js.field [("Id", JNum 7); ("Title", JStr "Laptop-01")] "Id" =
    if decide ("Id" ∈ ["Id"; "Title"])
    then Js.field [("Id", JNum 7); ("Title", JStr "Laptop-01")] "Id"
    else JStr "12".
Proof.
  apply (flatten_fields
           (JObj [("id", JStr "12");
                  ("fields", JObj [("Id", JNum 7); ("Title", JStr "Laptop-01")])])
           (JObj [("Id", JNum 7); ("Title", JStr "Laptop-01")])
           [("Id", JNum 7); ("Title", JStr "Laptop-01")]).
  - reflexivity.
  - simpl. apply (bool_decide_unpack (NoDup ["Id"; "Title"])). vm_compute. exact I.
  - reflexivity.
Defined.

Lemma sameExcept_refl names a : sameExcept names a a.
Proof. now intros k _. Qed.

Lemma sameExcept_trans names a b c :
  sameExcept names a b → sameExcept names b c → sameExcept names a c.
Proof. intros Hab Hbc k Hk. rewrite (Hab k Hk). exact (Hbc k Hk). Qed.

Lemma setField_sameExcept record k v :
  k ∈ nameFields → sameExcept nameFields (Js.setField record k v) record.
Proof. intros Hin k' Hout. apply field_setField_ne. intros ->. exact (Hout Hin). Qed.

Lemma setEmployee_sameExcept record name :
  sameExcept nameFields (setEmployee record name) record.
Proof.
  unfold setEmployee.
  eapply sameExcept_trans; apply setField_sameExcept; unfold nameFields; set_solver.
Qed.

Lemma setAssignee_sameExcept record name :
  sameExcept nameFields (setAssignee record name) record.
Proof.
  unfold setAssignee.
  eapply sameExcept_trans; apply setField_sameExcept; unfold nameFields; set_solver.
Qed.

Lemma expandEmployee_sameExcept record record' :
  expandEmployee record = Ok record' → sameExcept nameFields record' record.
Proof.
  unfold expandEmployee.
  destruct (Js.isInline _); [|intros [= <-]; apply sameExcept_refl].
  destruct (Js.truthy _); [|intros [= <-]; apply sameExcept_refl].
  destruct (inlineEmployeeName _) as [| | | | |s| |]; try discriminate.
  destruct (Str.matchHPH s); intros [= <-];
    [apply sameExcept_refl | apply setEmployee_sameExcept].
Qed.

Lemma populateEmployee_sameExcept names record :
  sameExcept nameFields (populateEmployee names record) record.
Proof.
  unfold populateEmployee. destruct (employeeIdOf record); [|apply sameExcept_refl].
  destruct (Js.truthy _); [apply setEmployee_sameExcept|].
  apply setField_sameExcept. unfold nameFields. set_solver.
Qed.

Lemma populateAssignee_sameExcept names record :
  sameExcept nameFields (populateAssignee names record) record.
Proof.
  unfold populateAssignee. destruct (assigneeIdOf record); [|apply sameExcept_refl].
  destruct (_ && _); [apply setAssignee_sameExcept|].
  destruct (Js.truthy _); [apply setAssignee_sameExcept|].
  apply setField_sameExcept. unfold nameFields. set_solver.
Qed.

Lemma mapM_Forall2 {A B} (f : A → Outcome B) l : ∀ l',
  mapM f l = Ok l' → Forall2 (fun y x => f x = Ok y) l' l.
Proof.
  induction l as [|a l IH]; simpl; intros l' H.
  - injection H as <-. constructor.
  - destruct (f a) as [b|] eqn:Hb; [|discriminate]. simpl in H.
    destruct (mapM f l) as [bs|]; [|discriminate]. simpl in H. injection H as <-.
    constructor; auto.
Qed.

Lemma Forall2_map_same {A} (R : A → A → Prop) (g : A → A) l :
  (∀ x, R (g x) x) → Forall2 R (map g l) l.
Proof. intros H. induction l; simpl; constructor; auto. Qed.

(** The resolution of the employee names keeps the records in number and
    order and writes no field but [Employee] and [EmployeeName]. *)
Lemma resolveEmployeeNames_frame P records siteId cachedEmployees w records' w' :
  resolveEmployeeNames P records siteId cachedEmployees w = (Ok records', w') →
  Forall2 (sameExcept nameFields) records' records.
Proof.
  destruct records as [|first rest]; [discriminate|].
  destruct (Js.isInline (Js.field first "Employee")) eqn:Hfirst.
  - unfold resolveEmployeeNames. rewrite Hfirst. unfold lift.
    destruct (mapM expandEmployee (first :: rest)) as [expanded|] eqn:Hmap; [|discriminate].
    intros [= <- <-]. apply mapM_Forall2 in Hmap.
    eapply Forall2_impl; [exact Hmap|]. intros a b. apply expandEmployee_sameExcept.
  - destruct (resolveEmployeeNames_by_id P first rest siteId cachedEmployees w Hfirst)
      as (names & w1 & -> & _).
    intros [= <- <-].
    apply (Forall2_map_same _ (populateEmployee names) (first :: rest)).
    intros x. apply populateEmployee_sameExcept.
Qed.

Lemma resolveAssigneeNames_frame P records cachedEmployees w records' w' :
  resolveAssigneeNames P records cachedEmployees w = (Ok records', w') →
  Forall2 (sameExcept nameFields) records' records.
Proof.
  destruct (resolveAssigneeNames_by_id P records cachedEmployees w) as (names & w1 & -> & _).
  intros [= <- <-]. apply (Forall2_map_same _ (populateAssignee names) records).
  intros x. apply populateAssignee_sameExcept.
Qed.

Lemma Forall2_sameExcept_refl names l : Forall2 (sameExcept names) l l.
Proof. induction l; constructor; auto using sameExcept_refl. Qed.

Lemma Forall2_sameExcept_trans names l1 : ∀ l2 l3,
  Forall2 (sameExcept names) l1 l2 → Forall2 (sameExcept names) l2 l3 →
  Forall2 (sameExcept names) l1 l3.
Proof.
  induction l1 as [|a l1 IH]; intros l2 l3 H12 H23; inversion H12; subst;
    inversion H23; subst; constructor; eauto using sameExcept_trans.
Qed.

(** X13. [getRecords] returns one record per item of the answer to the
    items request, in the order of the answer, and each record is the
    flattened item except for the four name fields [Employee],
    [EmployeeName], [Assignee] and [AssigneeName].  For a list other
    than Access Cards and Assets the records are the flattened items and
    the items request is the last one sent. *)
Theorem getRecords_one_record_per_item (P : Platform) (listName : string)
    (cachedEmployees : option (list Obj)) (w w' : World) (records : list Obj) :
  getRecords P listName cachedEmployees w = (Ok records, w') →
  ∃ reads token siteId listId data items flat,
    Forall isRead reads ∧
    fetch P (log w ++ reads) (itemsRequest token siteId listId) = Json data ∧
    valueArray data = Ok items ∧
    mapM flatten items = Ok flat ∧
    Forall2 (sameExcept nameFields) records flat ∧
    (listName ≠ "Access Cards" → listName ≠ "Assets" →
     records = flat ∧
     log w' = log w ++ reads ++ [Fetch (itemsRequest token siteId listId)]).
Proof.
  unfold getRecords. monad.
  destruct (lookups_read P listName w) as (reads & Hreads & Hrun).
  destruct (getListId P listName w) as [[listId|e] w1]; [|discriminate].
  destruct (getSiteId P w1) as [[siteId|e] w2]; [|discriminate].
  destruct Hrun as [Hl _].
  destruct (bearerOf (svc w2)) as [token|] eqn:Hb.
  2:{ rewrite (makeGraphRequest_unauthenticated _ _ _ _ Hb). discriminate. }
  rewrite (makeGraphRequest_authenticated _ _ _ _ _ Hb).
  fold (itemsRequest token siteId listId). rewrite Hl.
  destruct (fetch P (log w ++ reads) (itemsRequest token siteId listId))
    as [data|status text|e] eqn:Hf; cbn [payload]; try discriminate.
  destruct (valueArray data) as [items|] eqn:Hitems; [|discriminate].
  destruct (mapM flatten items) as [flat|] eqn:Hflat; [|discriminate].
  intros H. exists reads, token, siteId, listId, data, items, flat.
  do 4 (split; [auto|]).
  destruct (String.eqb_spec listName "Access Cards") as [Hcards|Hcards];
    destruct (String.eqb_spec listName "Assets") as [Hassets|Hassets];
    try (exfalso; subst listName; discriminate Hassets); cbn [andb] in H.
  - split; [|intros Hne; now destruct Hne].
    destruct (negb (isNil flat)); [|injection H as <- _; apply Forall2_sameExcept_refl].
    destruct (resolveEmployeeNames P flat siteId cachedEmployees _) as [[records1|e] w3] eqn:Hr;
      [|discriminate].
    injection H as <- _. eapply resolveEmployeeNames_frame. exact Hr.
  - split; [|intros _ Hne; now destruct Hne].
    destruct (negb (isNil flat)); [|injection H as <- _; apply Forall2_sameExcept_refl].
    eapply resolveAssigneeNames_frame. exact H.
  - injection H as <- <-. split; [apply Forall2_sameExcept_refl|].
    intros _ _. split; [reflexivity|]. simpl. now rewrite Hl, <- app_assoc.
Qed.

Lemma getRecords_sample :
  ∃ reads token siteId listId data items flat,
    Forall isRead reads ∧
    fetch Office.graph (log Sample.signedIn ++ reads) (itemsRequest token siteId listId)
      = Json data ∧
    valueArray data = Ok items ∧
    mapM flatten items = Ok flat ∧
    Forall2 (sameExcept nameFields)
      [ [("Id", JStr "7"); ("Title", JStr "Laptop-01"); ("field_2LookupId", JStr "42");
         ("Assignee", placeholder "42")];
        [("Id", JStr "8"); ("Title", JStr "Monitor-02")] ] flat.
Proof.
  destruct (getRecords_one_record_per_item Office.graph "Assets" None Sample.signedIn
              (snd (getRecords Office.graph "Assets" None Sample.signedIn))
              [ [("Id", JStr "7"); ("Title", JStr "Laptop-01");
                 ("field_2LookupId", JStr "42"); ("Assignee", placeholder "42")];
                [("Id", JStr "8"); ("Title", JStr "Monitor-02")] ] eq_refl)
    as (reads & token & siteId & listId & data & items & flat & H1 & H2 & H3 & H4 & H5 & _).
  exists reads, token, siteId, listId, data, items, flat. auto.
Defined.

(** ** The administrator check *)

(** The loop over the groups keeps the flag and the roles in step and,
    on groups that are not [null] or [undefined], is a filter. *)
Lemma foldM_adminRoleStep groups : ∀ status,
  Forall (fun g => Js.notNullish g = true) groups →
  foldM adminRoleStep groups status =
    Ok {| isAdmin := isAdmin status || existsb isAdminRole groups;
          roles := roles status ++ map roleName (List.filter isAdminRole groups) |}.
Proof.
  induction groups as [|g groups IH]; intros [a rs] Hall; simpl.
  - now rewrite orb_false_r, app_nil_r.
  - apply Forall_cons in Hall as [Hg Hall].
    unfold adminRoleStep at 1, isAdminRole at 1 3, Js.prop.
    destruct (Js.get g "@odata.type") as [type|e] eqn:Htype.
    2:{ destruct g; simpl in Hg, Htype; discriminate. }
    cbn [obind].
    destruct (Js.strictEq type _); cbn [andb orb obind]; [|now rewrite (IH _ Hall)].
    destruct (includesId adminRoleTemplateIds _); cbn [orb obind]; [|now rewrite (IH _ Hall)].
    rewrite (IH _ Hall). cbn [isAdmin roles map]. unfold roleName at 2, Js.prop.
    now rewrite orb_true_r, <- app_assoc.
Qed.

Lemma foldM_adminRoleStep_invariant groups : ∀ status status',
  (isAdmin status = true ↔ roles status ≠ []) →
  foldM adminRoleStep groups status = Ok status' →
  (isAdmin status' = true ↔ roles status' ≠ []).
Proof.
  induction groups as [|g groups IH]; intros status status' Hinv; simpl.
  - now intros [= <-].
  - destruct (adminRoleStep status g) as [status1|] eqn:Hstep; [|discriminate]. cbn [obind].
    apply IH. revert Hstep. unfold adminRoleStep.
    destruct (Js.get g "@odata.type") as [type|]; [|discriminate]. cbn [obind].
    destruct (Js.strictEq type _); [|now intros [= <-]].
    destruct (includesId _ _); [|now intros [= <-]].
    intros [= <-]. simpl. split; [|reflexivity].
    intros _ Hnil. now apply app_eq_nil in Hnil as [_ Hnil].
Qed.

(** X14. [isCurrentUserAdmin] never throws: it returns a status after
    at most one request, the read of [me/memberOf], and leaves the
    service as it was.  In the status [isAdmin] holds exactly when
    [roles] is not empty. *)
Theorem isCurrentUserAdmin_returns (P : Platform) (w : World) :
  ∃ status evs,
    isCurrentUserAdmin P w = (Ok status, {| svc := svc w; log := log w ++ evs |}) ∧
    (isAdmin status = true ↔ roles status ≠ []) ∧
    (evs = [] ∨ ∃ token, bearerOf (svc w) = Some token ∧ evs = [Fetch (memberOfRequest token)]).
Proof.
  assert (Hnot : isAdmin notAdmin = true ↔ roles notAdmin ≠ [])
    by (simpl; split; [discriminate | congruence]).
  unfold isCurrentUserAdmin. monad.
  destruct (bearerOf (svc w)) as [token|] eqn:Hb.
  2:{ rewrite (makeGraphRequest_unauthenticated _ _ _ _ Hb).
      exists notAdmin, []. rewrite app_nil_r. destruct w. auto. }
  rewrite (makeGraphRequest_authenticated _ _ _ _ _ Hb).
  fold (memberOfRequest token).
  assert (Hsent : sent w (memberOfRequest token) =
                  {| svc := svc w; log := log w ++ [Fetch (memberOfRequest token)] |})
    by reflexivity.
  destruct (payload _) as [response|e];
    [|exists notAdmin, [Fetch (memberOfRequest token)]; rewrite <- Hsent; eauto 6].
  destruct (Js.get response "value") as [value|e];
    [|exists notAdmin, [Fetch (memberOfRequest token)]; rewrite <- Hsent; eauto 6].
  destruct (iterate (Js.or value (JArr []))) as [groups|e];
    [|exists notAdmin, [Fetch (memberOfRequest token)]; rewrite <- Hsent; eauto 6].
  destruct (foldM adminRoleStep groups notAdmin) as [status|e] eqn:Hfold;
    [|exists notAdmin, [Fetch (memberOfRequest token)]; rewrite <- Hsent; eauto 6].
  exists status, [Fetch (memberOfRequest token)]. rewrite <- Hsent.
  split; [reflexivity|]. split; [|eauto].
  eapply foldM_adminRoleStep_invariant; [exact Hnot | exact Hfold].
Qed.

(** X15. When [me/memberOf] is answered with an array of groups none of
    which is [null], the user is an administrator exactly when one of the
    groups is a directory role with one of the four administrator
    templates, and [roles] lists the display names of these roles in the
    order of the answer, [Unknown Role] standing for a missing name. *)
Theorem isCurrentUserAdmin_by_template (P : Platform) (w : World) (token : string)
    (response : Obj) (groups : list JsVal) :
  bearerOf (svc w) = Some token →
  fetch P (log w) (memberOfRequest token) = Json (JObj response) →
  Js.field response "value" = JArr groups →
  Forall (fun g => Js.notNullish g = true) groups →
  isCurrentUserAdmin P w =
    (Ok {| isAdmin := existsb isAdminRole groups;
           roles := map roleName (List.filter isAdminRole groups) |},
     sent w (memberOfRequest token)).
Proof.
  intros Hb Hf Hvalue Hall. unfold isCurrentUserAdmin. monad.
  rewrite (makeGraphRequest_authenticated _ _ _ _ _ Hb).
  fold (memberOfRequest token). rewrite Hf. cbn [payload Js.get]. rewrite Hvalue.
  cbn [Js.or Js.truthy iterate]. now rewrite (foldM_adminRoleStep _ _ Hall).
Qed.

Lemma isCurrentUserAdmin_by_template_sample :
  isCurrentUserAdmin Office.graph Sample.signedIn =
    (Ok {| isAdmin := true; roles := [JStr "SharePoint Administrator"] |},
     sent Sample.signedIn (memberOfRequest "token")).
Proof.
  apply (isCurrentUserAdmin_by_template Office.graph Sample.signedIn "token"
           (Js.entries Office.memberOf) [Office.staff; Office.sharePointAdmins]).
  - reflexivity.
  - reflexivity.
  - reflexivity.
  - repeat constructor.
Defined.

Lemma foldM_adminRoleStep_nullish groups : ∀ status,
  Exists (fun g => Js.notNullish g = false) groups →
  ∃ e, foldM adminRoleStep groups status = Throw e.
Proof.
  induction groups as [|g groups IH]; intros status Hex; [now apply Exists_nil in Hex|].
  simpl. apply Exists_cons in Hex as [Hg|Hex].
  - exists TypeError. destruct g; simpl in Hg; try discriminate; reflexivity.
  - destruct (adminRoleStep status g) as [status1|e]; cbn [obind]; eauto.
Qed.

(** X16. One [null] among the groups undoes the whole check: when the
    answer to [me/memberOf] lists a [null] or [undefined] entry,
    [isCurrentUserAdmin] reports no administrator and no roles, whatever
    roles the other entries carry. *)
Theorem isCurrentUserAdmin_null_group (P : Platform) (w : World) (token : string)
    (response : Obj) (groups : list JsVal) :
  bearerOf (svc w) = Some token →
  fetch P (log w) (memberOfRequest token) = Json (JObj response) →
  Js.field response "value" = JArr groups →
  Exists (fun g => Js.notNullish g = false) groups →
  isCurrentUserAdmin P w = (Ok notAdmin, sent w (memberOfRequest token)).
Proof.
  intros Hb Hf Hvalue Hex. unfold isCurrentUserAdmin. monad.
  rewrite (makeGraphRequest_authenticated _ _ _ _ _ Hb).
  fold (memberOfRequest token). rewrite Hf. cbn [payload Js.get]. rewrite Hvalue.
  cbn [Js.or Js.truthy iterate].
  destruct (foldM_adminRoleStep_nullish groups notAdmin Hex) as [e ->]. reflexivity.
Qed.

Lemma isCurrentUserAdmin_null_group_sample :
  isCurrentUserAdmin
    (Office.always (JObj [("value", JArr [Office.sharePointAdmins; JNull])]))
    Sample.signedIn
  = (Ok notAdmin, sent Sample.signedIn (memberOfRequest "token")).
Proof.
  apply (isCurrentUserAdmin_null_group _ Sample.signedIn "token"
           [("value", JArr [Office.sharePointAdmins; JNull])]
           [Office.sharePointAdmins; JNull]).
  - reflexivity.
  - reflexivity.
  - reflexivity.
  - apply Exists_cons_tl, Exists_cons_hd. reflexivity.
Defined.

(** ** The administrators *)

Lemma foldM_adminStep members : ∀ admins admins',
  foldM adminStep members admins = Ok admins' →
  ∃ added, admins' = admins ++ map toAdmin added.
Proof.
  induction members as [|m members IH]; intros admins admins'; simpl.
  - intros [= <-]. exists []. now rewrite app_nil_r.
  - unfold adminStep at 1.
    destruct (Js.get m "@odata.type") as [type|]; [|discriminate]. cbn [obind].
    destruct (Js.strictEq type _); cbn [obind]; intros H; apply IH in H as [added ->].
    + exists (m :: added). now rewrite <- app_assoc.
    + now exists added.
Qed.


(** X17. [getAdminUsers] never throws: it returns a list after at most
    two requests, both reads, and leaves the service as it was.  Every
    administrator it returns is an object built from a member, with
    [roles] equal to [['Global Administrator']]. *)
Theorem getAdminUsers_returns (P : Platform) (w : World) :
  ∃ admins evs,
    getAdminUsers P w = (Ok admins, {| svc := svc w; log := log w ++ evs |}) ∧
    Forall isRead evs ∧ length evs ≤ 2 ∧
    Forall (fun a => ∃ member, a = toAdmin member ∧
                     Js.prop a "roles" = JArr [JStr "Global Administrator"]) admins.
Proof.
  assert (Hworld : ∀ endpoint v out v',
            makeGraphRequest P endpoint noOptions v = (out, v') →
            ∃ evs, v' = {| svc := svc v; log := log v ++ evs |} ∧
                   Forall isRead evs ∧ length evs ≤ 1).
  { intros endpoint v out v' H. destruct v' as [s' l'].
    apply makeGraphRequest_world in H as [Hs [Hl|(token & _ & Hl)]]; simpl in Hs, Hl; subst.
    - exists []. rewrite app_nil_r. simpl. auto.
    - eexists. split; [reflexivity|]. split; [now apply Forall_isRead_one | simpl; lia]. }
  unfold getAdminUsers. monad.
  destruct (makeGraphRequest P "directoryRoles" noOptions w) as [[rolesResponse|e] w1] eqn:H1;
    apply Hworld in H1 as (evs1 & -> & Hr1 & Hn1).
  2:{ exists [], evs1. repeat split; auto; lia. }
  destruct (findGlobalAdminRole rolesResponse) as [globalAdminRole|e].
  2:{ exists [], evs1. repeat split; auto; lia. }
  destruct (negb (Js.truthy globalAdminRole)).
  { exists [], evs1. repeat split; auto; lia. }
  destruct (makeGraphRequest P _ noOptions _) as [[membersResponse|e] w2] eqn:H2;
    apply Hworld in H2 as (evs2 & -> & Hr2 & Hn2); cbn [svc log].
  all: assert (Hboth : Forall isRead (evs1 ++ evs2) ∧ length (evs1 ++ evs2) ≤ 2)
         by (split; [now apply Forall_app | rewrite length_app; lia]).
  all: rewrite <- app_assoc.
  2:{ exists [], (evs1 ++ evs2). destruct Hboth. repeat split; auto. }
  destruct (Js.get membersResponse "value") as [value|e].
  2:{ exists [], (evs1 ++ evs2). destruct Hboth. repeat split; auto. }
  destruct (iterate (Js.or value (JArr []))) as [members|e].
  2:{ exists [], (evs1 ++ evs2). destruct Hboth. repeat split; auto. }
  destruct (foldM adminStep members []) as [admins|e] eqn:Hfold.
  2:{ exists [], (evs1 ++ evs2). destruct Hboth. repeat split; auto. }
  exists admins, (evs1 ++ evs2). destruct Hboth. repeat split; auto.
  apply foldM_adminStep in Hfold as [added ->]. simpl.
  apply Forall_forall. intros a Ha. apply list_elem_of_fmap in Ha as (member & -> & _).
  exists member. split; reflexivity.
Qed.



(** ** The signed-in user with the administrator status *)

(** X19. Signed in, [getCurrentUserWithAdminStatus] sends both requests,
    [me] and then [me/memberOf], whatever the answers are, and leaves the
    service as it was.  It throws exactly when [getCurrentUser] does, with
    the same error: a failed administrator check never fails the call. *)
Theorem getCurrentUserWithAdminStatus_sends_both (P : Platform) (w : World) (token : string) :
  bearerOf (svc w) = Some token →
  ∃ out,
    getCurrentUserWithAdminStatus P w =
      (out, {| svc := svc w;
               log := log w ++ [Fetch (meRequest token); Fetch (memberOfRequest token)] |}) ∧
    ∀ e, out = Throw e ↔ fst (getCurrentUser P w) = Throw e.
Proof.
  intros Hb. unfold getCurrentUserWithAdminStatus.
  assert (Huser : ∃ user, getCurrentUser P w = (user, sent w (meRequest token))).
  { unfold getCurrentUser. monad.
    rewrite (makeGraphRequest_authenticated _ _ _ _ _ Hb). fold (meRequest token).
    destruct (payload _) as [response|e]; [|eauto].
    destruct (Js.get response "id"); eauto. }
  destruct Huser as [user ->]. cbn [fst].
  assert (Hstatus : ∃ status, isCurrentUserAdmin P (sent w (meRequest token)) =
                      (Ok status, sent (sent w (meRequest token)) (memberOfRequest token))).
  { unfold isCurrentUserAdmin. monad.
    rewrite (makeGraphRequest_authenticated _ _ _ _ token) by exact Hb.
    fold (memberOfRequest token).
    destruct (payload _) as [response|e]; [|eauto].
    destruct (Js.get response "value") as [value|e]; [|eauto].
    destruct (iterate (Js.or value (JArr []))) as [groups|e]; [|eauto].
    destruct (foldM adminRoleStep groups notAdmin) as [status|e]; eauto. }
  destruct Hstatus as [status ->].
  eexists. split.
  - unfold sent. cbn [svc log]. rewrite <- app_assoc. reflexivity.
  - intros e. destruct user as [u|e0]; split; congruence.
Qed.

Lemma getCurrentUserWithAdminStatus_sample :
  getCurrentUserWithAdminStatus Office.graph Sample.signedIn =
    (Ok (JObj [("user",
                JObj [("id", JStr "u-1"); ("displayName", JStr "Jane Doe");
                      ("userPrincipalName", JStr "jane@contoso.com");
                      ("mail", JStr "jane@contoso.com");
                      ("jobTitle", JUndefined); ("officeLocation", JUndefined)]);
               ("isAdmin", JBool true);
               ("roles", JArr [JStr "SharePoint Administrator"])]),
     {| svc := svc Sample.signedIn;
        log := log Sample.signedIn ++
                 [Fetch (meRequest "token"); Fetch (memberOfRequest "token")] |}).
Proof.
  destruct (getCurrentUserWithAdminStatus_sends_both Office.graph Sample.signedIn "token"
              eq_refl) as (out & Hrun & _).
  rewrite Hrun. f_equal.
  assert (Hout : fst (getCurrentUserWithAdminStatus Office.graph Sample.signedIn) = out)
    by now rewrite Hrun.
  rewrite <- Hout. reflexivity.
Defined.

(** ** The configuration script and the sign-in *)

Lemma matchGuid_not_empty s : Str.matchGuid s = true → Str.isEmpty s = false.
Proof. destruct s; [discriminate | reflexivity]. Qed.

Lemma checkSiteUrl_error siteUrl :
  Validation.matchUrl siteUrl = false →
  Validation.isError (Validation.checkSiteUrl siteUrl) = true.
Proof.
  intros H. unfold Validation.checkSiteUrl. rewrite H. now destruct (Str.isEmpty siteUrl).
Qed.

Lemma checkSiteUrl_accepted siteUrl :
  Validation.matchUrl siteUrl = true → Validation.checkSiteUrl siteUrl = Validation.Accepted.
Proof.
  intros H. unfold Validation.checkSiteUrl. rewrite H.
  now destruct siteUrl.
Qed.

Lemma checkId_error placeholderValue id :
  Str.matchGuid id = false →
  Validation.isError (Validation.checkId placeholderValue id) = true.
Proof.
  intros H. unfold Validation.checkId. rewrite H.
  destruct (Str.isEmpty id); [reflexivity|]. now destruct (id =? placeholderValue)%string.
Qed.

Lemma checkId_accepted placeholderValue id :
  Str.matchGuid placeholderValue = false → Str.matchGuid id = true →
  Validation.checkId placeholderValue id = Validation.Accepted.
Proof.
  intros Hp H. unfold Validation.checkId. rewrite H, (matchGuid_not_empty _ H).
  destruct (String.eqb_spec id placeholderValue) as [->|_]; [congruence | reflexivity].
Qed.

Lemma exitCode_errors config defaultListName :
  Validation.exitCode (Validation.validateConfig config defaultListName) =
    if Validation.isError (Validation.checkSiteUrl (cfg_siteUrl config))
       || Validation.isError (Validation.checkId "YOUR_CLIENT_ID_HERE" (cfg_clientId config))
       || Validation.isError (Validation.checkId "YOUR_TENANT_ID_HERE" (cfg_tenantId config))
    then 1%Z else 0%Z.
Proof. reflexivity. Qed.

Lemma validateConfig_accepted config defaultListName :
  Validation.exitCode (Validation.validateConfig config defaultListName) = 0%Z →
  Validation.matchUrl (cfg_siteUrl config) = true ∧
  Str.matchGuid (cfg_clientId config) = true ∧
  Str.matchGuid (cfg_tenantId config) = true.
Proof.
  rewrite exitCode_errors.
  destruct (Validation.matchUrl (cfg_siteUrl config)) eqn:Hurl;
    [|rewrite (checkSiteUrl_error _ Hurl); discriminate].
  destruct (Str.matchGuid (cfg_clientId config)) eqn:Hclient;
    [|rewrite (checkId_error _ _ Hclient), orb_true_r; discriminate].
  destruct (Str.matchGuid (cfg_tenantId config)) eqn:Htenant;
    [|rewrite (checkId_error _ _ Htenant), orb_true_r; discriminate].
  auto.
Qed.

(** X20. The validation script exits with 0 exactly when the site URL
    matches its pattern and the client and tenant identifiers are GUIDs;
    otherwise it exits with 1.  The checks for missing values and
    placeholders and the default list name do not change the code. *)
Theorem validateConfig_exit_code (config : SharePointConfig) (defaultListName : string) :
  (Validation.exitCode (Validation.validateConfig config defaultListName) = 0%Z ↔
   Validation.matchUrl (cfg_siteUrl config) = true ∧
   Str.matchGuid (cfg_clientId config) = true ∧
   Str.matchGuid (cfg_tenantId config) = true) ∧
  (Validation.exitCode (Validation.validateConfig config defaultListName) = 0%Z ∨
   Validation.exitCode (Validation.validateConfig config defaultListName) = 1%Z).
Proof.
  split; [split; [apply validateConfig_accepted|] |].
  - intros (Hurl & Hclient & Htenant). rewrite exitCode_errors.
    rewrite (checkSiteUrl_accepted _ Hurl),
      (checkId_accepted "YOUR_CLIENT_ID_HERE" _ eq_refl Hclient),
      (checkId_accepted "YOUR_TENANT_ID_HERE" _ eq_refl Htenant).
    reflexivity.
  - rewrite exitCode_errors. destruct (_ || _); auto.
Qed.

(** X21. A configuration the validation script accepts passes the
    checks of [authenticate]: a service built from it never stops at the
    configuration errors, its sign-in always reaches the identity
    provider, with the client identifier of the configuration. *)
Theorem validated_config_reaches_sign_in (P : Platform) (config : SharePointConfig)
    (defaultListName : string) (w : World) :
  Validation.exitCode (Validation.validateConfig config defaultListName) = 0%Z →
  clientId (svc w) = cfg_clientId config →
  tenantId (svc w) = cfg_tenantId config →
  ∃ request evs,
    log (snd (authenticate P w)) =
      log w ++ Prompt request (discoveryFor (cfg_tenantId config)) :: evs ∧
    ar_clientId request = cfg_clientId config.
Proof.
  intros Hexit Hclient Htenant.
  apply validateConfig_accepted in Hexit as (_ & Hc & Ht).
  assert (Hlog : ∃ request evs,
            log (snd (authenticateBody P w)) =
              log w ++ Prompt request (discoveryFor (cfg_tenantId config)) :: evs ∧
            ar_clientId request = cfg_clientId config).
  { unfold authenticateBody. monad. rewrite Hclient, Htenant.
    rewrite (matchGuid_not_empty _ Hc), (matchGuid_not_empty _ Ht).
    destruct (String.eqb_spec (cfg_clientId config) "YOUR_CLIENT_ID_HERE") as [Heq|_];
      [rewrite Heq in Hc; discriminate|].
    destruct (String.eqb_spec (cfg_tenantId config) "YOUR_TENANT_ID_HERE") as [Heq|_];
      [rewrite Heq in Ht; discriminate|].
    cbn [orb]. cbv beta iota. cbn [svc log].
    eexists. destruct (promptAsync P _ _ _) as [[code|error| |type]|e]; cbv beta iota;
      cbn [svc log]; try (exists []; split; reflexivity).
    - destruct (Str.isEmpty code); cbv beta iota; cbn [svc log];
        [exists []; split; reflexivity|].
      destruct (exchangeCodeAsync P _ _ _) as [token|e]; cbv beta iota; cbn [svc log].
      + destruct (Str.isEmpty token); cbv beta iota; cbn [svc log];
          (eexists; split; [rewrite <- app_assoc; reflexivity | reflexivity]).
      + eexists; split; [rewrite <- app_assoc; reflexivity | reflexivity].
    - destruct (_ || _); exists []; split; reflexivity. }
  destruct Hlog as (request & evs & Hlog & Hreq). exists request, evs. split; [|exact Hreq].
  rewrite <- Hlog. unfold authenticate, catch.
  destruct (authenticateBody P w) as [[token|[message|]] w1]; cbn [snd]; try reflexivity.
  destruct (Str.isEmpty message); reflexivity.
Qed.

Lemma validated_config_sample :
  ∃ request evs,
    log (snd (authenticate Login.expoGo Sample.fresh)) =
      log Sample.fresh ++
        Prompt request (discoveryFor (cfg_tenantId Sample.config)) :: evs ∧
    ar_clientId request = cfg_clientId Sample.config.
Proof.
  apply (validated_config_reaches_sign_in Login.expoGo Sample.config "Assets" Sample.fresh);
    reflexivity.
Defined.

(** ** The redirect URI on the login screen *)

Lemma authenticate_world P w : snd (authenticate P w) = snd (authenticateBody P w).
Proof.
  unfold authenticate, catch.
  destruct (authenticateBody P w) as [[token|[message|]] w1]; cbn [snd]; try reflexivity.
  destruct (Str.isEmpty message); reflexivity.
Qed.

(** What a sign-in sends: nothing, the prompt, or the prompt and the
    exchange of the code, all with the redirect URI of the service. *)
Lemma authenticateBody_log P w :
  ∃ evs, log (snd (authenticateBody P w)) = log w ++ evs ∧
         Forall (usesRedirectUri (redirectUriOf P)) evs ∧ length evs ≤ 2.
Proof.
  assert (Hnil : ∀ l : list Event,
            ∃ evs, l = l ++ evs ∧ Forall (usesRedirectUri (redirectUriOf P)) evs ∧
                   length evs ≤ 2).
  { intros l. exists []. rewrite app_nil_r. simpl. auto. }
  assert (Hone : ∀ ev l, usesRedirectUri (redirectUriOf P) ev →
            ∃ evs, l ++ [ev] = l ++ evs ∧ Forall (usesRedirectUri (redirectUriOf P)) evs ∧
                   length evs ≤ 2).
  { intros ev l Hev. exists [ev]. simpl. repeat split; auto. }
  assert (Htwo : ∀ ev1 ev2 l,
            usesRedirectUri (redirectUriOf P) ev1 → usesRedirectUri (redirectUriOf P) ev2 →
            ∃ evs, (l ++ [ev1]) ++ [ev2] = l ++ evs ∧
                   Forall (usesRedirectUri (redirectUriOf P)) evs ∧ length evs ≤ 2).
  { intros ev1 ev2 l H1 H2. exists [ev1; ev2]. rewrite <- app_assoc. simpl.
    repeat split; auto. }
  unfold authenticateBody. monad.
  destruct (Str.isEmpty (clientId (svc w)) || (clientId (svc w) =? "YOUR_CLIENT_ID_HERE")%string);
    [apply Hnil|].
  destruct (Str.isEmpty (tenantId (svc w)) || (tenantId (svc w) =? "YOUR_TENANT_ID_HERE")%string);
    [apply Hnil|].
  cbv beta iota. cbn [svc log].
  destruct (promptAsync P (log w) _ _) as [[code|error| |type]|x]; cbv beta iota; cbn [svc log];
    try (apply Hone; reflexivity).
  - destruct (Str.isEmpty code); cbv beta iota; cbn [svc log snd]; [apply Hone; reflexivity|].
    destruct (exchangeCodeAsync P _ _ _) as [tok|x]; cbv beta iota; cbn [svc log snd];
      [|apply Htwo; reflexivity].
    destruct (Str.isEmpty tok); cbn [svc log snd]; apply Htwo; reflexivity.
  - match goal with |- context [if ?b then _ else _] => destruct b end;
      cbn [svc log snd]; apply Hone; reflexivity.
Qed.

(** X22. The redirect URI the login screen shows is the one the sign-in
    uses: whatever [authenticate] sends, at most a prompt and an exchange
    of the code, carries the URI computed by the screen (the platform
    making the same URIs for both). *)
Theorem sign_in_uses_shown_redirect_uri (P : Platform) (w : World) :
  ∃ evs,
    log (snd (authenticate P w)) = log w ++ evs ∧
    Forall (usesRedirectUri (LoginScreen.shownRedirectUri P)) evs ∧
    length evs ≤ 2.
Proof. rewrite authenticate_world. apply authenticateBody_log. Qed.

(** ** Names that need no request *)



(** X24. The employees [fetchEmployees] builds from the users of the
    directory keep the identifier of the user, a GUID, as [Id], and the
    service looks a cached employee up by the number [parseInt] reads at
    the start of [Id]: such an employee answers for the lookup identifier
    made of the leading digits of its GUID. *)
Theorem directory_user_matches_leading_digits (user : JsVal) (emp : Obj) (id : string)
    (n : Z) (others : list Obj) :
  HomeScreen.toEmployee user = Ok emp →
  Js.prop user "id" = JStr id →
  Js.parseInt id = JNum n →
  findCachedEmployee (emp :: others) n = Some emp.
Proof.
  unfold HomeScreen.toEmployee, Js.prop. intros Hemp Hid Hparse.
  destruct (Js.get user "id") as [id'|]; [|discriminate]. subst id'. cbn [obind] in Hemp.
  destruct (match Js.get user "userPrincipalName" with Ok x => x | Throw _ => JUndefined end)
    as [| | | | |upn| |]; try discriminate.
  cbn [obind] in Hemp. injection Hemp as <-.
  unfold findCachedEmployee. cbn [List.find Js.field String.eqb Ascii.eqb Bool.eqb].
  cbn [Js.parseIfString]. rewrite Hparse. cbn [Js.strictEq]. now rewrite Z.eqb_refl.
Qed.

Lemma directory_user_matches_leading_digits_sample :
  findCachedEmployee
    [ [("Id", JStr "42e90394-69f5-4237-9190-012177145e10"); ("EmpID", JStr "ravi");
       ("Employee", JStr "Ravi Rao"); ("EmployeeName", JStr "Ravi Rao");
       ("Title", JStr "Ravi Rao"); ("Email", JStr "ravi@contoso.com");
       ("Mail", JStr "ravi@contoso.com"); ("JobTitle", JUndefined);
       ("Department", JUndefined); ("OfficeLocation", JUndefined);
       ("UserPrincipalName", JStr "ravi@contoso.com")] ] 42
  = Some [("Id", JStr "42e90394-69f5-4237-9190-012177145e10"); ("EmpID", JStr "ravi");
          ("Employee", JStr "Ravi Rao"); ("EmployeeName", JStr "Ravi Rao");
          ("Title", JStr "Ravi Rao"); ("Email", JStr "ravi@contoso.com");
          ("Mail", JStr "ravi@contoso.com"); ("JobTitle", JUndefined);
          ("Department", JUndefined); ("OfficeLocation", JUndefined);
          ("UserPrincipalName", JStr "ravi@contoso.com")].
Proof.
  apply (directory_user_matches_leading_digits guidUser _
           "42e90394-69f5-4237-9190-012177145e10" 42 []); reflexivity.
Defined.






(** ** The form, the record view and the search *)

(** X26. [handleSubmit] sends nothing for a record without title: when
    no text was typed for [Title], or only white space, it reports the
    validation error and leaves the service and the log untouched,
    whatever the custom fields are. *)
Theorem handleSubmit_requires_title (P : Platform) (listName : string)
    (formData customFields : list (string * string)) (w : World) :
  (∀ text, RecordForm.typed formData "Title" = Some text → Str.trim text = EmptyString) →
  RecordForm.handleSubmit P listName formData customFields w =
    (Ok (ValidationError "Title is required"), w).
Proof.
  intros Hblank. unfold RecordForm.handleSubmit, RecordForm.fields.
  cbn [List.filter RecordForm.required List.find].
  assert (Htitle : RecordForm.isBlank formData
                     {| RecordForm.name := "Title"; RecordForm.label := "Title";
                        RecordForm.required := true |} = true).
  { unfold RecordForm.isBlank. cbn [RecordForm.name].
    destruct (RecordForm.typed formData "Title") as [text|] eqn:Htyped; [|reflexivity].
    now rewrite (Hblank text eq_refl). }
  rewrite Htitle. reflexivity.
Qed.

Lemma handleSubmit_requires_title_sample :
  RecordForm.handleSubmit Office.graph "Assets" [("Title", "   ")] [("Serial", "X-1")]
    Sample.signedIn
  = (Ok (ValidationError "Title is required"), Sample.signedIn).
Proof.
  apply handleSubmit_requires_title. intros text [= <-]. reflexivity.
Defined.

Lemma handleSave_organization_user P listName record editedFields w :
  RecordView.isOrganizationUser listName record = Ok true →
  ∃ message,
    RecordView.handleSave P listName record editedFields w = (Ok (Info message), w).
Proof. unfold RecordView.handleSave. monad. intros ->. eauto. Qed.

(** X27. [handleSave] sends nothing when the record is an organization
    user, and nothing when no field was edited: in both cases it shows a
    notice and leaves the service and the log untouched. *)
Theorem handleSave_sends_nothing (P : Platform) (listName : string)
    (record editedFields : Obj) (w : World) :
  RecordView.isOrganizationUser listName record = Ok true ∨
  (RecordView.isOrganizationUser listName record = Ok false ∧
   RecordView.copyFields editedFields = []) →
  ∃ message,
    RecordView.handleSave P listName record editedFields w = (Ok (Info message), w).
Proof.
  intros [Horg|[Horg Hnone]]; [now apply handleSave_organization_user|].
  unfold RecordView.handleSave. monad. rewrite Horg, Hnone. cbn [isNil]. eauto.
Qed.

Lemma handleSave_sends_nothing_sample :
  ∃ message,
    RecordView.handleSave Office.graph "Assets" Cards.asset [] Sample.signedIn =
      (Ok (Info message), Sample.signedIn).
Proof.
  apply handleSave_sends_nothing. right. split; reflexivity.
Defined.

(** X28. An employee built by [fetchEmployees] from a user of the
    directory that has a principal name or a mail address is an
    organization user of the record view: on the Employees list
    [handleSave] never sends an update for it. *)
Theorem directory_employee_is_read_only (P : Platform) (user : JsVal) (emp editedFields : Obj)
    (w : World) :
  HomeScreen.toEmployee user = Ok emp →
  Js.truthy (Js.prop user "userPrincipalName") = true ∨
  Js.truthy (Js.prop user "mail") = true →
  RecordView.isOrganizationUser "Employees" emp = Ok true ∧
  ∃ message,
    RecordView.handleSave P "Employees" emp editedFields w = (Ok (Info message), w).
Proof.
  intros Hemp Hcontact.
  assert (Horg : RecordView.isOrganizationUser "Employees" emp = Ok true).
  { revert Hemp. unfold HomeScreen.toEmployee.
    destruct (Js.get user "id") as [id|]; [|discriminate]. cbn [obind].
    destruct (Js.prop user "userPrincipalName") as [| | | | |upn| |] eqn:Hupn; try discriminate.
    cbn [obind]. intros [= <-].
    unfold RecordView.isOrganizationUser.
    change (Js.field _ "UserPrincipalName") with (JStr upn).
    change (Js.field _ "Mail") with (Js.or (Js.prop user "mail") (JStr upn)).
    change (RecordView.hasOwn _ "hasOwnProperty") with false.
    change (RecordView.hasOwn _ "AccessCardNo") with false.
    change (RecordView.hasOwn _ "AssetId") with false.
    cbn [String.eqb Ascii.eqb Bool.eqb negb andb].
    destruct (Js.truthy (JStr upn)) eqn:Ht; [reflexivity|].
    destruct Hcontact as [Hc|Hc]; [congruence|].
    unfold Js.or. now rewrite Hc, Hc. }
  split; [exact Horg|]. now apply handleSave_organization_user.
Qed.

Lemma directory_employee_is_read_only_sample :
  ∃ message,
    RecordView.handleSave Office.graph "Employees"
      [("Id", JStr "42e90394-69f5-4237-9190-012177145e10"); ("EmpID", JStr "ravi");
       ("Employee", JStr "Ravi Rao"); ("EmployeeName", JStr "Ravi Rao");
       ("Title", JStr "Ravi Rao"); ("Email", JStr "ravi@contoso.com");
       ("Mail", JStr "ravi@contoso.com"); ("JobTitle", JUndefined);
       ("Department", JUndefined); ("OfficeLocation", JUndefined);
       ("UserPrincipalName", JStr "ravi@contoso.com")]
      [("Title", JStr "R. Rao")] Sample.signedIn
    = (Ok (Info message), Sample.signedIn).
Proof.
  apply (directory_employee_is_read_only Office.graph guidUser).
  - reflexivity.
  - left. reflexivity.
Defined.

Lemma searchEntries_skips_metadata searchTerm record :
  ListScreen.searchEntries searchTerm record =
    ListScreen.searchEntries searchTerm
      (List.filter (fun kv => negb (ListScreen.isMetadata (fst kv))) record).
Proof.
  induction record as [|[key value] rest IH]; [reflexivity|].
  cbn [ListScreen.searchEntries List.filter fst].
  destruct (ListScreen.isMetadata key) eqn:Hkey; cbn [negb]; [exact IH|].
  cbn [ListScreen.searchEntries]. rewrite Hkey, IH. reflexivity.
Qed.

(** X29. The search never looks into [Id], [__metadata] and the fields
    whose name starts with an underscore: [matchesSearch] gives the same
    answer, or throws the same error, on the record without these
    fields. *)
Theorem matchesSearch_skips_metadata (record : Obj) (query : string) :
  ListScreen.matchesSearch record query =
    ListScreen.matchesSearch
      (List.filter (fun kv => negb (ListScreen.isMetadata (fst kv))) record) query.
Proof.
  unfold ListScreen.matchesSearch. destruct (Str.isEmpty _); [reflexivity|].
  apply searchEntries_skips_metadata.
Qed.

Lemma isSpace_lowerChar c : Str.isSpace (Str.lowerChar c) = Str.isSpace c.
Proof. destruct c as [[] [] [] [] [] [] [] []]; reflexivity. Qed.

Lemma trimStart_toLowerCase s :
  Str.trimStart (Str.toLowerCase s) = Str.toLowerCase (Str.trimStart s).
Proof.
  induction s as [|c r IH]; [reflexivity|].
  cbn [Str.toLowerCase Str.trimStart]. rewrite isSpace_lowerChar.
  destruct (Str.isSpace c); [exact IH | reflexivity].
Qed.

Lemma isEmpty_toLowerCase s : Str.isEmpty (Str.toLowerCase s) = Str.isEmpty s.
Proof. destruct s; reflexivity. Qed.

Lemma trimEnd_toLowerCase s :
  Str.trimEnd (Str.toLowerCase s) = Str.toLowerCase (Str.trimEnd s).
Proof.
  induction s as [|c r IH]; [reflexivity|].
  cbn [Str.toLowerCase Str.trimEnd]. rewrite isSpace_lowerChar, IH, isEmpty_toLowerCase.
  destruct (Str.isSpace c && Str.isEmpty (Str.trimEnd r)); reflexivity.
Qed.

Lemma trim_toLowerCase s : Str.trim (Str.toLowerCase s) = Str.toLowerCase (Str.trim s).
Proof. unfold Str.trim. now rewrite trimStart_toLowerCase, trimEnd_toLowerCase. Qed.

(** X30. The case of the query does not matter: two queries that differ
    in case only match the same records. *)
Theorem matchesSearch_ignores_query_case (record : Obj) (query query' : string) :
  sameIgnoringCase query query' →
  ListScreen.matchesSearch record query = ListScreen.matchesSearch record query'.
Proof.
  unfold sameIgnoringCase, ListScreen.matchesSearch. intros Hsame.
  rewrite <- (isEmpty_toLowerCase (Str.trim query)),
          <- (isEmpty_toLowerCase (Str.trim query')), <- !trim_toLowerCase, Hsame.
  reflexivity.
Qed.

Lemma matchesSearch_ignores_query_case_sample :
  ListScreen.matchesSearch Cards.asset "LAPTOP" = ListScreen.matchesSearch Cards.asset "laptop".
Proof.
  apply matchesSearch_ignores_query_case. reflexivity.
Defined.
